(** * ml5: the wrappers around pretrained models, modelled and verified

    A shallow embedding of the ml5 wrappers (KNNClassifier, CocoSsd, BodyPix,
    NeuralNetwork, NeuralNetworkData) and the properties their specification
    states about them.

    Conventions of the embedding:
    - a JavaScript value is a [jsval]; its numbers are exact rationals ([Q]),
      so rounding is outside the model, and so are NaN and the infinities
      except where a function produces them itself ([Math.min] on an empty
      array), whose result type then says so; where the wrapper only passes
      numbers on or divides them (CocoSsd), the number type is a parameter;
    - a promise is represented by the state it eventually reaches
      ([Fulfilled], [Rejected], or [Pending] when it never settles); an
      [async] function is a function returning such a promise, and a [throw]
      inside it is a rejection;
    - the invocations of user callbacks are recorded as a list of
      [callback_call]s;
    - the external libraries (tfjs, knn-classifier, coco-ssd, body-pix, p5)
      are interfaces (type classes); every theorem holds for any
      implementation of them that meets the hypotheses it states;
    - an object is the map of its own properties: the order in which the
      engine lists them, whether two objects are one, and what it makes of
      arithmetic on operands that are no numbers are interfaces too; a
      function value holds no code, so the only calls of functions that the
      caller supplies are the ones [callCallback] records. *)

From Stdlib Require Import QArith Qround ZArith Ascii String List Bool Lia Lqa.
From stdpp Require Import gmap strings list fin_maps sorting pretty.

(** ** JavaScript values *)

Module JS.

(** The DOM classes the wrappers test with [instanceof]; every other object
    is a [PlainObject]. *)
Inductive js_class :=
| HTMLImageElement
| HTMLCanvasElement
| HTMLVideoElement
| ImageData
| PlainObject.

Definition js_class_eqb (a b : js_class) : bool :=
  match a, b with
  | HTMLImageElement, HTMLImageElement
  | HTMLCanvasElement, HTMLCanvasElement
  | HTMLVideoElement, HTMLVideoElement
  | ImageData, ImageData
  | PlainObject, PlainObject => true
  | _, _ => false
  end.

#[warnings="-register-all"]
Inductive jsval :=
| JUndefined
| JNull
| JBoolean (b : bool)
| JNumber (q : Q)
| JString (s : string)
| JFunction (f : nat)
| JArray (items : list jsval)
| JObject (cls : js_class) (props : gmap string jsval).

(** [typeof v], as the string JavaScript gives. *)
Definition typeof (v : jsval) : string :=
  match v with
  | JUndefined => "undefined"
  | JNull => "object"
  | JBoolean _ => "boolean"
  | JNumber _ => "number"
  | JString _ => "string"
  | JFunction _ => "function"
  | JArray _ => "object"
  | JObject _ _ => "object"
  end.

(** [v instanceof C] for a DOM class [C]. *)
Definition instanceof (v : jsval) (C : js_class) : bool :=
  match v with
  | JObject c _ => js_class_eqb c C
  | _ => false
  end.

(** ToBoolean: what [if (v)] and [v || w] test. *)
Definition truthy (v : jsval) : bool :=
  match v with
  | JUndefined | JNull => false
  | JBoolean b => b
  | JNumber q => negb (Qeq_bool q 0)
  | JString s => negb (String.eqb s "")
  | JFunction _ | JArray _ | JObject _ _ => true
  end.

(** [a || b] *)
Definition js_or (a b : jsval) : jsval := if truthy a then a else b.

(** Errors: [new Error(message)], and the [TypeError] the engine raises when
    a property of [undefined] or [null] is read. *)
Inductive js_error :=
| Error (message : string)
| TypeError (message : string).

(** A statement or expression either completes with a value or throws. *)
Inductive completion (A : Type) :=
| Normal (a : A)
| Throw (e : js_error).
Arguments Normal {A} a.
Arguments Throw {A} e.

(** [v.name]: reading a property of [undefined] or [null] throws; an object
    gives the property or [undefined]; the properties read here (elt, canvas,
    readyState, the option names) exist on no primitive, function or array. *)
Definition get_prop (v : jsval) (name : string) : completion jsval :=
  match v with
  | JUndefined => Throw (TypeError ("Cannot read properties of undefined (reading '" ++ name ++ "')"))
  | JNull => Throw (TypeError ("Cannot read properties of null (reading '" ++ name ++ "')"))
  | JObject _ props => Normal (default JUndefined (props !! name))
  | _ => Normal JUndefined
  end.

(** ** Promises and callbacks *)

Inductive promise (A : Type) :=
| Fulfilled (a : A)
| Rejected (e : js_error)
| Pending.
Arguments Fulfilled {A} a.
Arguments Rejected {A} e.
Arguments Pending {A}.

(** [await p; k]: the continuation runs on the value [p] is fulfilled with. *)
Definition await {A B} (p : promise A) (k : A -> promise B) : promise B :=
  match p with
  | Fulfilled a => k a
  | Rejected e => Rejected e
  | Pending => Pending
  end.

(** A completion inside an [async] function: a throw rejects its promise. *)
Definition of_completion {A} (c : completion A) : promise A :=
  match c with
  | Normal a => Fulfilled a
  | Throw e => Rejected e
  end.

(** One invocation of a user callback [f]: [f(undefined, result)] or
    [f(error)]. *)
Record callback_call (A : Type) := CallbackCall {
  callee : nat;
  error_arg : option js_error;
  result_arg : option A }.
Arguments CallbackCall {A} callee error_arg result_arg.
Arguments callee {A} c.
Arguments error_arg {A} c.
Arguments result_arg {A} c.

(** Modelled from the spec: utils/callcallback.js, which every wrapper
    imports as [callCallback], is not among the sources. The spec says the
    wrappers accept "either callbacks or promises" and end in "callback/promise
    resolution"; the wrappers' own documentation says the callback is called
    once the work is done, with the signature [(error, result)], and that a
    promise is returned otherwise. So: a supplied callback function is called
    with the outcome of the promise once it settles, and the promise is handed
    back. *)
Definition callCallback {A} (p : promise A) (callback : jsval)
  : promise A * list (callback_call A) :=
  match callback with
  | JFunction f =>
      (p, match p with
          | Fulfilled r => [CallbackCall f None (Some r)]
          | Rejected e => [CallbackCall f (Some e) None]
          | Pending => []
          end)
  | _ => (p, [])
  end.

(** What an asynchronous method leaves behind: the promise it returned, the
    callback invocations it caused, and the object it was called on. *)
Record outcome (S A : Type) := Outcome {
  returned : promise A;
  calls : list (callback_call A);
  this_after : S }.
Arguments Outcome {S A} returned calls this_after.
Arguments returned {S A} o.
Arguments calls {S A} o.
Arguments this_after {S A} o.

(** Statements in sequence: a throw ends the sequence. *)
#[global] Instance completion_bind : MBind completion := fun A B f c =>
  match c with
  | Normal a => f a
  | Throw e => Throw e
  end.
#[global] Instance completion_ret : MRet completion := fun A a => Normal a.

(** The body of an [async] method of an object of type [S]: it reads and
    assigns the object's fields and stops at the first awaited promise that
    is rejected or never settles, leaving the assignments made so far. *)
Definition async (S A : Type) : Type := S -> promise A * S.

Definition async_bind {S A B} (m : async S A) (k : A -> async S B) : async S B :=
  fun s =>
    match m s with
    | (Fulfilled a, s') => k a s'
    | (Rejected e, s') => (Rejected e, s')
    | (Pending, s') => (Pending, s')
    end.

Definition async_return {S A} (a : A) : async S A := fun s => (Fulfilled a, s).
Definition awaiting {S A} (p : promise A) : async S A := fun s => (p, s).
Definition evaluating {S A} (c : completion A) : async S A := fun s => (of_completion c, s).
Definition this_object {S} : async S S := fun s => (Fulfilled s, s).
Definition assign {S} (s' : S) : async S unit := fun _ => (Fulfilled tt, s').

Notation "x <~ m ;; k" := (async_bind m (fun x => k))
  (at level 100, m at next level, k at level 200, right associativity).
Notation "m ;;; k" := (async_bind m (fun _ => k))
  (at level 100, k at level 200, right associativity).

End JS.

(** ** KNNClassifier (src/KNNClassifier/index.js) *)

Module KNNClassifier.
Import JS.

(** The object [knnClassifier.predictClass] resolves to, with the two
    properties [classifyInternal] adds to it ([label] may already be set by
    the library). A class index is an integer or [undefined] ([None]). *)
Record prediction := Prediction {
  classIndex : option Z;
  confidences : option (list (Z * Q));
  label : option string;
  confidencesByLabel : option (gmap string Q) }.

(** The imported libraries: [tf.tensor] of tfjs and a classifier made by
    [knnClassifier.create()] of knn-classifier, whose state is a [dataset].
    [knn_getNumClasses] is the library's count of the classes that hold an
    example; [knn_predictClass] is its k-nearest-neighbour vote. *)
Class KnnLibrary := {
  tensor : Type;
  dataset : Type;
  tf_tensor : list Q -> tensor;
  knn_create : dataset;
  knn_addExample : dataset -> tensor -> jsval -> completion dataset;
  knn_getNumClasses : dataset -> nat;
  knn_predictClass : dataset -> tensor -> Q -> promise prediction * dataset;
  knn_clearClass : dataset -> jsval -> completion dataset;
  knn_clearAllClasses : dataset -> dataset }.

Section KNN.
Context {lib : KnnLibrary}.

(** An input is an array of numbers or already a tensor. *)
Inductive knn_input :=
| InputArray (a : list Q)
| InputTensor (t : tensor).

Record KNN := MkKNN {
  knnClassifier : dataset;
  mapStringToIndex : list string }.

(** [constructor()] *)
Definition new_KNN : KNN :=
  {| knnClassifier := knn_create; mapStringToIndex := [] |}.

(** [Array.prototype.includes], [indexOf] (-1 when absent) and [push] (which
    returns the new length) on an array of strings. *)
Definition includes (l : list string) (s : string) : bool :=
  existsb (String.eqb s) l.

Fixpoint indexOf_from (l : list string) (s : string) (i : Z) : Z :=
  match l with
  | [] => (-1)%Z
  | x :: r => if String.eqb x s then i else indexOf_from r s (i + 1)%Z
  end.

Definition indexOf (l : list string) (s : string) : Z := indexOf_from l s 0.

Definition push (l : list string) (s : string) : list string * Z :=
  (l ++ [s], Z.of_nat (length (l ++ [s]))).

(** [l[i]] for an integer [i]: [undefined] ([None]) out of range. *)
Definition array_get {A} (l : list A) (i : Z) : option A :=
  if (0 <=? i)%Z then l !! Z.to_nat i else None.

(** [v === s] for a string literal [s]. *)
Definition strict_equals_string (v : jsval) (s : string) : bool :=
  match v with
  | JString t => String.eqb t s
  | _ => false
  end.

(** Lines 30-42 of [addExample]: the class index handed to the library and
    the label array afterwards. The second test compares the value itself
    with the string 'number' (the source has no [typeof] there), so a
    numeric [classIndexOrLabel] leaves [classIndex] undefined. *)
Definition resolveClassIndex (map : list string) (classIndexOrLabel : jsval)
  : jsval * list string :=
  match classIndexOrLabel with
  | JString s =>
      if negb (includes map s) then
        let '(map', len) := push map s in
        (JNumber (inject_Z (len - 1)), map')
      else (JNumber (inject_Z (indexOf map s)), map)
  | _ =>
      if strict_equals_string classIndexOrLabel "number"
      then (classIndexOrLabel, map)
      else (JUndefined, map)
  end.

Definition to_example (input : knn_input) : tensor :=
  match input with
  | InputArray a => tf_tensor a
  | InputTensor t => t
  end.

Definition addExample (this : KNN) (input : knn_input) (classIndexOrLabel : jsval)
  : completion unit * KNN :=
  let '(classIndex, map') := resolveClassIndex (mapStringToIndex this) classIndexOrLabel in
  let example := to_example input in
  match knn_addExample (knnClassifier this) example classIndex with
  | Normal ds => (Normal tt, {| knnClassifier := ds; mapStringToIndex := map' |})
  | Throw e => (Throw e, {| knnClassifier := knnClassifier this; mapStringToIndex := map' |})
  end.

(** [object[key] = value] on an object literal, for a [value] that is a
    number: an own property, except under the key [__proto__], the accessor
    of [Object.prototype], whose setter ignores a number and leaves the
    object without the property. *)
Definition assign_number {A} (key : string) (value : A) (object : gmap string A)
  : gmap string A :=
  if String.eqb key "__proto__" then object else <[key := value]> object.

(** The body of the [if (this.mapStringToIndex.length > 0)] of
    [classifyInternal]: the label of the predicted class, and the confidences
    keyed by label (a class without a label lands under the key
    "undefined"). *)
Definition label_key (map : list string) (index : Z) : string :=
  default "undefined" (array_get map index).

Definition add_labels (map : list string) (res : prediction) : prediction :=
  if (0 <? length map)%nat then
    let res1 :=
      match classIndex res with
      | Some ci =>
          (* res.classIndex || res.classIndex === 0 *)
          if negb (ci =? 0)%Z || (ci =? 0)%Z then
            match array_get map ci with
            | Some l =>
                if negb (String.eqb l "") then
                  {| classIndex := classIndex res; confidences := confidences res;
                     label := Some l; confidencesByLabel := confidencesByLabel res |}
                else res
            | None => res
            end
          else res
      | None => res
      end in
    match confidences res1 with
    | Some cs =>
        {| classIndex := classIndex res1; confidences := confidences res1;
           label := label res1;
           confidencesByLabel :=
             Some (fold_left (fun acc ic => assign_number (label_key map ic.1) ic.2 acc) cs ∅) |}
    | None => res1
    end
  else res.

Definition no_example_message : string := "There is no example in any class".

Definition classifyInternal (this : KNN) (input : tensor) (k : Q)
  : promise prediction * KNN :=
  let numClass := knn_getNumClasses (knnClassifier this) in
  if (numClass <=? 0)%nat then
    (Rejected (Error no_example_message), this)
  else
    let '(p, ds) := knn_predictClass (knnClassifier this) input k in
    (await p (fun res => Fulfilled (add_labels (mapStringToIndex this) res)),
     {| knnClassifier := ds; mapStringToIndex := mapStringToIndex this |}).

Definition classify (this : KNN) (input : knn_input) (kOrCallback cb : jsval)
  : outcome KNN prediction :=
  let '(k, callback) :=
    match kOrCallback with
    | JNumber n => (n, cb)
    | JFunction _ => (3%Q, kOrCallback)
    | _ => (3%Q, cb)
    end in
  let example := to_example input in
  let '(p, this') := classifyInternal this example k in
  let '(p', cs) := callCallback p callback in
  Outcome p' cs this'.

Definition clearLabel (this : KNN) (labelIndex : jsval) : completion unit * KNN :=
  let classIndex :=
    match labelIndex with
    | JString s =>
        if includes (mapStringToIndex this) s
        then JNumber (inject_Z (indexOf (mapStringToIndex this) s))
        else JUndefined
    | _ => labelIndex
    end in
  match knn_clearClass (knnClassifier this) classIndex with
  | Normal ds =>
      (Normal tt, {| knnClassifier := ds; mapStringToIndex := mapStringToIndex this |})
  | Throw e => (Throw e, this)
  end.

Definition clearAllLabels (this : KNN) : KNN :=
  {| knnClassifier := knn_clearAllClasses (knnClassifier this);
     mapStringToIndex := [] |}.

(** A run of [addExample] calls with string labels; a call the library
    refuses (it throws) still leaves its label in the array. *)
Definition addExamples (this : KNN) (examples : list (knn_input * string)) : KNN :=
  fold_left (fun st e => (addExample st e.1 (JString e.2)).2) examples this.

End KNN.
End KNNClassifier.

(** ** CocoSsd (src/ObjectDetector/CocoSsd/index.js) *)

Module CocoSsd.
Import JS.

Section CocoSsd.
(** The numbers of the detector are the engine's; the wrapper only divides
    them, so the number type and its division [/] are parameters. *)
Context {number : Type} (divide : number -> number -> number).

(** A prediction of the coco-ssd model: [bbox] is [[x, y, width, height]]. *)
Record DetectedObject := {
  class : string;
  score : number;
  bbox : number * number * number * number }.

Definition bbox0 (p : DetectedObject) : number := (bbox p).1.1.1.
Definition bbox1 (p : DetectedObject) : number := (bbox p).1.1.2.
Definition bbox2 (p : DetectedObject) : number := (bbox p).1.2.
Definition bbox3 (p : DetectedObject) : number := (bbox p).2.

(** The subject of a detection (a video, image, canvas or ImageData), of
    which the wrapper reads [width] and [height]. *)
Record Subject := {
  element : nat;
  width : number;
  height : number }.

(** An element of [formattedPredictions]. *)
Record Detection := {
  label : string;
  confidence : number;
  x : number;
  y : number;
  w : number;
  h : number }.

(** The imported @tensorflow-models/coco-ssd: [cocoSsd.load()] and the
    loaded model's [detect]. *)
Class CocoSsdLibrary := {
  model : Type;
  cocoSsd_load : promise model;
  model_detect : model -> Subject -> promise (list DetectedObject) }.
Context {lib : CocoSsdLibrary}.

Record CocoSsd := {
  constructorCallback : jsval;
  cocoSsdModel : option model;
  ready : promise unit }.

(** [loadModel()]: the promise it returns and the model it stores. *)
Definition loadModel : promise unit * option model :=
  match cocoSsd_load with
  | Fulfilled m => (Fulfilled tt, Some m)
  | Rejected e => (Rejected e, None)
  | Pending => (Pending, None)
  end.

(** [constructor(constructorCallback)] *)
Definition new_CocoSsd (constructorCallback : jsval)
  : CocoSsd * list (callback_call unit) :=
  let '(loaded, m) := loadModel in
  let '(ready, cs) := callCallback loaded constructorCallback in
  ({| constructorCallback := constructorCallback; cocoSsdModel := m; ready := ready |}, cs).

Definition format (subject : Subject) (prediction : DetectedObject) : Detection :=
  {| label := class prediction;
     confidence := score prediction;
     x := divide (bbox0 prediction) (width subject);
     y := divide (bbox1 prediction) (height subject);
     w := divide (bbox2 prediction) (width subject);
     h := divide (bbox3 prediction) (height subject) |}.

(** The [for] loop of [detect], run on the predictions that remain, pushing
    onto [formattedPredictions]. *)
Fixpoint format_loop (subject : Subject) (predictions : list DetectedObject)
    (formattedPredictions : list Detection) : list Detection :=
  match predictions with
  | [] => formattedPredictions
  | prediction :: rest =>
      format_loop subject rest (formattedPredictions ++ [format subject prediction])
  end.

(** [this.cocoSsdModel.detect(subject)]; there is no model to call before the
    load has succeeded. *)
Definition call_detect (this : CocoSsd) (subject : Subject) : promise (list DetectedObject) :=
  match cocoSsdModel this with
  | Some m => model_detect m subject
  | None => Rejected (TypeError "Cannot read properties of undefined (reading 'detect')")
  end.

Definition detect (this : CocoSsd) (subject : Subject) (callback : jsval)
  : outcome CocoSsd (list Detection) :=
  match ready this with
  | Fulfilled _ =>
      match call_detect this subject with
      | Fulfilled predictions =>
          let formattedPredictions := format_loop subject predictions [] in
          let '(p, cs) := callCallback (Fulfilled formattedPredictions) callback in
          Outcome p cs this
      | Rejected e => Outcome (Rejected e) [] this
      | Pending => Outcome Pending [] this
      end
  | Rejected e => Outcome (Rejected e) [] this
  | Pending => Outcome Pending [] this
  end.

End CocoSsd.
End CocoSsd.

(** ** BodyPix (the BodyPix source filed under docs/reference/unet.md) *)

Module BodyPix.
Import JS.

(** What @tensorflow-models/body-pix computes: a person segmentation and the
    image data of a mask. *)
Record PersonSegmentation := {
  data : list Z;
  width : Z;
  height : Z }.

Record MaskImageData := {
  mask_data : list Z;
  mask_width : Z;
  mask_height : Z }.

(** The imports of the file: body-pix ([bp]), [tf.nextFrame], p5Utils, the
    palette constant, and the browser's [loadeddata] event of a video:
    [loadeddata video] is the promise
    [new Promise(resolve => { video.onloadeddata = () => resolve(); })],
    which the event settles.  The handler it sets is a property of the
    video element; the fields of the object below do not record it. *)
Class BodyPixLibrary := {
  bp_model : Type;
  blob : Type;
  p5Image : Type;
  BODYPIX_PALETTE : jsval;
  bp_load : jsval -> promise bp_model;
  estimatePersonSegmentation :
    bp_model -> jsval -> jsval -> jsval -> promise PersonSegmentation;
  toMaskImageData : PersonSegmentation -> bool -> MaskImageData;
  nextFrame : promise unit;
  loadeddata : jsval -> promise unit;
  checkP5 : bool;
  rawToBlob : list Z -> Z -> Z -> promise blob;
  blobToP5Image : blob -> promise p5Image }.

Section BodyPix.
Context {lib : BodyPixLibrary}.

Record Config := {
  multiplier : jsval;
  outputStride : jsval;
  segmentationThreshold : jsval;
  palette : jsval }.

Definition DEFAULTS : Config :=
  {| multiplier := JNumber 0.75;
     outputStride := JNumber 16;
     segmentationThreshold := JNumber 0.5;
     palette := BODYPIX_PALETTE |}.

Record BodyPix := {
  video : jsval;
  model : option bp_model;
  modelReady : bool;
  modelPath : string;
  config : Config;
  ready : promise unit }.

(** [this.config] as the object it is, for the reads [segmentationOptions.x]
    when [segmentationOptions] is [this.config]. *)
Definition config_object (c : Config) : jsval :=
  JObject PlainObject
    (<["multiplier" := multiplier c]>
       (<["outputStride" := outputStride c]>
          (<["segmentationThreshold" := segmentationThreshold c]>
             (<["palette" := palette c]> ∅)))).

(** [loadModel()]: the model stored, whether it is ready, and the promise of
    [this]. *)
Definition loadModel (c : Config) : option bp_model * bool * promise unit :=
  match bp_load (multiplier c) with
  | Fulfilled m => (Some m, true, Fulfilled tt)
  | Rejected e => (None, false, Rejected e)
  | Pending => (None, false, Pending)
  end.

(** [constructor(video, options, callback)] *)
Definition new_BodyPix (video options callback : jsval)
  : completion (BodyPix * list (callback_call unit)) :=
  o_multiplier ← get_prop options "multiplier";
  o_outputStride ← get_prop options "outputStride";
  o_segmentationThreshold ← get_prop options "segmentationThreshold";
  o_palette ← get_prop options "palette";
  let config :=
    {| multiplier := js_or o_multiplier (multiplier DEFAULTS);
       outputStride := js_or o_outputStride (outputStride DEFAULTS);
       segmentationThreshold :=
         js_or o_segmentationThreshold (segmentationThreshold DEFAULTS);
       palette := js_or o_palette (palette DEFAULTS) |} in
  let '(m, isReady, loaded) := loadModel config in
  let '(ready, cs) := callCallback loaded callback in
  mret ({| video := video; model := m; modelReady := isReady; modelPath := "";
           config := config; ready := ready |}, cs).

(** A mask of the result: image data, or the p5 image made from it when p5
    is on the page. *)
Inductive Mask :=
| ImageDataMask (d : MaskImageData)
| P5ImageMask (i : p5Image).

Record SegmentResult := {
  maskBackground : Mask;
  maskPerson : Mask;
  raw : PersonSegmentation }.

Definition set_outputStride (this : BodyPix) (v : jsval) : BodyPix :=
  {| video := video this; model := model this; modelReady := modelReady this;
     modelPath := modelPath this;
     config := {| multiplier := multiplier (config this);
                  outputStride := v;
                  segmentationThreshold := segmentationThreshold (config this);
                  palette := palette (config this) |};
     ready := ready this |}.

Definition set_segmentationThreshold (this : BodyPix) (v : jsval) : BodyPix :=
  {| video := video this; model := model this; modelReady := modelReady this;
     modelPath := modelPath this;
     config := {| multiplier := multiplier (config this);
                  outputStride := outputStride (config this);
                  segmentationThreshold := v;
                  palette := palette (config this) |};
     ready := ready this |}.

(** [v === 0] *)
Definition strict_equals_zero (v : jsval) : bool :=
  match v with
  | JNumber q => Qeq_bool q 0
  | _ => false
  end.

(** [this.video && this.video.readyState === 0] *)
Definition video_not_loaded (this : BodyPix) : completion bool :=
  if truthy (video this) then
    readyState ← get_prop (video this) "readyState";
    mret (strict_equals_zero readyState)
  else mret false.

(** [this.model.estimatePersonSegmentation(...)]; [this.model] is [null]
    until the load has succeeded. *)
Definition call_estimatePersonSegmentation (this : BodyPix) (img stride threshold : jsval)
  : promise PersonSegmentation :=
  match model this with
  | Some m => estimatePersonSegmentation m img stride threshold
  | None => Rejected (TypeError "Cannot read properties of null (reading 'estimatePersonSegmentation')")
  end.

Definition segmentInternal (imgToSegment segmentationOptions : jsval)
  : async BodyPix SegmentResult :=
  this <~ this_object ;;
  awaiting (ready this) ;;;
  awaiting nextFrame ;;;
  wait <~ evaluating (video_not_loaded this) ;;
  (if wait : bool then awaiting (loadeddata (video this)) else async_return tt) ;;;
  o_outputStride <~ evaluating (get_prop segmentationOptions "outputStride") ;;
  this <~ this_object ;;
  assign (set_outputStride this (js_or o_outputStride (outputStride (config this)))) ;;;
  o_threshold <~ evaluating (get_prop segmentationOptions "segmentationThreshold") ;;
  this <~ this_object ;;
  assign (set_segmentationThreshold this
            (js_or o_threshold (segmentationThreshold (config this)))) ;;;
  this <~ this_object ;;
  segmentation <~ awaiting (call_estimatePersonSegmentation this imgToSegment
                              (outputStride (config this))
                              (segmentationThreshold (config this))) ;;
  let result_maskBackground := toMaskImageData segmentation true in
  let result_maskPerson := toMaskImageData segmentation false in
  if checkP5 then
    blob1 <~ awaiting (rawToBlob (mask_data result_maskBackground)
                         (width segmentation) (height segmentation)) ;;
    blob2 <~ awaiting (rawToBlob (mask_data result_maskPerson)
                         (width segmentation) (height segmentation)) ;;
    p5Image1 <~ awaiting (blobToP5Image blob1) ;;
    p5Image2 <~ awaiting (blobToP5Image blob2) ;;
    async_return {| maskBackground := P5ImageMask p5Image1;
                    maskPerson := P5ImageMask p5Image2;
                    raw := segmentation |}
  else
    async_return {| maskBackground := ImageDataMask result_maskBackground;
                    maskPerson := ImageDataMask result_maskPerson;
                    raw := segmentation |}.

Definition no_input_image_message : string :=
  "No input image provided. If you want to classify a video, pass the video element in the constructor. ".

(** The three tests of [segment] on a p5.js wrapper; each reads a property
    only when [typeof optionsOrCallback === 'object']. *)
Definition has_p5_image (o : jsval) : completion bool :=
  if String.eqb (typeof o) "object" then
    elt ← get_prop o "elt";
    if instanceof elt HTMLImageElement then mret true
    else
      elt ← get_prop o "elt";
      if instanceof elt HTMLCanvasElement then mret true
      else
        elt ← get_prop o "elt";
        mret (instanceof elt ImageData)
  else mret false.

Definition has_p5_canvas (o : jsval) : completion bool :=
  if String.eqb (typeof o) "object" then
    canvas ← get_prop o "canvas";
    mret (instanceof canvas HTMLCanvasElement)
  else mret false.

Definition has_p5_video (o : jsval) : completion bool :=
  if String.eqb (typeof o) "object" then
    elt ← get_prop o "elt";
    mret (instanceof elt HTMLVideoElement)
  else mret false.

(** "Handle the image to predict": the first [if ... else if] chain of
    [segment], giving [imgToSegment] and [callback], or throwing. *)
Definition image_to_segment (this : BodyPix) (optionsOrCallback : jsval)
  : completion (jsval * jsval) :=
  let imgToSegment := video this in
  let callback := JUndefined in
  if String.eqb (typeof optionsOrCallback) "function" then
    mret (video this, optionsOrCallback)
  else if instanceof optionsOrCallback HTMLImageElement
          || instanceof optionsOrCallback HTMLCanvasElement
          || instanceof optionsOrCallback HTMLVideoElement
          || instanceof optionsOrCallback ImageData then
    mret (optionsOrCallback, callback)
  else
    p5_image ← has_p5_image optionsOrCallback;
    if p5_image : bool then
      elt ← get_prop optionsOrCallback "elt"; mret (elt, callback)
    else
      p5_canvas ← has_p5_canvas optionsOrCallback;
      if p5_canvas : bool then
        canvas ← get_prop optionsOrCallback "canvas"; mret (canvas, callback)
      else
        p5_video ← has_p5_video optionsOrCallback;
        if p5_video : bool then
          elt ← get_prop optionsOrCallback "elt"; mret (elt, callback)
        else if negb (instanceof (video this) HTMLVideoElement) then
          Throw (Error no_input_image_message)
        else mret (imgToSegment, callback).

Definition segment (this : BodyPix) (optionsOrCallback configOrCallback cb : jsval)
  : outcome BodyPix SegmentResult :=
  match image_to_segment this optionsOrCallback with
  | Throw e => Outcome (Rejected e) [] this
  | Normal (imgToSegment, callback) =>
      let '(segmentationOptions, callback) :=
        if String.eqb (typeof configOrCallback) "object" then (configOrCallback, callback)
        else if String.eqb (typeof configOrCallback) "function"
             then (config_object (config this), configOrCallback)
             else (config_object (config this), callback) in
      let callback := if String.eqb (typeof cb) "function" then cb else callback in
      let '(p, this') := segmentInternal imgToSegment segmentationOptions this in
      let '(p', cs) := callCallback p callback in
      Outcome p' cs this'
  end.

End BodyPix.
End BodyPix.

(** ** The tensor library, as NeuralNetworkData and NeuralNetwork call it *)

Module TensorFlow.
Import JS.

(** A call into the imported @tensorflow/tfjs. *)
Inductive tf_call :=
| call_tidy
| call_tensor1d (values : list Z) (dtype : string)
| call_oneHot (depth : nat)
| call_arraySync
| call_fit
| call_dispose.

(** A computation of the wrapper together with the calls into the tensor
    library it made, in order. *)
Record TF (A : Type) := MkTF {
  value : A;
  tf_calls : list tf_call }.
Arguments MkTF {A} value tf_calls.
Arguments value {A} t.
Arguments tf_calls {A} t.

#[global] Instance TF_ret : MRet TF := fun A a => MkTF a [].
#[global] Instance TF_bind : MBind TF := fun A B f m =>
  let r := f (value m) in MkTF (value r) (tf_calls m ++ tf_calls r).

(** The operations of the library that the two classes use. *)
Class TensorLibrary := {
  Tensor : Type;
  LayersModel : Type;
  tensor1d : list Z -> string -> Tensor;
  oneHot : Tensor -> nat -> Tensor;
  arraySync : Tensor -> list jsval;
  fit : LayersModel -> Tensor -> Tensor -> list (string * jsval) -> promise LayersModel }.

Section Calls.
Context {tf : TensorLibrary}.

Definition tf_tensor1d (values : list Z) (dtype : string) : TF Tensor :=
  MkTF (tensor1d values dtype) [call_tensor1d values dtype].
Definition tf_oneHot (indices : Tensor) (depth : nat) : TF Tensor :=
  MkTF (oneHot indices depth) [call_oneHot depth].
Definition tensor_arraySync (t : Tensor) : TF (list jsval) :=
  MkTF (arraySync t) [call_arraySync].
Definition tensor_dispose (t : Tensor) : TF unit := MkTF tt [call_dispose].
Definition model_fit (m : LayersModel) (xs ys : Tensor) (args : list (string * jsval))
  : TF (promise LayersModel) :=
  MkTF (fit m xs ys args) [call_fit].
(** [tf.tidy(fn)] runs [fn] and frees its intermediate tensors. *)
Definition tf_tidy {A} (fn : TF A) : TF A :=
  MkTF (value fn) (call_tidy :: tf_calls fn).

End Calls.
End TensorFlow.

(** ** NeuralNetworkData (the second unnamed source file) *)

Module NeuralNetworkData.
Import JS TensorFlow.

(** The result of [Math.min] and [Math.max]: a number, an infinity (on an
    empty argument list) or NaN (when an argument is no number). *)
Inductive extended :=
| Finite (q : Q)
| PositiveInfinity
| NegativeInfinity
| NaN.

(** The engine's conversions of a value to a property key and of a string or
    an object to a number. *)
Class Engine := {
  ToString : jsval -> string;
  ToNumber_of_string_or_object : jsval -> extended }.

Section NeuralNetworkData.
Context {tf : TensorLibrary} {engine : Engine}.
Local Open Scope Q_scope.

Definition normalizeValue (value min max : Q) : Q :=
  (value - min) / (max - min).

Definition unNormalizeValue (value min max : Q) : Q :=
  (value * (max - min)) + min.

(** [_options] of [normalizeArray]: [{min, max, legend}]. *)
Record NormalizeOptions := {
  min : Q;
  max : Q;
  legend : option (gmap string jsval) }.

Definition is_number (v : jsval) : bool :=
  match v with
  | JNumber _ => true
  | _ => false
  end.

(** The key of [object[v]]. *)
Definition property_key (v : jsval) : string :=
  match v with
  | JString s => s
  | _ => ToString v
  end.

Definition normalizeArray (_input : list jsval) (_options : NormalizeOptions)
  : TF (list jsval) :=
  let inputArray := _input in
  if negb (forallb is_number _input) then
    match legend _options with
    | Some lg =>
        mret (map (fun v =>
                     match lg !! property_key v with
                     | Some e => if truthy e then e else v
                     | None => v
                     end) inputArray)
    | None => mret inputArray
    end
  else
    mret (map (fun v =>
                 match v with
                 | JNumber n => JNumber (normalizeValue n (min _options) (max _options))
                 | _ => v
                 end) inputArray).

(** ToNumber, which [Math.min] and [Math.max] apply to each argument. *)
Definition ToNumber (v : jsval) : extended :=
  match v with
  | JNumber n => Finite n
  | JUndefined => NaN
  | JNull => Finite 0
  | JBoolean b => Finite (if b then 1 else 0)
  | _ => ToNumber_of_string_or_object v
  end.

Definition smaller (a b : extended) : extended :=
  match a, b with
  | NaN, _ | _, NaN => NaN
  | NegativeInfinity, _ | _, NegativeInfinity => NegativeInfinity
  | PositiveInfinity, c | c, PositiveInfinity => c
  | Finite p, Finite q => if Qle_bool p q then Finite p else Finite q
  end.

Definition larger (a b : extended) : extended :=
  match a, b with
  | NaN, _ | _, NaN => NaN
  | PositiveInfinity, _ | _, PositiveInfinity => PositiveInfinity
  | NegativeInfinity, c | c, NegativeInfinity => c
  | Finite p, Finite q => if Qle_bool p q then Finite q else Finite p
  end.

(** [Math.min(..._array)] and [Math.max(..._array)] *)
Definition getMin (_array : list jsval) : extended :=
  fold_left (fun acc v => smaller acc (ToNumber v)) _array PositiveInfinity.

Definition getMax (_array : list jsval) : extended :=
  fold_left (fun acc v => larger acc (ToNumber v)) _array NegativeInfinity.

(** A row of [data.raw]: [{xs: {...}, ys: {...}}]. *)
Record Row := {
  xs : gmap string jsval;
  ys : gmap string jsval }.

Inductive XsOrYs := Xs | Ys.

Definition row_get (item : Row) (xsOrYs : XsOrYs) (label : string) : jsval :=
  default JUndefined ((match xsOrYs with Xs => xs item | Ys => ys item end) !! label).

Definition arrayFromLabel (dataRaw : list Row) (xsOrYs : XsOrYs) (label : string)
  : list jsval :=
  map (fun item => row_get item xsOrYs label) dataRaw.

(** [Array.prototype.flat()], one level deep. *)
Definition flat (l : list jsval) : list jsval :=
  flat_map (fun v => match v with JArray items => items | _ => [v] end) l.

(** What the meta data hold about one input or output property. *)
Record Meta := {
  dtype : string;
  meta_min : option extended;
  meta_max : option extended;
  meta_legend : option (gmap string jsval);
  uniqueValues : option (list jsval) }.

Definition set_min_max (m : Meta) (lo hi : extended) : Meta :=
  {| dtype := dtype m; meta_min := Some lo; meta_max := Some hi;
     meta_legend := meta_legend m; uniqueValues := uniqueValues m |}.

Definition getRawStats (dataRaw : list Row) (inputOrOutputMeta : gmap string Meta)
    (xsOrYs : XsOrYs) : TF (gmap string Meta) :=
  let meta := inputOrOutputMeta in
  mret (map_imap (fun k m =>
    let dataAsArray := arrayFromLabel dataRaw xsOrYs k in
    if String.eqb (dtype m) "object" then
      let tempArr := flat (map (fun item => row_get item xsOrYs k) dataRaw) in
      Some (set_min_max m (getMin tempArr) (getMax tempArr))
    else if negb (String.eqb (dtype m) "number") then
      Some (set_min_max m (Finite 0) (Finite 1))
    else
      Some (set_min_max m (getMin dataAsArray) (getMax dataAsArray))) meta).

(** The object [createOneHotEncodings] returns. *)
Record OneHotEncodings := {
  encoded_uniqueValues : list jsval;
  encoded_legend : gmap string jsval }.

Definition createOneHotEncodings (_uniqueValuesArray : list jsval) : TF OneHotEncodings :=
  tf_tidy (
    let uniqueVals := _uniqueValuesArray in
    let onehotValues := imap (fun idx _ => Z.of_nat idx) uniqueVals in
    indices ← tf_tensor1d onehotValues "int32";
    oneHotEncodedValues ← tf_oneHot indices (length uniqueVals);
    oneHotEncodedValuesArray ← tensor_arraySync oneHotEncodedValues;
    mret {| encoded_uniqueValues := _uniqueValuesArray;
            encoded_legend :=
              fold_left (fun lg '(uIdx, uVal) =>
                           <[property_key uVal :=
                               default JUndefined (oneHotEncodedValuesArray !! uIdx)]> lg)
                        (imap (fun idx v => (idx, v)) uniqueVals) ∅ |}).

End NeuralNetworkData.
End NeuralNetworkData.

(** ** NeuralNetwork (the first unnamed source file) *)

Module NeuralNetwork.
Import JS TensorFlow.

Section NeuralNetwork.
Context {tf : TensorLibrary}.
Local Open Scope Q_scope.

Record NeuralNetwork := {
  config : jsval;
  isTrained : bool;
  isCompiled : bool;
  isLayered : bool;
  model : LayersModel }.

(** [_options] of [train]: the two tensors and the training parameters. *)
Record TrainingOptions := {
  inputs : Tensor;
  outputs : Tensor;
  batchSize : jsval;
  epochs : jsval;
  shuffle : jsval;
  validationSplit : jsval;
  whileTraining : jsval }.

Definition unNormalizeValue (value min max : Q) : Q :=
  (value * (max - min)) + min.

Definition trainInternal (this : NeuralNetwork) (_options : TrainingOptions)
  : TF (promise unit * NeuralNetwork) :=
  let TRAINING_OPTIONS := _options in
  let xs := inputs TRAINING_OPTIONS in
  let ys := outputs TRAINING_OPTIONS in
  fitted ← model_fit (model this) xs ys
             [("batchSize", batchSize TRAINING_OPTIONS);
              ("epochs", epochs TRAINING_OPTIONS);
              ("shuffle", shuffle TRAINING_OPTIONS);
              ("validationSplit", validationSplit TRAINING_OPTIONS);
              ("callbacks", JArray [JObject PlainObject
                                      {["onEpochEnd" := whileTraining TRAINING_OPTIONS]}])];
  match fitted with
  | Fulfilled m =>
      tensor_dispose xs;;
      tensor_dispose ys;;
      mret (Fulfilled tt,
            {| config := config this; isTrained := true; isCompiled := isCompiled this;
               isLayered := isLayered this; model := m |})
  | Rejected e => mret (Rejected e, this)
  | Pending => mret (Pending, this)
  end.

Definition train (this : NeuralNetwork) (_options : TrainingOptions) (_cb : jsval)
  : TF (outcome NeuralNetwork unit) :=
  '(p, this') ← trainInternal this _options;
  let '(p', cs) := callCallback p _cb in
  mret (Outcome p' cs this').

End NeuralNetwork.
End NeuralNetwork.

(** ** Implementations of the library interfaces

    Small executable implementations of the interfaces above, on which the
    wrappers run on concrete inputs. *)

Module Reference.
Import JS.

(** *** A brute-force k-nearest-neighbour classifier *)

Record stored_example := {
  example_class : option Z;
  example_vector : list Q }.

(** The class an example is filed under: an integer index, or the class
    "undefined" ([None]) for any other value. *)
Definition class_of (v : jsval) : option Z :=
  match v with
  | JNumber q => Some (Qfloor q)
  | _ => None
  end.

Definition squared_distance (a b : list Q) : Q :=
  fold_left Qplus (zip_with (fun x y => (x - y) * (x - y))%Q a b) 0%Q.

(** Insertion in order of distance; of two examples at the same distance the
    one stored first stays first. *)
Fixpoint insert_by_distance (e : Q * option Z) (l : list (Q * option Z))
  : list (Q * option Z) :=
  match l with
  | [] => [e]
  | x :: r =>
      if Qle_bool e.1 x.1 then e :: x :: r else x :: insert_by_distance e r
  end.

Definition nearest (k : nat) (ds : list stored_example) (query : list Q)
  : list (option Z) :=
  map snd (take k (foldr insert_by_distance []
                     (map (fun e => (squared_distance (example_vector e) query,
                                     example_class e)) ds))).

(** The same selection with the examples kept whole, for examples filed
    under whole-number classes: the [k] at the least distance of the query. *)
Definition distance_to (query example : list Q) : Q :=
  squared_distance example query.

Fixpoint insert_example (query : list Q) (e : Z * list Q) (l : list (Z * list Q))
  : list (Z * list Q) :=
  match l with
  | [] => [e]
  | x :: r =>
      if Qle_bool (distance_to query e.2) (distance_to query x.2)
      then e :: x :: r else x :: insert_example query e r
  end.

Definition closest_examples (examples : list (Z * list Q)) (query : list Q) (k : Z)
  : list (Z * list Q) :=
  take (Z.to_nat k) (foldr (insert_example query) [] examples).

Definition stored_as (e : Z * list Q) : stored_example :=
  {| example_class := Some e.1; example_vector := e.2 |}.

Definition classes_of (ds : list stored_example) : list (option Z) :=
  remove_dups (map example_class ds).

Definition votes (c : option Z) (neighbours : list (option Z)) : nat :=
  length (List.filter (fun d => bool_decide (d = c)) neighbours).

(** The class with the most votes; the earlier class wins a tie. *)
Definition majority (classes neighbours : list (option Z)) : option Z :=
  (fold_left (fun best c =>
                if (best.2 <? votes c neighbours)%nat then (c, votes c neighbours) else best)
             classes (None, 0%nat)).1.

Definition reference_predictClass (ds : list stored_example) (query : list Q) (k : Q)
  : promise KNNClassifier.prediction * list stored_example :=
  if Qle_bool 1 k then
    let neighbours := nearest (Z.to_nat (Qfloor k)) ds query in
    (Fulfilled
       {| KNNClassifier.classIndex := majority (classes_of ds) neighbours;
          KNNClassifier.confidences :=
            Some (omap (fun c => match c with
                                 | Some i => Some (i, (inject_Z (Z.of_nat (votes c neighbours)) / k)%Q)
                                 | None => None
                                 end) (classes_of ds));
          KNNClassifier.label := None;
          KNNClassifier.confidencesByLabel := None |}, ds)
  else (Rejected (Error "Please provide a positive integer k value to predictClass."), ds).

#[global] Instance reference_knn : KNNClassifier.KnnLibrary := {|
  KNNClassifier.tensor := list Q;
  KNNClassifier.dataset := list stored_example;
  KNNClassifier.tf_tensor := fun a => a;
  KNNClassifier.knn_create := [];
  KNNClassifier.knn_addExample := fun ds t c =>
    Normal (ds ++ [{| example_class := class_of c; example_vector := t |}]);
  KNNClassifier.knn_getNumClasses := fun ds => length (classes_of ds);
  KNNClassifier.knn_predictClass := reference_predictClass;
  KNNClassifier.knn_clearClass := fun ds c =>
    Normal (List.filter (fun e => negb (bool_decide (example_class e = class_of c))) ds);
  KNNClassifier.knn_clearAllClasses := fun _ => [] |}.

(** *** A detector that always sees the same two objects *)

Definition two_objects : list (@CocoSsd.DetectedObject Q) :=
  [ {| CocoSsd.class := "person"; CocoSsd.score := 0.9%Q;
       CocoSsd.bbox := (64, 48, 320, 240)%Q |};
    {| CocoSsd.class := "dog"; CocoSsd.score := 0.5%Q;
       CocoSsd.bbox := (0, 120, 160, 120)%Q |} ].

#[global] Instance reference_cocoSsd : @CocoSsd.CocoSsdLibrary Q := {|
  CocoSsd.model := unit;
  CocoSsd.cocoSsd_load := Fulfilled tt;
  CocoSsd.model_detect := fun _ _ => Fulfilled two_objects |}.

(** *** A body-pix that finds the person on the diagonal of a 2x2 image, on a
    page with p5 *)

Definition diagonal : BodyPix.PersonSegmentation :=
  {| BodyPix.data := [1; 0; 0; 1]%Z; BodyPix.width := 2; BodyPix.height := 2 |}.

#[global] Instance reference_bodyPix : BodyPix.BodyPixLibrary := {|
  BodyPix.bp_model := unit;
  BodyPix.blob := list Z;
  BodyPix.p5Image := list Z;
  BodyPix.BODYPIX_PALETTE := JObject PlainObject ∅;
  BodyPix.bp_load := fun _ => Fulfilled tt;
  BodyPix.estimatePersonSegmentation := fun _ _ _ _ => Fulfilled diagonal;
  BodyPix.toMaskImageData := fun seg maskBackground =>
    {| BodyPix.mask_data :=
         flat_map (fun b => [0; 0; 0; 255 * (if maskBackground : bool then 1 - b else b)]%Z)
                  (BodyPix.data seg);
       BodyPix.mask_width := BodyPix.width seg;
       BodyPix.mask_height := BodyPix.height seg |};
  BodyPix.nextFrame := Fulfilled tt;
  BodyPix.loadeddata := fun _ => Fulfilled tt;
  BodyPix.checkP5 := true;
  BodyPix.rawToBlob := fun d _ _ => Fulfilled d;
  BodyPix.blobToP5Image := fun b => Fulfilled b |}.

(** *** A tensor library with the textbook one-hot encoding *)

Definition one_hot_row (depth : nat) (i : Z) : jsval :=
  JArray (map (fun j => JNumber (if (Z.of_nat j =? i)%Z then 1 else 0)%Q) (seq 0 depth)).

#[global] Instance reference_tf : TensorFlow.TensorLibrary := {|
  TensorFlow.Tensor := list jsval;
  TensorFlow.LayersModel := nat;
  TensorFlow.tensor1d := fun values _ => map (fun i => JNumber (inject_Z i)) values;
  TensorFlow.oneHot := fun indices depth =>
    map (fun v => match v with
                  | JNumber q => one_hot_row depth (Qfloor q)
                  | _ => v
                  end) indices;
  TensorFlow.arraySync := fun t => t;
  TensorFlow.fit := fun m _ _ _ => Fulfilled (S m) |}.

#[global] Instance reference_engine : NeuralNetworkData.Engine := {|
  NeuralNetworkData.ToString := fun _ => "[object Object]";
  NeuralNetworkData.ToNumber_of_string_or_object := fun _ => NeuralNetworkData.NaN |}.

End Reference.

(** ** Notions the statements below are written with *)

Module Spec.
Import JS.

Section Callbacks.

(** The invocation that [callCallback] makes of [callback] for a promise in
    state [p]: none unless [callback] is a function and [p] has settled. *)
Definition notify {A} (callback : jsval) (p : promise A) : list (callback_call A) :=
  match callback, p with
  | JFunction f, Fulfilled r => [CallbackCall f None (Some r)]
  | JFunction f, Rejected e => [CallbackCall f (Some e) None]
  | _, _ => []
  end.

(** The callback [f] was invoked with the outcome of the operation: with
    the result the promise is fulfilled with, or with the error it is
    rejected with. *)
Definition callback_invoked_with_outcome {S A} (f : nat) (o : outcome S A) : Prop :=
  match returned o with
  | Fulfilled r => CallbackCall f None (Some r) ∈ calls o
  | Rejected e => CallbackCall f (Some e) None ∈ calls o
  | Pending => True
  end.

End Callbacks.

Section KNN.
Import KNNClassifier.
Context {lib : KnnLibrary}.

(** The label array after a run of string labels, started from [m]. *)
Definition labels_after (m : list string) (labels : list string) : list string :=
  fold_left (fun m s => (resolveClassIndex m (JString s)).2) labels m.

(** The examples a classifier holds: those its [addExample] has accepted
    since [knnClassifier.create()], each with the whole-number class it was
    added under, the oldest first. *)
Inductive holds : dataset -> list (Z * tensor) -> Prop :=
| holds_create : holds knn_create []
| holds_addExample (ds : dataset) (examples : list (Z * tensor))
    (example : tensor) (class : Z) (ds' : dataset) :
    holds ds examples ->
    knn_addExample ds example (JNumber (inject_Z class)) = Normal ds' ->
    holds ds' (examples ++ [(class, example)]).

(** The votes of a class among some examples: how many of them it holds. *)
Definition votes (class : Z) (examples : list (Z * tensor)) : nat :=
  length (List.filter (fun e => (e.1 =? class)%Z) examples).

(** How [addExample] files an example with a string label: under the index
    of the label in the label array. *)
Definition filed (map : list string) (e : knn_input * string) : Z * tensor :=
  (indexOf map e.2, to_example e.1).

(** The votes of a label: the votes of its index. *)
Definition votes_of_label (map : list string) (l : string)
    (examples : list (Z * tensor)) : nat :=
  votes (indexOf map l) examples.

(** [confidences[index]] *)
Definition confidence_of (confidences : list (Z * Q)) (index : Z) : option Q :=
  (list_to_map confidences : gmap Z Q) !! index.

(** The external classifier as the specification describes it, a
    k-nearest-neighbour vote.  Its measure of distance and its choice of
    neighbours are its own: [closest examples query k] are [k] of the
    examples (all of them when there are fewer), none farther from the
    query than an example left out; on a classifier that holds
    a class, for a whole number [k] of at least 1, the class index
    [predictClass] answers with has the most votes among them, and its
    confidences are keyed by classes that hold an example, each once. *)
Class MajorityVote (distance : tensor -> tensor -> Q)
    (closest : list (Z * tensor) -> tensor -> Z -> list (Z * tensor)) : Prop := {
  closest_nearest : forall examples query k,
    (1 <= k)%Z ->
    exists rest,
      examples ≡ₚ closest examples query k ++ rest
      /\ length (closest examples query k) = Nat.min (Z.to_nat k) (length examples)
      /\ forall near far, near ∈ closest examples query k -> far ∈ rest ->
           (distance query near.2 <= distance query far.2)%Q;
  predictClass_votes : forall ds examples query k res ds',
    holds ds examples ->
    knn_getNumClasses ds <> 0%nat ->
    (1 <= k)%Z ->
    knn_predictClass ds query (inject_Z k) = (Fulfilled res, ds') ->
    exists winner,
      classIndex res = Some winner
      /\ (0 < votes winner (closest examples query k))%nat
      /\ forall class, (votes class (closest examples query k)
                        <= votes winner (closest examples query k))%nat;
  predictClass_confidences : forall ds examples query k res ds',
    holds ds examples ->
    knn_getNumClasses ds <> 0%nat ->
    (1 <= k)%Z ->
    knn_predictClass ds query (inject_Z k) = (Fulfilled res, ds') ->
    exists cs,
      confidences res = Some cs
      /\ NoDup cs.*1
      /\ forall index, index ∈ cs.*1 -> index ∈ examples.*1 }.

End KNN.

Section KNN_examples.
Import KNNClassifier Reference.

(** Three cats near the origin and two dogs near (10, 10). *)
Definition cats_and_dogs : KNN :=
  addExamples new_KNN
    [(InputArray [0; 0]%Q, "cat"); (InputArray [0; 1]%Q, "cat");
     (InputArray [10; 10]%Q, "dog"); (InputArray [1; 0]%Q, "cat");
     (InputArray [9; 10]%Q, "dog")].

(** What the brute-force classifier answers for the query (9, 9) and k = 3:
    two of the three nearest examples are dogs. *)
Definition two_dogs_of_three : prediction :=
  {| classIndex := Some 1%Z;
     confidences := Some [(0%Z, 1 # 3); (1%Z, 2 # 3)];
     label := None;
     confidencesByLabel := None |}.

End KNN_examples.

Section CocoSsd_examples.
Import CocoSsd.

Definition webcam : @Subject Q := {| element := 0; width := 640%Q; height := 480%Q |}.

End CocoSsd_examples.

Section BodyPix.
Import BodyPix.
Context {lib : BodyPixLibrary}.

(** The configuration the specification describes: each default replaced by
    the value the options object holds under that name, when it holds one. *)
Definition overridden_defaults (props : gmap string jsval) : Config :=
  {| multiplier := default (multiplier DEFAULTS) (props !! "multiplier");
     outputStride := default (outputStride DEFAULTS) (props !! "outputStride");
     segmentationThreshold :=
       default (segmentationThreshold DEFAULTS) (props !! "segmentationThreshold");
     palette := default (palette DEFAULTS) (props !! "palette") |}.

(** What [options.name || fallback] gives for an options object. *)
Definition truthy_or (props : gmap string jsval) (name : string) (fallback : jsval)
  : jsval :=
  match props !! name with
  | Some v => if truthy v then v else fallback
  | None => fallback
  end.

(** The first argument of [segment] is itself an image source. *)
Definition is_image_source (o : jsval) : bool :=
  instanceof o HTMLImageElement || instanceof o HTMLCanvasElement
  || instanceof o HTMLVideoElement || instanceof o ImageData.

(** The element a p5.js wrapper contributes: its [elt] when that is an
    image, a canvas or image data, else its [canvas], else its [elt] when
    that is a video. *)
Definition wrapped_element (o : jsval) : option jsval :=
  match o with
  | JObject _ props =>
      let elt := default JUndefined (props !! "elt") in
      let canvas := default JUndefined (props !! "canvas") in
      if instanceof elt HTMLImageElement || instanceof elt HTMLCanvasElement
         || instanceof elt ImageData then Some elt
      else if instanceof canvas HTMLCanvasElement then Some canvas
      else if instanceof elt HTMLVideoElement then Some elt
      else None
  | _ => None
  end.

(** The callback [segment] settles on: the last function among its
    arguments. *)
Definition segment_callback (optionsOrCallback configOrCallback cb : jsval) : jsval :=
  if String.eqb (typeof cb) "function" then cb
  else if String.eqb (typeof configOrCallback) "function" then configOrCallback
  else if String.eqb (typeof optionsOrCallback) "function" then optionsOrCallback
  else JUndefined.

(** The options [segmentInternal] reads: the second argument when it is an
    object, else [this.config]. *)
Definition segment_options (this : BodyPix) (configOrCallback : jsval) : jsval :=
  if String.eqb (typeof configOrCallback) "object" then configOrCallback
  else config_object (config this).

(** The object after the two assignments to [this.config]. *)
Definition with_options (this : BodyPix) (o_outputStride o_threshold : jsval) : BodyPix :=
  set_segmentationThreshold
    (set_outputStride this (js_or o_outputStride (outputStride (config this))))
    (js_or o_threshold (segmentationThreshold (config this))).

(** The result object built from a segmentation, after the conversions to
    p5 images when p5 is on the page. *)
Definition result_of (segmentation : PersonSegmentation) : promise SegmentResult :=
  if checkP5 then
    await (rawToBlob (mask_data (toMaskImageData segmentation true))
             (width segmentation) (height segmentation)) (fun blob1 =>
    await (rawToBlob (mask_data (toMaskImageData segmentation false))
             (width segmentation) (height segmentation)) (fun blob2 =>
    await (blobToP5Image blob1) (fun p5Image1 =>
    await (blobToP5Image blob2) (fun p5Image2 =>
    Fulfilled {| maskBackground := P5ImageMask p5Image1;
                 maskPerson := P5ImageMask p5Image2;
                 raw := segmentation |}))))
  else
    Fulfilled {| maskBackground := ImageDataMask (toMaskImageData segmentation true);
                 maskPerson := ImageDataMask (toMaskImageData segmentation false);
                 raw := segmentation |}.

End BodyPix.

Section BodyPix_examples.
Import BodyPix Reference.

(** [new BodyPix(undefined, {}, undefined)] once its model has loaded. *)
Definition bodyPix_without_video : BodyPix :=
  {| video := JUndefined; model := Some tt; modelReady := true; modelPath := "";
     config := DEFAULTS; ready := Fulfilled tt |}.

(** An image element of the page. *)
Definition photo : jsval := JObject HTMLImageElement ∅.

End BodyPix_examples.

Section Numeric_work.
Import TensorFlow NeuralNetworkData.
Context {tf : TensorLibrary} {engine : Engine}.

(** A computation is handled by the tensor library when it calls into it. *)
Definition handled_by_tensor_library {A} (computation : TF A) : Prop :=
  tf_calls computation <> [].

(** The rows of the one-hot tensor the library makes for the unique values. *)
Definition one_hot_rows (uniqueVals : list jsval) : list jsval :=
  arraySync (oneHot (tensor1d (imap (fun idx _ => Z.of_nat idx) uniqueVals) "int32")
               (length uniqueVals)).

End Numeric_work.

End Spec.

(** ** KNNClassifier: the example counts *)

Module KNNCounts.
Import JS KNNClassifier.

(** [knnClassifier.getClassExampleCount()]: the number of stored examples
    of each class index that holds one. *)
Class KnnCountLibrary (lib : KnnLibrary) := {
  knn_getClassExampleCount : dataset -> gmap Z nat }.

Section Counts.
Context {lib : KnnLibrary} {counting : KnnCountLibrary lib}.

(** [Object.keys] of an object keyed by class index: array indices are
    enumerated in ascending order. *)
Definition index_keys (countByIndex : gmap Z nat) : list Z :=
  merge_sort Z.le (map fst (map_to_list countByIndex)).

Definition getCountByLabel (this : KNN) : gmap Z nat + gmap string nat :=
  let countByIndex := knn_getClassExampleCount (knnClassifier this) in
  if (0 <? length (mapStringToIndex this))%nat then
    inr (fold_left
           (fun countByLabel key =>
              match array_get (mapStringToIndex this) key with
              | Some label =>
                  if negb (String.eqb label "")
                  then assign_number label (default 0%nat (countByIndex !! key)) countByLabel
                  else countByLabel
              | None => countByLabel
              end)
           (index_keys countByIndex) ∅)
  else inl countByIndex.

Definition getCount (this : KNN) : gmap Z nat :=
  knn_getClassExampleCount (knnClassifier this).

(** Statement notions: the label a class index is counted under (the empty
    label is falsy and skipped; the assignment under [__proto__] makes no
    property), and the step of the loop of [getCountByLabel]. *)
Definition counted_label (map : list string) (key : Z) : option string :=
  match array_get map key with
  | Some label =>
      if negb (String.eqb label "") && negb (String.eqb label "__proto__")
      then Some label else None
  | None => None
  end.

Definition count_step (map : list string) (countByIndex : gmap Z nat)
    (countByLabel : gmap string nat) (key : Z) : gmap string nat :=
  match array_get map key with
  | Some label =>
      if negb (String.eqb label "")
      then assign_number label (default 0%nat (countByIndex !! key)) countByLabel
      else countByLabel
  | None => countByLabel
  end.

End Counts.
End KNNCounts.

(** ** BodyPix: the function [bodyPix] that the file exports *)

Module BodyPixFactory.
Import JS BodyPix.

Section Factory.
Context {lib : BodyPixLibrary}.

(** What [bodyPix(...)] hands back: the instance when a callback was given,
    else the promise [instance.ready]. *)
Record Made := {
  instance : BodyPix;
  constructor_calls : list (callback_call unit);
  returns_instance : bool }.

(** The first [if ... else if] chain of [bodyPix]: the video, the options
    and the callback after looking at the first argument. *)
Definition first_argument (videoOrOptionsOrCallback cb : jsval)
  : completion (jsval * jsval * jsval) :=
  let video := JUndefined in
  let options := JObject PlainObject ∅ in
  let callback := cb in
  if instanceof videoOrOptionsOrCallback HTMLVideoElement then
    mret (videoOrOptionsOrCallback, options, callback)
  else if String.eqb (typeof videoOrOptionsOrCallback) "object" then
    elt ← get_prop videoOrOptionsOrCallback "elt";
    if instanceof elt HTMLVideoElement then
      elt ← get_prop videoOrOptionsOrCallback "elt";
      mret (elt, options, callback)
    else mret (video, videoOrOptionsOrCallback, callback)
  else if String.eqb (typeof videoOrOptionsOrCallback) "function" then
    mret (video, options, videoOrOptionsOrCallback)
  else mret (video, options, callback).

Definition bodyPix (videoOrOptionsOrCallback optionsOrCallback cb : jsval)
  : completion Made :=
  '(video, options, callback) ← first_argument videoOrOptionsOrCallback cb;
  let '(options, callback) :=
    if String.eqb (typeof optionsOrCallback) "object" then (optionsOrCallback, callback)
    else if String.eqb (typeof optionsOrCallback) "function" then (options, optionsOrCallback)
    else (options, callback) in
  '(instance, cs) ← new_BodyPix video options callback;
  mret {| instance := instance; constructor_calls := cs;
          returns_instance := truthy callback |}.

(** The video element the first argument of [bodyPix] stands for: itself,
    or the [elt] of a p5.js wrapper, when that is a video element. *)
Definition video_of (v : jsval) : jsval :=
  if instanceof v HTMLVideoElement then v
  else match v with
       | JObject _ props =>
           if instanceof (default JUndefined (props !! "elt")) HTMLVideoElement
           then default JUndefined (props !! "elt")
           else JUndefined
       | _ => JUndefined
       end.

(** The options object [bodyPix] settles on: the second argument when it is
    an object, else the first when it is an object that stands for no
    video, else the empty object. *)
Definition options_of (v o : jsval) : jsval :=
  if String.eqb (typeof o) "object" then o
  else if String.eqb (typeof v) "object" && negb (truthy (video_of v)) then v
  else JObject PlainObject ∅.

(** The callback [bodyPix] settles on: the second argument when it is a
    function, else the first when it is one, else the third. *)
Definition callback_of (v o cb : jsval) : jsval :=
  if String.eqb (typeof o) "function" then o
  else if String.eqb (typeof v) "function" then v
  else cb.

End Factory.
End BodyPixFactory.

(** ** NeuralNetworkData: reading and formatting data (the second unnamed
    source file, continued) *)

Module NeuralNetworkDataFormats.
Import JS TensorFlow NeuralNetworkData.

(** [s.split(sep)] for a separator of one character: the pieces of [s]
    between the occurrences of [sep]; there is always at least one piece. *)
Fixpoint split (sep : ascii) (s : string) : list string :=
  match s with
  | EmptyString => [EmptyString]
  | String c rest =>
      if Ascii.eqb c sep then EmptyString :: split sep rest
      else match split sep rest with
           | piece :: pieces => String c piece :: pieces
           | [] => [String c EmptyString]
           end
  end.

(** [object[key] = value] on a plain object: an own property is created or
    overwritten, except under the key [__proto__], which names the prototype
    and never an own property (its setter ignores a primitive value). *)
Definition assign_property (key : string) (value : jsval) (object : gmap string jsval)
  : gmap string jsval :=
  if String.eqb key "__proto__" then object else <[key := value]> object.

Definition line_feed : ascii := "010"%char.

Definition csvToJSON (csv : string) : completion jsval :=
  let lines := split line_feed csv in
  match lines with
  | [] => Throw (TypeError "Cannot read properties of undefined (reading 'split')")
  | line0 :: following =>
      let headers := split "," line0 in
      let result :=
        map (fun line =>
               let currentline := split "," line in
               JObject PlainObject
                 (fold_left (fun row '(idx, k) =>
                               assign_property k
                                 (default JUndefined (JString <$> currentline !! idx)) row)
                            (imap (fun idx k => (idx, k)) headers) ∅))
            following in
      Normal (JObject PlainObject {["entries" := JArray result]})
  end.

(** Statement notions: a table written out as comma-separated text, and a
    cell that holds neither a comma nor a line feed. *)
Fixpoint occurs (c : ascii) (s : string) : bool :=
  match s with
  | EmptyString => false
  | String d rest => Ascii.eqb d c || occurs c rest
  end.

Definition plain_cell (s : string) : Prop :=
  occurs "," s = false /\ occurs line_feed s = false.

Definition csv_text (table : list (list string)) : string :=
  String.concat (String line_feed EmptyString) (map (String.concat ",") table).

(** The rows of [{entries: rows}]. *)
Definition entries_of (json : completion jsval) : option (list jsval) :=
  match json with
  | Normal (JObject PlainObject props) =>
      match props !! "entries" with
      | Some (JArray rows) => Some rows
      | _ => None
      end
  | _ => None
  end.

Definition is_undefined (v : jsval) : bool :=
  match v with
  | JUndefined => true
  | _ => false
  end.

Definition is_null (v : jsval) : bool :=
  match v with
  | JNull => true
  | _ => false
  end.

(** [v[idx]] for an index: an element of an array, a character of a string
    (its bytes stand for its characters), the property of an object that the
    index names, and a TypeError on undefined and null. *)
Definition get_index (v : jsval) (idx : nat) : completion jsval :=
  match v with
  | JUndefined =>
      Throw (TypeError ("Cannot read properties of undefined (reading '" ++ pretty idx ++ "')"))
  | JNull =>
      Throw (TypeError ("Cannot read properties of null (reading '" ++ pretty idx ++ "')"))
  | JArray items => Normal (default JUndefined (items !! idx))
  | JString s =>
      Normal (match String.get idx s with
              | Some c => JString (String c EmptyString)
              | None => JUndefined
              end)
  | JObject _ props => Normal (default JUndefined (props !! pretty idx))
  | _ => Normal JUndefined
  end.

Section Formats.
Context {engine : Engine}.

Definition createLabelsFromArrayValues (incoming : jsval) (prefix : string) : jsval :=
  match incoming with
  | JArray items => JArray (imap (fun idx _ => JString (prefix ++ "_" ++ pretty idx)) items)
  | _ => JUndefined
  end.

Definition formatIncomingData (incoming labels : jsval) : completion jsval :=
  match incoming with
  | JArray items =>
      result ← fold_left (fun result '(idx, item) =>
                            result ← result;
                            label ← get_index labels idx;
                            mret (assign_property (property_key label) item result))
                         (imap (fun idx item => (idx, item)) items) (Normal ∅);
      mret (JObject PlainObject result)
  | _ =>
      if String.eqb (typeof incoming) "object" then Normal incoming
      else Throw (Error "input provided is not supported or does not match your output label specifications")
  end.

(** A row of [data.raw] as [addData] pushes it: [{xs: inputs, ys: outputs}]. *)
Record RawRow := {
  row_xs : jsval;
  row_ys : jsval }.

(** [addData], on the array [this.data.raw]. *)
Definition addData (data_raw : list RawRow) (xInputs yInputs options : jsval)
  : completion (list RawRow) :=
  '(inputLabels, outputLabels) ←
    (if truthy options && negb (is_null options) then
       inputLabels ← get_prop options "inputLabels";
       outputLabels ← get_prop options "outputLabels";
       mret (inputLabels, outputLabels)
     else
       mret (createLabelsFromArrayValues xInputs "input",
             createLabelsFromArrayValues yInputs "output"));
  inputs ← formatIncomingData xInputs inputLabels;
  outputs ← formatIncomingData yInputs outputLabels;
  mret (data_raw ++ [{| row_xs := inputs; row_ys := outputs |}]).

End Formats.

(** The engine lists the own properties of an object in the order of their
    creation, which the map of an object does not hold: [own_keys] is the
    order in which [Object.keys] and [Object.entries] list them. *)
Class PropertyOrder := {
  own_keys : forall {A : Type}, gmap string A -> list string;
  own_keys_NoDup : forall {A : Type} (props : gmap string A), NoDup (own_keys props);
  own_keys_elem_of : forall {A : Type} (props : gmap string A) (k : string),
      k ∈ own_keys props <-> is_Some (props !! k) }.

(** Two arrays or two objects are [===] when they are one object; a value of
    the embedding holds no identity, so whether they are is the engine's to
    say. *)
Class Identity := {
  same_object : jsval -> jsval -> bool }.

Section Decoding.
Context {engine : Engine} {order : PropertyOrder} {identity : Identity}.
Local Open Scope Q_scope.

(** [a === b] *)
Definition strict_equals (a b : jsval) : bool :=
  match a, b with
  | JUndefined, JUndefined | JNull, JNull => true
  | JBoolean x, JBoolean y => Bool.eqb x y
  | JNumber x, JNumber y => Qeq_bool x y
  | JString x, JString y => String.eqb x y
  | JFunction f, JFunction g => Nat.eqb f g
  | JArray _, JArray _ | JObject _ _, JObject _ _ => same_object a b
  | _, _ => false
  end.

(** [v.map((num, idx) => num === val[idx]).every(truthy => truthy === true)].
    Only an array has the method [map] here: a function value holds no code,
    so no other object brings a method of its own. *)
Definition matches (v val : jsval) : completion bool :=
  match v with
  | JArray nums =>
      compared ← mapM (fun '(idx, num) =>
                         at_idx ← get_index val idx;
                         mret (strict_equals num at_idx))
                      (imap (fun idx num => (idx, num)) nums);
      mret (forallb (fun truthy => Bool.eqb truthy true) compared)
  | JUndefined => Throw (TypeError "Cannot read properties of undefined (reading 'map')")
  | JNull => Throw (TypeError "Cannot read properties of null (reading 'map')")
  | _ => Throw (TypeError "v.map is not a function")
  end.

Definition unNormalizeArray (_input : list jsval) (_options : NormalizeOptions)
  : completion (list jsval) :=
  let inputArray := _input in
  if negb (forallb is_number _input) then
    match legend _options with
    | Some lg =>
        mapM (fun v =>
                fold_left (fun res key =>
                             res ← res;
                             let val := default JUndefined (lg !! key) in
                             matching ← matches v val;
                             mret (if matching : bool then JString key else res))
                          (own_keys lg) (Normal JUndefined))
             inputArray
    | None => Normal inputArray
    end
  else
    Normal (map (fun v =>
                   match v with
                   | JNumber n => JNumber (unNormalizeValue n (min _options) (max _options))
                   | _ => v
                   end) inputArray).

(** Statement notion: a legend whose values are rows of numbers of one
    length, no two of them equal. *)
Definition distinct_rows (lg : gmap string jsval) : Prop :=
  forall k1 k2 v1 v2,
    lg !! k1 = Some v1 -> lg !! k2 = Some v2 ->
    exists r1 r2 : list Q,
      v1 = JArray (map JNumber r1) /\ v2 = JArray (map JNumber r2)
      /\ length r1 = length r2
      /\ (Forall2 Qeq r1 r2 -> k1 = k2).

End Decoding.

End NeuralNetworkDataFormats.

(** ** NeuralNetwork: predicting and classifying (the first unnamed source
    file, continued) *)

Module NeuralNetworkPrediction.
Import JS TensorFlow NeuralNetworkData NeuralNetworkDataFormats NeuralNetwork.

(** What the two methods ask of the model and of its output tensor:
    [this.model.predict(_inputs)], which may throw, and [output.array()]. *)
Class PredictLibrary (tf : TensorLibrary) := {
  model_predict : LayersModel -> Tensor -> completion Tensor;
  tensor_array : Tensor -> promise jsval }.

(** A value of a formatted result: a value as it came out of the model, or
    the number that un-normalising gave, which need not be finite. *)
Inductive predicted :=
| Plain (v : jsval)
| Computed (n : extended).

(** The engine's arithmetic on operands that are not all numbers (it converts
    them first), and its [Array.prototype.sort]. *)
Class Arithmetic := {
  unNormalizeValue_coerced : jsval -> jsval -> jsval -> predicted;
  subtract_coerced : predicted -> predicted -> extended;
  array_sort : forall {A : Type}, (A -> A -> extended) -> list A -> list A }.

(** What the promise of [predict] or [classify] holds: the array that
    [output.array()] gave, or the results formatted with the meta data. *)
Inductive results :=
| Raw (result : jsval)
| Formatted (formatted : list (gmap string predicted)).

(** [v instanceof Object] *)
Definition instanceof_Object (v : jsval) : bool :=
  match v with
  | JFunction _ | JArray _ | JObject _ _ => true
  | _ => false
  end.

Section Prediction.
Context {tf : TensorLibrary} {library : PredictLibrary tf}
        {order : PropertyOrder} {arithmetic : Arithmetic}.
Local Open Scope Q_scope.

(** [Object.keys(v)] *)
Definition object_keys (v : jsval) : completion (list string) :=
  match v with
  | JUndefined | JNull => Throw (TypeError "Cannot convert undefined or null to object")
  | JObject _ props => Normal (own_keys props)
  | JArray items => Normal (map pretty (seq 0 (length items)))
  | JString s => Normal (map pretty (seq 0 (String.length s)))
  | _ => Normal []
  end.

(** [v[key]] for a key that [Object.keys(v)] listed. *)
Definition own_property (v : jsval) (key : string) : jsval :=
  match v with
  | JObject _ props => default JUndefined (props !! key)
  | JArray items =>
      default JUndefined
        (i ← head (List.filter (fun i => String.eqb (pretty i) key) (seq 0 (length items)));
         items !! i)
  | JString s =>
      default JUndefined
        (i ← head (List.filter (fun i => String.eqb (pretty i) key) (seq 0 (String.length s)));
         c ← String.get i s;
         Some (JString (String c EmptyString)))
  | _ => JUndefined
  end.

(** [const {name} = v], where [source] is the text of the expression [v]. *)
Definition destructure (v : jsval) (name source : string) : completion jsval :=
  match v with
  | JUndefined =>
      Throw (TypeError ("Cannot destructure property '" ++ name ++ "' of '" ++ source
                        ++ "' as it is undefined."))
  | JNull =>
      Throw (TypeError ("Cannot destructure property '" ++ name ++ "' of '" ++ source
                        ++ "' as it is null."))
  | _ => get_prop v name
  end.

(** [this.unNormalizeValue(value, min, max)] on values that need not be
    numbers. *)
Definition unNormalizeValue_of (value min max : jsval) : predicted :=
  match value, min, max with
  | JNumber v, JNumber lo, JNumber hi => Plain (JNumber (unNormalizeValue v lo hi))
  | _, _, _ => unNormalizeValue_coerced value min max
  end.

(** [b.confidence - a.confidence] *)
Definition confidence_difference (a b : gmap string predicted) : extended :=
  match default (Plain JUndefined) (b !! "confidence"),
        default (Plain JUndefined) (a !! "confidence") with
  | Plain (JNumber q), Plain (JNumber p) => Finite (q - p)
  | vb, va => subtract_coerced vb va
  end.

Definition classifyInternal (this : NeuralNetwork) (_inputs : Tensor) (_meta : jsval)
  : TF (promise results) :=
  let _meta := if is_undefined _meta then JNull else _meta in
  output ← tf_tidy (mret (model_predict (model this) _inputs));
  match output with
  | Throw e => mret (Rejected e)
  | Normal output =>
      match tensor_array output with
      | Rejected e => mret (Rejected e)
      | Pending => mret Pending
      | Fulfilled result =>
          if negb (is_null _meta) then
            match
              (outputs ← get_prop _meta "outputs";
               keys ← object_keys outputs;
               let label := head keys in
               legend ← get_prop (default JUndefined (own_property outputs <$> label)) "legend";
               vals ← object_keys legend;
               mapM (fun '(idx, item0) =>
                       row ← get_index result 0;
                       confidence ← get_index row idx;
                       mret (<["confidence" := Plain confidence]>
                               (<["label" := Plain (JString item0)]>
                                  {[item0 := Plain confidence]})))
                    (imap (fun idx item0 => (idx, item0)) vals))
            with
            | Throw e => mret (Rejected e)
            | Normal formatted =>
                tensor_dispose output;;
                tensor_dispose _inputs;;
                mret (Fulfilled (Formatted (array_sort confidence_difference formatted)))
            end
          else
            tensor_dispose output;;
            tensor_dispose _inputs;;
            mret (Fulfilled (Raw result))
      end
  end.

Definition predictInternal (this : NeuralNetwork) (_inputs : Tensor) (_meta : jsval)
  : TF (promise results) :=
  output ← tf_tidy (mret (model_predict (model this) _inputs));
  match output with
  | Throw e => mret (Rejected e)
  | Normal output =>
      match tensor_array output with
      | Rejected e => mret (Rejected e)
      | Pending => mret Pending
      | Fulfilled result =>
          if negb (is_null _meta) then
            match
              (outputs ← get_prop _meta "outputs";
               labels ← object_keys outputs;
               mapM (fun '(idx, item) =>
                       isNormalized ← get_prop _meta "isNormalized";
                       val ← (if truthy isNormalized then
                                outputs ← get_prop _meta "outputs";
                                let of_item := own_property outputs item in
                                min ← destructure of_item "min" "_meta.outputs[item]";
                                max ← destructure of_item "max" "_meta.outputs[item]";
                                row ← get_index result 0;
                                value ← get_index row idx;
                                mret (unNormalizeValue_of value min max)
                              else
                                row ← get_index result 0;
                                value ← get_index row idx;
                                mret (Plain value));
                       mret (<["value" := val]>
                               (<["label" := Plain (JString item)]> {[item := val]})))
                    (imap (fun idx item => (idx, item)) labels))
            with
            | Throw e => mret (Rejected e)
            | Normal formatted =>
                tensor_dispose output;;
                tensor_dispose _inputs;;
                mret (Fulfilled (Formatted formatted))
            end
          else
            tensor_dispose output;;
            tensor_dispose _inputs;;
            mret (Fulfilled (Raw result))
      end
  end.

Definition predict (this : NeuralNetwork) (_inputs : Tensor) (_metaOrCb _cb : jsval)
  : TF (promise results * list (callback_call results)) :=
  let _metaOrCb := if is_undefined _metaOrCb then JNull else _metaOrCb in
  let '(meta, cb) :=
    if String.eqb (typeof _metaOrCb) "function" then (JNull, _metaOrCb)
    else if instanceof_Object _metaOrCb then (_metaOrCb, _cb)
    else (JUndefined, JUndefined) in
  p ← predictInternal this _inputs meta;
  mret (callCallback p cb).

Definition classify (this : NeuralNetwork) (_inputs : Tensor) (_metaOrCb _cb : jsval)
  : TF (promise results * list (callback_call results)) :=
  let _metaOrCb := if is_undefined _metaOrCb then JNull else _metaOrCb in
  let '(meta, cb) :=
    if String.eqb (typeof _metaOrCb) "function" then (JNull, _metaOrCb)
    else if instanceof_Object _metaOrCb then (_metaOrCb, _cb)
    else (JUndefined, JUndefined) in
  p ← classifyInternal this _inputs meta;
  mret (callCallback p cb).

End Prediction.

End NeuralNetworkPrediction.

(** ** DiyNeuralNetwork (the third unnamed source file) *)

Module DiyNeuralNetwork.
Import JS NeuralNetworkData NeuralNetworkDataFormats.

(** [this.options]: the defaults, overridden by the options of the
    constructor. *)
Record Options := {
  inputs : jsval;
  outputs : jsval;
  dataUrl : jsval;
  modelUrl : jsval;
  layers : jsval;
  task : jsval;
  debug : jsval }.

Definition DEFAULTS : Options :=
  {| inputs := JArray [];
     outputs := JArray [];
     dataUrl := JNull;
     modelUrl := JNull;
     layers := JArray [];
     task := JNull;
     debug := JBoolean false |}.

(** The fields of a DiyNeuralNetwork that [addData] reads and writes:
    [this.options] and [this.neuralNetworkData.data.raw]. *)
Record DiyNeuralNetwork := {
  options : Options;
  data_raw : list RawRow }.

(** Whether [v.length > 0] for a function or an object with a length of its
    own, which is the engine's to say. *)
Class Lengths := {
  other_length_above_zero : jsval -> bool }.

Section DiyNeuralNetwork.
Context {engine : Engine} {lengths : Lengths}.
Local Open Scope Q_scope.

(** [v.length > 0] *)
Definition length_above_zero (v : jsval) : completion bool :=
  match v with
  | JUndefined =>
      Throw (TypeError "Cannot read properties of undefined (reading 'length')")
  | JNull => Throw (TypeError "Cannot read properties of null (reading 'length')")
  | JArray items => Normal (0 <? length items)%nat
  | JString s => Normal (0 <? String.length s)%nat
  | JObject _ props =>
      Normal (match props !! "length" with
              | Some (JNumber q) => negb (Qle_bool q 0)
              | Some _ => other_length_above_zero v
              | None => false
              end)
  | JFunction _ => Normal (other_length_above_zero v)
  | _ => Normal false
  end.

Definition addData (this : DiyNeuralNetwork) (xInputs yInputs options : jsval)
  : completion DiyNeuralNetwork :=
  let options := if is_undefined options then JNull else options in
  let inputs := inputs (DiyNeuralNetwork.options this) in
  let outputs := outputs (DiyNeuralNetwork.options this) in
  '(inputLabels, outputLabels) ←
    (if negb (is_null options) then
       inputLabels ← get_prop options "inputLabels";
       outputLabels ← get_prop options "outputLabels";
       mret (inputLabels, outputLabels)
     else
       some_inputs ← length_above_zero inputs;
       if some_inputs : bool then
         some_outputs ← length_above_zero outputs;
         if some_outputs : bool then mret (inputs, outputs)
         else mret (JUndefined, JUndefined)
       else mret (JUndefined, JUndefined));
  let DATA_OPTIONS :=
    if truthy inputLabels && truthy outputLabels then
      JObject PlainObject {["inputLabels" := inputLabels; "outputLabels" := outputLabels]}
    else JNull in
  raw ← NeuralNetworkDataFormats.addData (data_raw this) xInputs yInputs DATA_OPTIONS;
  mret {| options := DiyNeuralNetwork.options this; data_raw := raw |}.

End DiyNeuralNetwork.


End DiyNeuralNetwork.

(** ** NeuralNetworkData: the meta data and the tensors of the raw data (the
    second unnamed source file, continued) *)

Module NeuralNetworkDataMeta.
Import JS TensorFlow NeuralNetworkData NeuralNetworkDataFormats.

(** [meta.inputUnits] as [calculateInputUnitsFromData] makes it: a count;
    the array [[64, 64, 4]] after a property of dtype object; or the text
    that [+=] makes of that array and the counts added after it. *)
Inductive Units :=
| Count (n : nat)
| ImageShape
| Text (s : string).

(** [this.meta] *)
Record MetaData := {
  inputUnits : option Units;
  outputUnits : option Units;
  meta_inputs : gmap string Meta;
  meta_outputs : gmap string Meta;
  isNormalized : jsval }.

(** [tf.tensor(values, [dataLength, units])], which throws when the values
    do not fill the shape. *)
Class TensorConstructor (tf : TensorLibrary) := {
  tensor : list jsval -> nat -> option Units -> completion Tensor }.

(** [units += n] *)
Definition add_units (units : Units) (n : nat) : Units :=
  match units with
  | Count m => Count (m + n)
  | ImageShape => Text ("64,64,4" ++ pretty n)
  | Text s => Text (s ++ pretty n)
  end.

(** [{dtype: typeof v}] *)
Definition of_dtype (v : jsval) : Meta :=
  {| dtype := typeof v; meta_min := None; meta_max := None;
     meta_legend := None; uniqueValues := None |}.

(** [Object.assign({}, object)] and [object[prop] = ...] for each of its
    keys: the key [__proto__] names no own property of the result. *)
Definition own_copy {A : Type} (object : gmap string A) : gmap string A :=
  delete "__proto__" object.

Section Meta.
Context {tf : TensorLibrary} {constructor : TensorConstructor tf}
        {engine : Engine} {order : PropertyOrder} {identity : Identity}.

Definition getDTypesFromData (this_meta : MetaData) (_dataRaw : list Row)
  : completion MetaData :=
  match _dataRaw !! 0%nat with
  | None => Throw (TypeError "Cannot read properties of undefined (reading 'xs')")
  | Some sample =>
      Normal {| inputUnits := inputUnits this_meta;
                outputUnits := outputUnits this_meta;
                meta_inputs := own_copy (of_dtype <$> xs sample);
                meta_outputs := own_copy (of_dtype <$> ys sample);
                isNormalized := isNormalized this_meta |}
  end.

(** [[...new Set(values)]]: the values in the order of their first
    occurrence. *)
Definition unique_values (values : list jsval) : list jsval :=
  fold_left (fun seen v => if existsb (strict_equals v) seen then seen else seen ++ [v])
            values [].

(** [{...meta, ...oneHotMeta}] *)
Definition with_encodings (m : Meta) (oneHotMeta : OneHotEncodings) : Meta :=
  {| dtype := dtype m; meta_min := meta_min m; meta_max := meta_max m;
     meta_legend := Some (encoded_legend oneHotMeta);
     uniqueValues := Some (encoded_uniqueValues oneHotMeta) |}.

(** The callback of the [forEach] in [getOneHotMeta], for the entry
    [[key, entry]] of the meta data. *)
Definition encode_entry (_dataRaw : list Row) (xsOrYs : XsOrYs)
    (inputsMeta : gmap string Meta) (key : string) (entry : Meta)
  : TF (gmap string Meta) :=
  if String.eqb (dtype entry) "string" then
    let uniqueVals := unique_values (map (fun obj => row_get obj xsOrYs key) _dataRaw) in
    oneHotMeta ← createOneHotEncodings uniqueVals;
    mret (<[key := with_encodings (default entry (inputsMeta !! key)) oneHotMeta]> inputsMeta)
  else mret inputsMeta.

Definition getOneHotMeta (_inputsMeta : gmap string Meta) (_dataRaw : list Row)
    (xsOrYs : XsOrYs) : TF (gmap string Meta) :=
  let entries := own_copy _inputsMeta in
  fold_left (fun inputsMeta key =>
               inputsMeta ← inputsMeta;
               match entries !! key with
               | Some entry => encode_entry _dataRaw xsOrYs inputsMeta key entry
               | None => mret inputsMeta
               end)
            (own_keys entries) (mret entries).

(** The callback of the [forEach] in [calculateInputUnitsFromData]. *)
Definition count_entry (units : Units) (entry : Meta) : completion Units :=
  if String.eqb (dtype entry) "number" then mret (add_units units 1)
  else if String.eqb (dtype entry) "string" then
    match uniqueValues entry with
    | Some values => mret (add_units units (length values))
    | None => Throw (TypeError "Cannot read properties of undefined (reading 'length')")
    end
  else if String.eqb (dtype entry) "object" then mret ImageShape
  else mret units.

Definition calculateInputUnitsFromData (_inputsMeta : gmap string Meta) : completion Units :=
  let inputsMeta := own_copy _inputsMeta in
  fold_left (fun units key =>
               units ← units;
               match inputsMeta !! key with
               | Some entry => count_entry units entry
               | None => mret units
               end)
            (own_keys inputsMeta) (Normal (Count 0)).

(** [createMetaDataFromData]: what it returns is also the new [this.meta]. *)
Definition createMetaDataFromData (this_meta : MetaData) (_dataRaw : list Row)
  : TF (completion MetaData) :=
  match getDTypesFromData this_meta _dataRaw with
  | Throw e => mret (Throw e)
  | Normal meta =>
      inputs ← getOneHotMeta (meta_inputs meta) _dataRaw Xs;
      outputs ← getOneHotMeta (meta_outputs meta) _dataRaw Ys;
      mret (units_in ← calculateInputUnitsFromData inputs;
            units_out ← calculateInputUnitsFromData outputs;
            mret {| inputUnits := Some units_in;
                    outputUnits := Some units_out;
                    meta_inputs := inputs;
                    meta_outputs := outputs;
                    isNormalized := isNormalized meta |})
  end.

(** The loop over the keys of [meta.inputs] or [meta.outputs] in
    [applyOneHotEncodingsToDataRaw], on the copy of a row's [xs] or [ys]. *)
Definition encoded (side : gmap string Meta) (row : Row) (xsOrYs : XsOrYs)
  : gmap string jsval :=
  fold_left (fun copy k =>
               match side !! k with
               | Some m =>
                   match meta_legend m with
                   | Some legend =>
                       assign_property k
                         (default JUndefined (legend !! property_key (row_get row xsOrYs k)))
                         copy
                   | None => copy
                   end
               | None => copy
               end)
            (own_keys side)
            (match xsOrYs with Xs => xs row | Ys => ys row end).

Definition applyOneHotEncodingsToDataRaw (_dataRaw : list Row) (_meta : MetaData)
  : list Row :=
  map (fun row => {| xs := encoded (meta_inputs _meta) row Xs;
                     ys := encoded (meta_outputs _meta) row Ys |})
      _dataRaw.

(** [inputArr] and [outputArr] of [convertRawToTensors]: row after row, the
    values under the keys of the meta data, arrays opened one level. *)
Definition flattened (side : gmap string Meta) (_dataRaw : list Row) (xsOrYs : XsOrYs)
  : list jsval :=
  flat_map (fun row => flat (map (fun k => row_get row xsOrYs k) (own_keys side))) _dataRaw.

Definition convertRawToTensors (_dataRaw : list Row) (_meta : MetaData)
  : TF (completion (Tensor * Tensor)) :=
  let dataLength := length _dataRaw in
  tf_tidy (
    let inputArr := flattened (meta_inputs _meta) _dataRaw Xs in
    let outputArr := flattened (meta_outputs _meta) _dataRaw Ys in
    mret (inputs ← tensor inputArr dataLength (inputUnits _meta);
          outputs ← tensor outputArr dataLength (outputUnits _meta);
          mret (inputs, outputs))).

(** Statement notions: a column that holds a number in every row, or a
    string in every row; the distinct values of a column, which
    [getOneHotMeta] hands to [createOneHotEncodings]; and a tensor library
    whose one-hot encoding of the indices below [n] is [n] rows of [n]
    entries, for [n] at least 2 ([tf.oneHot] refuses a depth below 2). *)
Definition column_of_numbers (dataRaw : list Row) (key : string) : Prop :=
  Forall (fun row => exists q, xs row !! key = Some (JNumber q)) dataRaw.

Definition column_of_strings (dataRaw : list Row) (key : string) : Prop :=
  Forall (fun row => exists s, xs row !! key = Some (JString s)) dataRaw.

(** The units a property of the meta data stands for. *)
Definition units_of (side : gmap string Meta) (key : string) : nat :=
  match side !! key with
  | Some m =>
      if String.eqb (dtype m) "number" then 1
      else if String.eqb (dtype m) "string" then length (default [] (uniqueValues m))
      else 0
  | None => 0
  end.

Definition distinct_values (dataRaw : list Row) (xsOrYs : XsOrYs) (key : string)
  : list jsval :=
  unique_values (map (fun obj => row_get obj xsOrYs key) dataRaw).

Definition square_one_hot : Prop :=
  forall indices : list Z,
    (2 <= length indices)%nat ->
    exists rows : list (list jsval),
      arraySync (oneHot (tensor1d indices "int32") (length indices)) = JArray <$> rows
      /\ length rows = length indices
      /\ Forall (fun row => length row = length indices) rows.

End Meta.

End NeuralNetworkDataMeta.

(** ** Implementations of the further interfaces, and sample data *)

Module ReferenceEngine.
Import JS Reference.

(** The counts of the brute-force classifier: the stored examples of each
    class index. *)
#[global] Instance reference_counts : KNNCounts.KnnCountLibrary reference_knn := {|
  KNNCounts.knn_getClassExampleCount := fun ds : @KNNClassifier.dataset reference_knn =>
    fold_left (fun counts e =>
                 match example_class e with
                 | Some i => <[i := S (default 0%nat (counts !! i))]> counts
                 | None => counts
                 end) (ds : list stored_example) (∅ : gmap Z nat) |}.

(** An engine that lists the properties of an object in the order of the
    map. *)
#[global] Instance reference_order : NeuralNetworkDataFormats.PropertyOrder.
Proof.
  refine {| NeuralNetworkDataFormats.own_keys :=
              fun (A : Type) (props : gmap string A) => (map_to_list props).*1 |}.
  - intros A props. apply NoDup_fst_map_to_list.
  - intros A props k. rewrite list_elem_of_fmap. split.
    + intros ([k' v] & -> & Hin). apply elem_of_map_to_list in Hin. by exists v.
    + intros [v Hv]. exists (k, v). split; [done|]. by apply elem_of_map_to_list.
Defined.

(** An engine in which no two values are one object. *)
#[global] Instance reference_identity : NeuralNetworkDataFormats.Identity := {|
  NeuralNetworkDataFormats.same_object := fun _ _ => false |}.

(** A model that hands its input on as its output, a batch of one row. *)
#[global] Instance reference_predict : NeuralNetworkPrediction.PredictLibrary reference_tf := {|
  NeuralNetworkPrediction.model_predict := fun _ t => Normal t;
  NeuralNetworkPrediction.tensor_array := fun t => Fulfilled (JArray [JArray t]) |}.

(** Whether [a] may stand before [b] when the comparator gives [difference]
    for them: unless it is positive. *)
Definition in_order (difference : NeuralNetworkData.extended) : bool :=
  match difference with
  | NeuralNetworkData.Finite q => Qle_bool q 0
  | NeuralNetworkData.PositiveInfinity => false
  | _ => true
  end.

(** Arithmetic that gives NaN on operands that are no numbers, and a stable
    merge sort. *)
#[global] Instance reference_arithmetic : NeuralNetworkPrediction.Arithmetic := {|
  NeuralNetworkPrediction.unNormalizeValue_coerced := fun _ _ _ =>
    NeuralNetworkPrediction.Computed NeuralNetworkData.NaN;
  NeuralNetworkPrediction.subtract_coerced := fun _ _ => NeuralNetworkData.NaN;
  NeuralNetworkPrediction.array_sort := fun A compare =>
    @merge_sort A (fun a b => in_order (compare a b) = true)
                  (fun a b => decide (in_order (compare a b) = true)) |}.

(** An engine in which no function and no object has a length above zero. *)
#[global] Instance reference_lengths : DiyNeuralNetwork.Lengths := {|
  DiyNeuralNetwork.other_length_above_zero := fun _ => false |}.

End ReferenceEngine.

Module Samples.
Import JS Reference ReferenceEngine.

Section KNN_samples.
Import KNNClassifier.

(** Three cats and two dogs, added in turn. *)
Definition pets : list (knn_input * string) :=
  [(InputArray [0; 0]%Q, "cat"); (InputArray [0; 1]%Q, "cat");
   (InputArray [10; 10]%Q, "dog"); (InputArray [1; 0]%Q, "cat");
   (InputArray [9; 10]%Q, "dog")].

End KNN_samples.

Section CocoSsd_samples.
Import CocoSsd.

(** A person in the middle of a 640x480 frame. *)
Definition a_person : @DetectedObject Q :=
  {| class := "person"; score := 0.9%Q; bbox := (64, 48, 320, 240)%Q |}.

End CocoSsd_samples.

Section NeuralNetworkData_samples.
Import TensorFlow NeuralNetworkData NeuralNetworkDataFormats.

(** Three rows with one input, a height, and the meta data of that input. *)
Definition heights : list Row :=
  [ {| xs := {["height" := JNumber 150]}; ys := ∅ |};
    {| xs := {["height" := JNumber 180]}; ys := ∅ |};
    {| xs := {["height" := JNumber 165]}; ys := ∅ |} ].

Definition a_number : Meta :=
  {| dtype := "number"; meta_min := None; meta_max := None;
     meta_legend := None; uniqueValues := None |}.

Definition heights_meta : gmap string Meta := {["height" := a_number]}.

Definition between_150_and_180 : NormalizeOptions :=
  {| min := 150; max := 180; legend := None |}.

(** A table of colours with its header row. *)
Definition colours : list (list string) :=
  [ ["r"; "g"; "label"]; ["255"; "0"; "red"]; ["0"; "0"; "black"] ].

(** The one-hot legend of two labels. *)
Definition cat_or_dog : gmap string jsval :=
  {["cat" := JArray [JNumber 1; JNumber 0]; "dog" := JArray [JNumber 0; JNumber 1]]}.

Definition with_cat_or_dog : NormalizeOptions :=
  {| min := 0; max := 1; legend := Some cat_or_dog |}.

End NeuralNetworkData_samples.

Section NeuralNetwork_samples.
Import TensorFlow NeuralNetwork NeuralNetworkPrediction.

Definition a_network : NeuralNetwork :=
  {| config := JObject PlainObject ∅; isTrained := true; isCompiled := true;
     isLayered := true; model := 0%nat |}.

(** Meta data with two outputs, not marked as normalised. *)
Definition two_outputs : gmap string jsval :=
  {["outputs" := JObject PlainObject {["x" := JObject PlainObject ∅;
                                      "y" := JObject PlainObject ∅]}]}.

End NeuralNetwork_samples.

Section DiyNeuralNetwork_samples.
Import DiyNeuralNetwork.

(** A network made with the names of three inputs and of one output. *)
Definition colour_network : DiyNeuralNetwork :=
  {| options :=
       {| inputs := JArray [JString "r"; JString "g"; JString "b"];
          outputs := JArray [JString "label"];
          dataUrl := dataUrl DEFAULTS;
          modelUrl := modelUrl DEFAULTS;
          layers := layers DEFAULTS;
          task := JString "classification";
          debug := debug DEFAULTS |};
     data_raw := [] |}.

End DiyNeuralNetwork_samples.

End Samples.

(** ** A tensor constructor for the reference library, and a sample *)

Module ReferenceTensors.
Import JS Reference NeuralNetworkDataMeta.

(** [tf.tensor] of the reference library: the values themselves, when they
    fill the shape. *)
#[global] Instance reference_tensor : TensorConstructor reference_tf := {|
  tensor := fun values dataLength units =>
    match units with
    | Some (Count n) =>
        if (length values =? dataLength * n)%nat then Normal values
        else Throw (Error "Based on the provided shape, the tensor should have another number of values")
    | _ => Throw (Error "The shape of a tensor is an array of numbers")
    end |}.

Section Sample.
Import NeuralNetworkData.

(** Three people, with a height and the colour of their eyes as inputs and
    a size as output. *)
Definition somebody (height : Q) (colour : string) : Row :=
  {| xs := {["height" := JNumber height; "colour" := JString colour]};
     ys := {["size" := JString (if Qle_bool 170 height then "tall" else "short")]} |}.

Definition people : list Row :=
  [somebody 150 "brown"; somebody 180 "blue"; somebody 165 "brown"].

Definition no_meta : MetaData :=
  {| inputUnits := None; outputUnits := None; meta_inputs := ∅; meta_outputs := ∅;
     isNormalized := JBoolean false |}.

End Sample.

End ReferenceTensors.

(** * Properties *)

(** ** callCallback *)

Section Callback_properties.
Import JS Spec.

Lemma callCallback_notify {A} (p : promise A) (callback : jsval) :
  callCallback p callback = (p, notify callback p).
Proof. by destruct callback. Qed.

Lemma callCallback_promise {A} (p : promise A) (callback : jsval) :
  (callCallback p callback).1 = p.
Proof. by rewrite callCallback_notify. Qed.

End Callback_properties.

(** ** KNNClassifier *)

Section KNN_properties.
Import JS KNNClassifier Spec.
Context {lib : KnnLibrary}.

Lemma includes_elem_of (m : list string) (s : string) :
  includes m s = true <-> s ∈ m.
Proof.
  unfold includes. rewrite existsb_exists. split.
  - intros (x & Hin & Heq). apply String.eqb_eq in Heq. subst x.
    by apply list_elem_of_In.
  - intros Hin. exists s. split; [by apply list_elem_of_In | apply String.eqb_refl].
Qed.

Lemma indexOf_from_lookup (m : list string) (s : string) (base : Z) :
  s ∈ m ->
  exists i : nat, indexOf_from m s base = (base + Z.of_nat i)%Z /\ m !! i = Some s.
Proof.
  revert base. induction m as [|x m IH]; intros base Hin.
  - by apply elem_of_nil in Hin.
  - simpl. destruct (String.eqb x s) eqn:E.
    + apply String.eqb_eq in E. subst x. exists 0%nat. split; [lia | done].
    + apply String.eqb_neq in E. apply elem_of_cons in Hin as [->|Hin]; [done|].
      destruct (IH (base + 1)%Z Hin) as (i & Hi & Hl).
      exists (S i). split; [lia | done].
Qed.

Lemma indexOf_lookup (m : list string) (s : string) :
  s ∈ m -> exists i : nat, indexOf m s = Z.of_nat i /\ m !! i = Some s.
Proof.
  intros Hin. destruct (indexOf_from_lookup m s 0 Hin) as (i & Hi & Hl).
  exists i. split; [unfold indexOf; lia | done].
Qed.

Lemma resolveClassIndex_seen (m : list string) (s : string) :
  s ∈ m -> resolveClassIndex m (JString s) = (JNumber (inject_Z (indexOf m s)), m).
Proof.
  intros Hin. apply includes_elem_of in Hin. unfold resolveClassIndex. by rewrite Hin.
Qed.

Lemma resolveClassIndex_new (m : list string) (s : string) :
  s ∉ m ->
  resolveClassIndex m (JString s) = (JNumber (inject_Z (Z.of_nat (length m))), m ++ [s]).
Proof.
  intros Hin. unfold resolveClassIndex.
  destruct (includes m s) eqn:E; [by apply includes_elem_of in E|].
  simpl. do 3 f_equal. rewrite length_app. simpl. lia.
Qed.

(** A numeric class index is compared with the string 'number', never
    equal to it, so the library is handed [undefined] for it. *)
Lemma resolveClassIndex_number (m : list string) (n : Q) :
  resolveClassIndex m (JNumber n) = (JUndefined, m).
Proof. reflexivity. Qed.

Lemma labels_after_step (m : list string) (s : string) :
  (resolveClassIndex m (JString s)).2 = if decide (s ∈ m) then m else m ++ [s].
Proof.
  case_decide.
  - by rewrite resolveClassIndex_seen.
  - by rewrite resolveClassIndex_new.
Qed.

Lemma labels_after_cons (m : list string) (s : string) (labels : list string) :
  labels_after m (s :: labels)
  = labels_after (if decide (s ∈ m) then m else m ++ [s]) labels.
Proof. unfold labels_after. cbn [fold_left]. by rewrite labels_after_step. Qed.

Lemma labels_after_app (m : list string) (l1 l2 : list string) :
  labels_after m (l1 ++ l2) = labels_after (labels_after m l1) l2.
Proof. unfold labels_after. by rewrite fold_left_app. Qed.

Lemma mapStringToIndex_addExample (this : KNN) (input : knn_input) (v : jsval) :
  mapStringToIndex (addExample this input v).2 = (resolveClassIndex (mapStringToIndex this) v).2.
Proof.
  unfold addExample. destruct (resolveClassIndex _ v) as [ci m'].
  by destruct (knn_addExample _ _ ci).
Qed.

Lemma mapStringToIndex_addExamples (this : KNN) (examples : list (knn_input * string)) :
  mapStringToIndex (addExamples this examples)
  = labels_after (mapStringToIndex this) (map snd examples).
Proof.
  revert this. induction examples as [|e es IH]; intros this; [done|].
  unfold addExamples in *. cbn [fold_left map]. rewrite IH.
  unfold labels_after at 2. cbn [fold_left].
  by rewrite mapStringToIndex_addExample.
Qed.

(** The array only grows at its end, so an index once given stays. *)
Lemma labels_after_extends (m : list string) (labels : list string) :
  exists ext, labels_after m labels = m ++ ext.
Proof.
  revert m. induction labels as [|s ls IH]; intros m.
  - exists []. by rewrite app_nil_r.
  - rewrite labels_after_cons. case_decide.
    + apply IH.
    + destruct (IH (m ++ [s])) as [ext Hext]. exists ([s] ++ ext).
      by rewrite Hext, <- app_assoc.
Qed.

Lemma labels_after_lookup (m : list string) (labels : list string) (i : nat) (s : string) :
  m !! i = Some s -> labels_after m labels !! i = Some s.
Proof.
  intros H. destruct (labels_after_extends m labels) as [ext ->].
  by apply lookup_app_l_Some.
Qed.

Lemma labels_after_NoDup (m : list string) (labels : list string) :
  NoDup m -> NoDup (labels_after m labels).
Proof.
  revert m. induction labels as [|s ls IH]; intros m Hm; [done|].
  rewrite labels_after_cons. apply IH.
  case_decide; [done|]. apply NoDup_app. split_and!; [done| |apply NoDup_singleton].
  intros x Hx Hs. apply list_elem_of_singleton in Hs. by subst.
Qed.

Lemma labels_after_elem_of (m : list string) (labels : list string) (l : string) :
  l ∈ labels_after m labels <-> l ∈ m \/ l ∈ labels.
Proof.
  revert m. induction labels as [|s ls IH]; intros m.
  - simpl. split; [by left | intros [?|H]; [done | by apply elem_of_nil in H]].
  - rewrite labels_after_cons, IH, elem_of_cons.
    case_decide; [|rewrite elem_of_app, list_elem_of_singleton]; intuition congruence.
Qed.

Lemma labels_after_length (labels : list string) :
  length (labels_after [] labels) = length (remove_dups labels).
Proof.
  apply Permutation_length, NoDup_Permutation.
  - apply labels_after_NoDup, NoDup_nil_2.
  - apply NoDup_remove_dups.
  - intros l. rewrite labels_after_elem_of, elem_of_remove_dups, elem_of_nil. tauto.
Qed.

(** C9: after any run of [addExample] calls with string labels on a new
    classifier, the label array holds every distinct label exactly once; a
    label stands at the index that is the number of distinct labels seen
    before its first appearance (0-based); every call, the first for a label
    or a later one, hands the library that same index; and [clearAllLabels]
    leaves the array empty. *)
Theorem addExample_label_indices (examples : list (knn_input * string)) :
  let this := addExamples new_KNN examples in
  let labels := map snd examples in
  (NoDup (mapStringToIndex this) /\ forall l, l ∈ mapStringToIndex this <-> l ∈ labels) /\
  (forall before l after, labels = before ++ l :: after -> l ∉ before ->
     mapStringToIndex this !! length (remove_dups before) = Some l) /\
  (forall before e after, examples = before ++ e :: after ->
     exists i : nat,
       (resolveClassIndex (mapStringToIndex (addExamples new_KNN before)) (JString e.2)).1
         = JNumber (inject_Z (Z.of_nat i))
       /\ mapStringToIndex this !! i = Some e.2) /\
  (forall that : KNN, mapStringToIndex (clearAllLabels that) = []).
Proof.
  intros this labels. subst this labels.
  rewrite mapStringToIndex_addExamples. cbn [new_KNN mapStringToIndex].
  split_and!.
  - apply labels_after_NoDup, NoDup_nil_2.
  - intros l. rewrite labels_after_elem_of, elem_of_nil. tauto.
  - intros before l after -> Hnew.
    rewrite labels_after_app, labels_after_cons. apply labels_after_lookup.
    case_decide as Hin.
    + apply labels_after_elem_of in Hin as [Hin|Hin]; [by apply elem_of_nil in Hin | done].
    + rewrite <- labels_after_length. apply list_lookup_middle. done.
  - intros before e after ->.
    rewrite mapStringToIndex_addExamples. cbn [new_KNN mapStringToIndex].
    rewrite map_app, labels_after_app. cbn [map]. rewrite labels_after_cons.
    set (m := labels_after [] (map snd before)).
    destruct (decide (e.2 ∈ m)) as [Hin|Hin].
    + destruct (indexOf_lookup m e.2 Hin) as (i & Hi & Hl).
      exists i. rewrite resolveClassIndex_seen by done. cbn [fst]. rewrite Hi.
      split; [done|]. by apply labels_after_lookup.
    + exists (length m). rewrite resolveClassIndex_new by done. split; [done|].
      apply labels_after_lookup.
      by apply list_lookup_middle.
  - done.
Qed.

(** The number of neighbours [classify] asks for, and the callback it
    settles on. *)
Lemma classify_unfold (this : KNN) (input : knn_input) (kOrCallback cb : jsval) :
  let k := match kOrCallback with JNumber n => n | _ => 3%Q end in
  let callback := match kOrCallback with JFunction _ => kOrCallback | _ => cb end in
  let internal := classifyInternal this (to_example input) k in
  classify this input kOrCallback cb
  = Outcome internal.1 (notify callback internal.1) internal.2.
Proof.
  unfold classify.
  destruct kOrCallback; cbn zeta;
    (destruct (classifyInternal this (to_example input) _) as [p this'];
     cbn [fst snd]; by rewrite callCallback_notify).
Qed.

Lemma classify_returned (this : KNN) (input : knn_input) (kOrCallback cb : jsval) :
  returned (classify this input kOrCallback cb)
  = (classifyInternal this (to_example input)
       (match kOrCallback with JNumber n => n | _ => 3%Q end)).1.
Proof. by rewrite classify_unfold. Qed.

Lemma classify_this_after (this : KNN) (input : knn_input) (kOrCallback cb : jsval) :
  this_after (classify this input kOrCallback cb)
  = (classifyInternal this (to_example input)
       (match kOrCallback with JNumber n => n | _ => 3%Q end)).2.
Proof. by rewrite classify_unfold. Qed.

Section No_example.
(** The library does not reject a prediction with the wrapper's message. *)
Hypothesis library_errors_differ :
  forall ds x k e ds', knn_predictClass ds x k = (Rejected e, ds') ->
                       e <> Error no_example_message.

(** C8: [classify] rejects with the error 'There is no example in any
    class' if and only if the library counts no class holding an example at
    the time of the call (the library's own rejections carry other
    messages), and a call rejected so leaves the classifier, its stored
    examples and its label array, as it was. *)
Theorem classify_rejects_without_examples
    (this : KNN) (input : knn_input) (kOrCallback cb : jsval) :
  (returned (classify this input kOrCallback cb) = Rejected (Error no_example_message)
   <-> knn_getNumClasses (knnClassifier this) = 0%nat)
  /\ (returned (classify this input kOrCallback cb) = Rejected (Error no_example_message)
      -> this_after (classify this input kOrCallback cb) = this).
Proof.
  rewrite classify_returned, classify_this_after.
  set (k := match kOrCallback with JNumber n => n | _ => 3%Q end).
  unfold classifyInternal.
  destruct (knn_getNumClasses (knnClassifier this)) as [|n] eqn:Hn; cbn.
  - split; [split|]; done.
  - destruct (knn_predictClass (knnClassifier this) (to_example input) k)
      as [p ds] eqn:Hp.
    assert (await p (fun res => Fulfilled (add_labels (mapStringToIndex this) res))
            <> Rejected (Error no_example_message)) as Hne.
    { destruct p as [res|e|]; cbn; [done| |done].
      intros [= ->]. by eapply library_errors_differ. }
    cbn. split; [split|]; [done | lia | done].
Qed.
End No_example.

(** The labels are added beside what the library predicted. *)
Lemma add_labels_keeps (map : list string) (res : prediction) :
  classIndex (add_labels map res) = classIndex res
  /\ confidences (add_labels map res) = confidences res.
Proof.
  destruct res as [ci cs l cl]. unfold add_labels. cbn.
  repeat (case_match; cbn in *; simplify_eq); done.
Qed.

(** The label [add_labels] attaches: that of the predicted class. *)
Lemma add_labels_label (map : list string) (res : prediction) (i : nat) (l : string) :
  classIndex res = Some (Z.of_nat i) ->
  map !! i = Some l ->
  l <> ""%string ->
  label (add_labels map res) = Some l.
Proof.
  intros Hci Hi Hl. destruct res as [ci cs lb cl]. cbn in Hci. subst ci.
  unfold add_labels.
  assert ((0 <? length map)%nat = true) as ->.
  { apply Nat.ltb_lt. apply lookup_lt_Some in Hi. lia. }
  cbn [classIndex].
  assert (negb (Z.of_nat i =? 0)%Z || (Z.of_nat i =? 0)%Z = true) as ->
    by (by destruct (Z.of_nat i =? 0)%Z).
  assert (array_get map (Z.of_nat i) = Some l) as ->.
  { unfold array_get. assert ((0 <=? Z.of_nat i)%Z = true) as -> by (apply Z.leb_le; lia).
    by rewrite Nat2Z.id. }
  apply String.eqb_neq in Hl. rewrite Hl. cbn. by destruct cs.
Qed.

(** An empty label is falsy and is not attached. *)
Lemma add_labels_empty_label (map : list string) (res : prediction) (i : nat) :
  classIndex res = Some (Z.of_nat i) ->
  map !! i = Some ""%string ->
  label (add_labels map res) = label res.
Proof.
  intros Hci Hi. destruct res as [ci cs lb cl]. cbn in Hci. subst ci.
  unfold add_labels.
  assert ((0 <? length map)%nat = true) as ->.
  { apply Nat.ltb_lt. apply lookup_lt_Some in Hi. lia. }
  cbn [classIndex].
  assert (negb (Z.of_nat i =? 0)%Z || (Z.of_nat i =? 0)%Z = true) as ->
    by (by destruct (Z.of_nat i =? 0)%Z).
  assert (array_get map (Z.of_nat i) = Some ""%string) as ->.
  { unfold array_get. assert ((0 <=? Z.of_nat i)%Z = true) as -> by (apply Z.leb_le; lia).
    by rewrite Nat2Z.id. }
  cbn. by destruct cs.
Qed.

(** The confidences by label [add_labels] attaches: one assignment for each
    confidence, in the order of the confidences. *)
Lemma add_labels_confidencesByLabel (map : list string) (res : prediction)
    (cs : list (Z * Q)) :
  map <> [] ->
  confidences res = Some cs ->
  confidencesByLabel (add_labels map res)
  = Some (fold_left (fun acc ic => assign_number (label_key map ic.1) ic.2 acc) cs ∅).
Proof.
  intros Hmap Hcs. destruct res as [ci cs' lb cl]. cbn in Hcs. subst cs'.
  unfold add_labels. destruct map as [|l0 map]; [done|]. cbn [length Nat.ltb Nat.leb].
  cbn. repeat (case_match; cbn in *; simplify_eq); done.
Qed.

Lemma indexOf_NoDup (m : list string) (i : nat) (s : string) :
  NoDup m -> m !! i = Some s -> indexOf m s = Z.of_nat i.
Proof.
  intros Hnd Hi.
  destruct (indexOf_lookup m s) as (j & Hj & Hlj); [by eapply list_elem_of_lookup_2|].
  by rewrite Hj, (NoDup_lookup _ _ _ _ Hnd Hlj Hi).
Qed.

Lemma label_key_lookup (m : list string) (i : nat) (s : string) :
  m !! i = Some s -> label_key m (Z.of_nat i) = s.
Proof.
  intros Hi. unfold label_key, array_get.
  assert ((0 <=? Z.of_nat i)%Z = true) as -> by (apply Z.leb_le; lia).
  by rewrite Nat2Z.id, Hi.
Qed.

(** The confidences by label, read label by label, when every confidence
    belongs to an index of the label array and no index comes twice. *)
Lemma confidencesByLabel_lookup (m : list string) (cs : list (Z * Q))
    (acc : gmap string Q) (i : nat) (l : string) :
  NoDup m ->
  NoDup cs.*1 ->
  (forall index, index ∈ cs.*1 -> exists j : nat, index = Z.of_nat j /\ is_Some (m !! j)) ->
  m !! i = Some l ->
  l <> "__proto__"%string ->
  fold_left (fun acc ic => assign_number (label_key m ic.1) ic.2 acc) cs acc !! l
  = match confidence_of cs (Z.of_nat i) with
    | Some q => Some q
    | None => acc !! l
    end.
Proof.
  intros Hm Hcs Hrange Hi Hl. revert acc Hcs Hrange.
  induction cs as [|[index q] cs IH]; intros acc Hcs Hrange; [done|].
  cbn [fold_left fst snd]. cbn [fmap list_fmap fst] in Hcs.
  apply NoDup_cons in Hcs as [Hnew Hcs].
  rewrite IH; [|done|].
  2: { intros index' Hin. apply Hrange. cbn [fmap list_fmap fst]. by apply list_elem_of_further. }
  unfold confidence_of. cbn [list_to_map foldr uncurry fst snd].
  destruct (Hrange index) as (j & -> & [l' Hj]); [apply list_elem_of_here|].
  destruct (decide (j = i)) as [->|Hne].
  - rewrite lookup_insert_eq.
    assert ((list_to_map cs : gmap Z Q) !! Z.of_nat i = None) as ->
      by (by apply not_elem_of_list_to_map_1).
    rewrite (label_key_lookup _ _ _ Hi). unfold assign_number.
    apply String.eqb_neq in Hl. rewrite Hl. apply lookup_insert_eq.
  - rewrite lookup_insert_ne by lia.
    destruct ((list_to_map cs : gmap Z Q) !! Z.of_nat i); [done|].
    rewrite (label_key_lookup _ _ _ Hj). unfold assign_number.
    destruct (String.eqb l' "__proto__"); [done|].
    apply lookup_insert_ne. intros ->. apply Hne.
    eapply NoDup_lookup; [exact Hm | exact Hj | exact Hi].
Qed.

Lemma confidencesByLabel_other (m : list string) (cs : list (Z * Q))
    (acc : gmap string Q) (s : string) :
  (forall index, index ∈ cs.*1 -> exists j : nat, index = Z.of_nat j /\ is_Some (m !! j)) ->
  s ∉ m \/ s = "__proto__"%string ->
  fold_left (fun acc ic => assign_number (label_key m ic.1) ic.2 acc) cs acc !! s = acc !! s.
Proof.
  intros Hrange Hs. revert acc Hrange.
  induction cs as [|[index q] cs IH]; intros acc Hrange; [done|].
  cbn [fold_left fst snd]. rewrite IH.
  2: { intros index' Hin. apply Hrange. cbn [fmap list_fmap fst]. by apply list_elem_of_further. }
  destruct (Hrange index) as (j & -> & [l' Hj]); [apply list_elem_of_here|].
  rewrite (label_key_lookup _ _ _ Hj). unfold assign_number.
  destruct (String.eqb l' "__proto__") eqn:Hp; [done|].
  apply lookup_insert_ne. intros ->. destruct Hs as [Hs| ->].
  - apply Hs. by eapply list_elem_of_lookup_2.
  - by rewrite String.eqb_refl in Hp.
Qed.

(** The index a label has in the label array of a run is the index it has
    in the array of any longer run. *)
Lemma filed_extends (m ext : list string) (e : knn_input * string) :
  NoDup (m ++ ext) -> e.2 ∈ m -> filed (m ++ ext) e = filed m e.
Proof.
  intros Hnd Hin. unfold filed. f_equal.
  destruct (indexOf_lookup m e.2 Hin) as (i & Hi & Hli).
  rewrite Hi. apply indexOf_NoDup; [done|]. by apply lookup_app_l_Some.
Qed.

(** What the classifier holds after a run of [addExample] calls with string
    labels: the examples the library accepted, each filed under the index
    of its label. *)
Lemma holds_addExamples (examples : list (knn_input * string)) :
  exists stored,
    holds (knnClassifier (addExamples new_KNN examples)) stored
    /\ stored `sublist_of` map (filed (mapStringToIndex (addExamples new_KNN examples))) examples.
Proof.
  induction examples as [|e examples IH] using rev_ind.
  - exists []. split; [apply holds_create | done].
  - destruct IH as (stored & Hholds & Hsub).
    assert (NoDup (mapStringToIndex (addExamples new_KNN (examples ++ [e])))) as Hnd.
    { rewrite mapStringToIndex_addExamples. apply labels_after_NoDup, NoDup_nil_2. }
    assert (exists ext, mapStringToIndex (addExamples new_KNN (examples ++ [e]))
                        = mapStringToIndex (addExamples new_KNN examples) ++ ext) as [ext Hext].
    { rewrite !mapStringToIndex_addExamples, map_app, labels_after_app.
      apply labels_after_extends. }
    assert (map (filed (mapStringToIndex (addExamples new_KNN (examples ++ [e])))) examples
            = map (filed (mapStringToIndex (addExamples new_KNN examples))) examples) as Hsame.
    { apply map_ext_in. intros x Hx. rewrite Hext. apply filed_extends; [by rewrite <- Hext|].
      rewrite mapStringToIndex_addExamples, labels_after_elem_of. right.
      apply list_elem_of_In, in_map_iff. by exists x. }
    assert (exists i : nat,
               (resolveClassIndex (mapStringToIndex (addExamples new_KNN examples))
                  (JString e.2))
               = (JNumber (inject_Z (Z.of_nat i)),
                  mapStringToIndex (addExamples new_KNN (examples ++ [e])))
               /\ mapStringToIndex (addExamples new_KNN (examples ++ [e])) !! i = Some e.2)
      as (i & Hresolve & Hi).
    { assert (mapStringToIndex (addExamples new_KNN (examples ++ [e]))
              = (resolveClassIndex (mapStringToIndex (addExamples new_KNN examples))
                   (JString e.2)).2) as Hstep.
      { unfold addExamples. rewrite fold_left_app. cbn [fold_left].
        apply mapStringToIndex_addExample. }
      rewrite Hstep.
      destruct (decide (e.2 ∈ mapStringToIndex (addExamples new_KNN examples))) as [Hin|Hin].
      - destruct (indexOf_lookup _ _ Hin) as (i & Hidx & Hli). exists i.
        rewrite resolveClassIndex_seen by done. cbn [snd]. by rewrite Hidx.
      - exists (length (mapStringToIndex (addExamples new_KNN examples))).
        rewrite resolveClassIndex_new by done. cbn [snd]. split; [done|].
        by apply list_lookup_middle. }
    assert (addExamples new_KNN (examples ++ [e])
            = (addExample (addExamples new_KNN examples) e.1 (JString e.2)).2) as Hrun.
    { unfold addExamples. by rewrite fold_left_app. }
    rewrite map_app, Hsame. cbn [map].
    assert (filed (mapStringToIndex (addExamples new_KNN (examples ++ [e]))) e
            = (Z.of_nat i, to_example e.1)) as ->.
    { unfold filed. by rewrite (indexOf_NoDup _ _ _ Hnd Hi). }
    rewrite Hrun. unfold addExample. rewrite Hresolve.
    destruct (knn_addExample (knnClassifier (addExamples new_KNN examples))
                (to_example e.1) (JNumber (inject_Z (Z.of_nat i)))) as [ds'|err] eqn:Hadd;
      cbn [snd knnClassifier].
    + exists (stored ++ [(Z.of_nat i, to_example e.1)]). split.
      * by eapply holds_addExample.
      * by apply sublist_app.
    + exists stored. split; [done|]. by apply sublist_inserts_r.
Qed.

Lemma votes_positive (class : Z) (examples : list (Z * tensor)) :
  (0 < votes class examples)%nat -> class ∈ examples.*1.
Proof.
  unfold votes. induction examples as [|e examples IH]; cbn; [lia|].
  destruct (e.1 =? class)%Z eqn:He.
  - intros _. apply Z.eqb_eq in He. subst class. apply list_elem_of_here.
  - intros H. apply list_elem_of_further. by apply IH.
Qed.

Section Majority_vote.
Context (distance : tensor -> tensor -> Q)
        (closest : list (Z * tensor) -> tensor -> Z -> list (Z * tensor))
        (library_votes : MajorityVote distance closest).


End Majority_vote.

End KNN_properties.

Section KNN_on_the_reference_library.
Import JS KNNClassifier Reference Spec.

Lemma reference_errors_differ :
  forall ds x k e ds', knn_predictClass ds x k = (Rejected e, ds') ->
                       e <> Error no_example_message.
Proof.
  intros ds x k e ds'. cbn. unfold reference_predictClass.
  destruct (Qle_bool 1 k); intros [= <- _]. done.
Qed.

Lemma classify_rejects_without_examples_witness :
  (returned (classify new_KNN (InputArray [1; 2]%Q) (JNumber 3) JUndefined)
     = Rejected (Error no_example_message)
   <-> knn_getNumClasses (knnClassifier new_KNN) = 0%nat)
  /\ (returned (classify new_KNN (InputArray [1; 2]%Q) (JNumber 3) JUndefined)
        = Rejected (Error no_example_message)
      -> this_after (classify new_KNN (InputArray [1; 2]%Q) (JNumber 3) JUndefined) = new_KNN).
Proof.
  apply (classify_rejects_without_examples reference_errors_differ).
Defined.

(** The brute-force classifier is a k-nearest-neighbour vote. *)
Lemma reference_holds (ds : list stored_example) (examples : list (Z * list Q)) :
  holds ds examples -> ds = map stored_as examples.
Proof.
  induction 1 as [|ds examples example class ds' _ IH Hadd]; [done|].
  change (Normal (ds ++ [{| example_class := class_of (JNumber (inject_Z class));
                            example_vector := example |}]) = Normal ds') in Hadd.
  injection Hadd as <-. rewrite IH, map_app. cbn [map].
  unfold stored_as, class_of. cbn [fst snd]. by rewrite Z.div_1_r.
Qed.

Lemma insert_example_Permutation (query : list Q) (e : Z * list Q) (l : list (Z * list Q)) :
  insert_example query e l ≡ₚ e :: l.
Proof.
  induction l as [|x l IH]; [done|]. cbn [insert_example].
  destruct (Qle_bool _ _); [done|]. rewrite IH. apply Permutation_swap.
Qed.

Lemma sorted_examples_Permutation (query : list Q) (l : list (Z * list Q)) :
  foldr (insert_example query) [] l ≡ₚ l.
Proof.
  induction l as [|x l IH]; [done|]. cbn [foldr].
  by rewrite insert_example_Permutation, IH.
Qed.

Lemma insert_example_sorted (query : list Q) (e : Z * list Q) (l : list (Z * list Q)) :
  StronglySorted (fun a b => distance_to query a.2 <= distance_to query b.2)%Q l ->
  StronglySorted (fun a b => distance_to query a.2 <= distance_to query b.2)%Q
                 (insert_example query e l).
Proof.
  induction l as [|x l IH]; intros Hs; cbn [insert_example].
  - repeat constructor.
  - apply StronglySorted_inv in Hs as [Hs Hall].
    destruct (Qle_bool (distance_to query e.2) (distance_to query x.2)) eqn:E.
    + apply Qle_bool_iff in E. constructor; [by constructor|].
      constructor; [done|]. eapply Forall_impl; [exact Hall|].
      intros y Hy. cbn beta in *. by eapply Qle_trans.
    + constructor; [by apply IH|]. rewrite insert_example_Permutation.
      constructor; [|done]. apply Qlt_le_weak, Qnot_le_lt.
      intros Hle. apply Qle_bool_iff in Hle. congruence.
Qed.

Lemma sorted_examples_sorted (query : list Q) (l : list (Z * list Q)) :
  StronglySorted (fun a b => distance_to query a.2 <= distance_to query b.2)%Q
                 (foldr (insert_example query) [] l).
Proof.
  induction l as [|x l IH]; cbn [foldr]; [constructor|]. by apply insert_example_sorted.
Qed.

Lemma closest_examples_nearest (examples : list (Z * list Q)) (query : list Q) (k : Z) :
  exists rest,
    examples ≡ₚ closest_examples examples query k ++ rest
    /\ length (closest_examples examples query k) = Nat.min (Z.to_nat k) (length examples)
    /\ forall near far, near ∈ closest_examples examples query k -> far ∈ rest ->
         (distance_to query near.2 <= distance_to query far.2)%Q.
Proof.
  exists (drop (Z.to_nat k) (foldr (insert_example query) [] examples)).
  unfold closest_examples. split_and!.
  - by rewrite take_drop, sorted_examples_Permutation.
  - by rewrite length_take, (Permutation_length (sorted_examples_Permutation query examples)).
  - intros near far Hnear Hfar.
    pose proof (sorted_examples_sorted query examples) as Hs.
    rewrite <- (take_drop (Z.to_nat k)) in Hs.
    by eapply (StronglySorted_app_1_elem_of _ _ _ _ _ Hs).
Qed.

Lemma insert_by_distance_examples (query : list Q) (e : Z * list Q) (l : list (Z * list Q)) :
  insert_by_distance (distance_to query e.2, Some e.1)
    (map (fun x => (distance_to query x.2, Some x.1)) l)
  = map (fun x => (distance_to query x.2, Some x.1)) (insert_example query e l).
Proof.
  induction l as [|x l IH]; [done|]. cbn [map insert_by_distance insert_example fst].
  destruct (Qle_bool (distance_to query e.2) (distance_to query x.2)); [done|].
  cbn [map]. by rewrite IH.
Qed.

Lemma nearest_examples (n : nat) (examples : list (Z * list Q)) (query : list Q) :
  nearest n (map stored_as examples) query
  = map (fun e => Some e.1) (take n (foldr (insert_example query) [] examples)).
Proof.
  unfold nearest. rewrite map_map. cbn [stored_as example_vector example_class].
  assert (foldr insert_by_distance []
            (map (fun x : Z * list Q => (squared_distance x.2 query, Some x.1)) examples)
          = map (fun x => (distance_to query x.2, Some x.1))
              (foldr (insert_example query) [] examples)) as ->.
  { induction examples as [|e examples IH]; [done|]. cbn [map foldr].
    rewrite IH. apply insert_by_distance_examples. }
  by rewrite firstn_map, map_map.
Qed.

Lemma reference_votes_examples (class : Z) (l : list (Z * list Q)) :
  Reference.votes (Some class) (map (fun e => Some e.1) l) = Spec.votes class l.
Proof.
  unfold Reference.votes, Spec.votes. induction l as [|[c v] l IH]; [done|].
  cbn [map List.filter fst]. destruct (Z.eqb_spec c class) as [Heq|Hne].
  - rewrite bool_decide_true by congruence. cbn [length]. by rewrite IH.
  - rewrite bool_decide_false by congruence. done.
Qed.

Lemma majority_fold (classes neighbours : list (option Z)) (best : option Z * nat) :
  let step := fun (best : option Z * nat) c =>
                if (best.2 <? Reference.votes c neighbours)%nat
                then (c, Reference.votes c neighbours) else best in
  let r := fold_left step classes best in
  (best.2 <= r.2)%nat
  /\ (forall c, c ∈ classes -> (Reference.votes c neighbours <= r.2)%nat)
  /\ (r = best \/ (r.1 ∈ classes /\ r.2 = Reference.votes r.1 neighbours)).
Proof.
  intros step. revert best. induction classes as [|c classes IH]; intros best; cbn zeta.
  - cbn [fold_left]. split_and!; [lia | intros c H; by apply elem_of_nil in H | by left].
  - cbn [fold_left]. destruct (IH (step best c)) as (H1 & H2 & H3). cbn zeta in *.
    assert ((best.2 <= (step best c).2)%nat /\ (Reference.votes c neighbours <= (step best c).2)%nat
            /\ (step best c = best \/ step best c = (c, Reference.votes c neighbours))) as (Hb & Hc & Hs).
    { unfold step. destruct (best.2 <? Reference.votes c neighbours)%nat eqn:E; cbn [snd].
      - apply Nat.ltb_lt in E. split_and!; [lia | lia | by right].
      - apply Nat.ltb_ge in E. split_and!; [lia | lia | by left]. }
    split_and!.
    + lia.
    + intros c' Hin. apply elem_of_cons in Hin as [->|Hin]; [lia | by apply H2].
    + destruct H3 as [H3|[H3 H4]].
      * rewrite H3. destruct Hs as [->| ->]; [by left|]. right. cbn [fst snd].
        split; [apply list_elem_of_here | done].
      * right. split; [by apply list_elem_of_further | done].
Qed.

Lemma keyed_confidences (g : option Z -> Q) (classes : list (option Z)) :
  NoDup classes ->
  let cs := omap (fun c => match c with Some i => Some (i, g c) | None => None end) classes in
  NoDup cs.*1 /\ forall i, i ∈ cs.*1 -> Some i ∈ classes.
Proof.
  intros Hnd. cbn zeta.
  assert (forall (l : list (option Z)) i,
            i ∈ (omap (fun c => match c with Some i => Some (i, g c) | None => None end) l).*1
            -> Some i ∈ l) as Hin.
  { intros l i H. apply list_elem_of_fmap in H as ([i' q] & -> & H).
    apply list_elem_of_omap in H as (c & Hc & Hf). destruct c as [j|]; [|done].
    by injection Hf as -> _. }
  split; [|apply Hin].
  induction classes as [|c classes IH]; [apply NoDup_nil_2|].
  apply NoDup_cons in Hnd as [Hc Hnd]. destruct c as [i|]; cbn [omap list_omap].
  - cbn [fmap list_fmap fst]. apply NoDup_cons. split; [|by apply IH].
    intros H. by apply Hc, Hin.
  - by apply IH.
Qed.

Lemma reference_majority_vote : MajorityVote distance_to closest_examples.
Proof.
  split.
  - intros examples query k _. apply closest_examples_nearest.
  - intros ds examples query k res ds' Hholds Hn Hk Hp.
    apply reference_holds in Hholds. subst ds. cbn in Hp, Hn.
    unfold reference_predictClass in Hp.
    assert (Qle_bool 1 (inject_Z k) = true) as Hle
      by (apply Qle_bool_iff; change (inject_Z 1 <= inject_Z k)%Q; by rewrite <- Zle_Qle).
    rewrite Hle, Qfloor_Z in Hp. injection Hp as <- _. cbn [classIndex].
    rewrite nearest_examples. fold (closest_examples examples query k).
    destruct (closest_examples_nearest examples query k) as (rest & Hperm & Hlen & _).
    set (cl := closest_examples examples query k) in *.
    set (classes := classes_of (map stored_as examples)) in *.
    assert (forall i, i ∈ cl.*1 -> Some i ∈ classes) as Hclasses.
    { intros i Hi. apply list_elem_of_fmap in Hi as (e & -> & He).
      subst classes. unfold classes_of. rewrite elem_of_remove_dups.
      apply list_elem_of_In. rewrite map_map. apply in_map_iff. exists e. split; [done|].
      apply list_elem_of_In. rewrite Hperm. apply elem_of_app. by left. }
    assert (forall c, c ∈ classes -> exists i, c = Some i) as Hsome.
    { intros c Hc. subst classes. unfold classes_of in Hc. rewrite elem_of_remove_dups in Hc.
      apply list_elem_of_In in Hc. rewrite map_map in Hc. apply in_map_iff in Hc as (e & <- & _).
      by exists e.1. }
    destruct cl as [|e cl'] eqn:Hcl.
    { exfalso. cbn [length] in Hlen. destruct examples as [|x examples]; [by apply Hn|].
      cbn [length] in Hlen. lia. }
    rewrite <- Hcl in *.
    destruct (majority_fold classes (map (fun e => Some e.1) cl) (None, 0%nat))
      as (_ & Hmost & Hwinner). cbn zeta in Hmost, Hwinner.
    unfold majority.
    set (r := fold_left _ classes (None, 0%nat)) in *.
    assert (0 < r.2)%nat as Hpos.
    { assert (0 < @Spec.votes reference_knn e.1 cl)%nat as He.
      { rewrite Hcl. unfold Spec.votes. cbn [List.filter]. rewrite Z.eqb_refl. cbn [length]. lia. }
      rewrite <- reference_votes_examples in He.
      assert (Some e.1 ∈ classes) as Hin.
      { apply Hclasses. rewrite Hcl. cbn [fmap list_fmap]. apply list_elem_of_here. }
      specialize (Hmost _ Hin). lia. }
    destruct Hwinner as [Hr|[Hin Hvotes]]; [rewrite Hr in Hpos; cbn in Hpos; lia|].
    destruct (Hsome _ Hin) as [winner Hw].
    exists winner. split; [done|]. rewrite Hw, reference_votes_examples in Hvotes.
    split; [lia|]. intros class.
    destruct (@Spec.votes reference_knn class cl) as [|n] eqn:Hclass; [lia|].
    rewrite <- Hclass.
    rewrite <- Hvotes, <- reference_votes_examples. apply Hmost, Hclasses.
    apply (votes_positive (lib := reference_knn)). lia.
  - intros ds examples query k res ds' Hholds Hn Hk Hp.
    apply reference_holds in Hholds. subst ds. cbn in Hp.
    unfold reference_predictClass in Hp.
    assert (Qle_bool 1 (inject_Z k) = true) as Hle
      by (apply Qle_bool_iff; change (inject_Z 1 <= inject_Z k)%Q; by rewrite <- Zle_Qle).
    rewrite Hle in Hp. injection Hp as <- _. cbn [confidences].
    eexists. split; [reflexivity|].
    destruct (keyed_confidences
                (fun c => (inject_Z (Z.of_nat (Reference.votes c
                             (nearest (Z.to_nat (Qfloor (inject_Z k)))
                                (map stored_as examples) query))) / inject_Z k)%Q)
                (classes_of (map stored_as examples))) as [Hnd Hin].
    { apply NoDup_remove_dups. }
    split; [exact Hnd|]. intros index Hindex. apply Hin in Hindex.
    unfold classes_of in Hindex. rewrite elem_of_remove_dups in Hindex.
    apply list_elem_of_In in Hindex.
    rewrite map_map in Hindex. apply in_map_iff in Hindex as (e & He & Hindex).
    injection He as <-. apply list_elem_of_fmap. exists e. split; [done|].
    by apply list_elem_of_In.
Qed.



End KNN_on_the_reference_library.

(** ** CocoSsd *)

Section CocoSsd_properties.
Import JS CocoSsd Spec.
Context {number : Type} (divide : number -> number -> number).
Context {lib : @CocoSsdLibrary number}.

(** The loop pushes the formatted predictions in order. *)
Lemma format_loop_map (subject : Subject) (predictions : list DetectedObject)
    (formatted : list Detection) :
  format_loop divide subject predictions formatted
  = formatted ++ map (format divide subject) predictions.
Proof.
  revert formatted. induction predictions as [|p ps IH]; intros formatted; cbn.
  - by rewrite app_nil_r.
  - by rewrite IH, <- app_assoc.
Qed.

Lemma detect_unfold (this : CocoSsd) (subject : Subject) (callback : jsval) :
  let p := await (ready this) (fun _ =>
             await (call_detect this subject) (fun predictions =>
               Fulfilled (map (format divide subject) predictions))) in
  detect divide this subject callback
  = Outcome p (match p with Fulfilled _ => notify callback p | _ => [] end) this.
Proof.
  unfold detect. destruct (ready this); cbn; [|done|done].
  destruct (call_detect this subject); cbn; [|done|done].
  rewrite format_loop_map. cbn. by rewrite callCallback_notify.
Qed.

(** C3: for every list of predictions the model produces for the subject,
    [detect] resolves to a list of the same length and order whose i-th
    element has the i-th prediction's class as label, its score as
    confidence, and as x, y, w, h its bbox entries divided by the subject's
    width (x and w) and height (y and h). *)
Theorem detect_formats_predictions
    (this : CocoSsd) (subject : Subject) (callback : jsval)
    (m : model) (predictions : list DetectedObject) :
  ready this = Fulfilled tt ->
  cocoSsdModel this = Some m ->
  model_detect m subject = Fulfilled predictions ->
  exists formatted,
    returned (detect divide this subject callback) = Fulfilled formatted
    /\ length formatted = length predictions
    /\ forall (i : nat) (p : DetectedObject), predictions !! i = Some p ->
         exists d, formatted !! i = Some d
           /\ label d = class p
           /\ confidence d = score p
           /\ x d = divide ((bbox p).1.1.1) (width subject)
           /\ y d = divide ((bbox p).1.1.2) (height subject)
           /\ w d = divide ((bbox p).1.2) (width subject)
           /\ h d = divide ((bbox p).2) (height subject).
Proof.
  intros Hready Hmodel Hdetect.
  exists (map (format divide subject) predictions). split_and!.
  - rewrite detect_unfold, Hready. cbn. unfold call_detect.
    by rewrite Hmodel, Hdetect.
  - apply length_map.
  - intros i p Hp. exists (format divide subject p). split.
    + by rewrite list_lookup_fmap, Hp.
    + done.
Qed.

End CocoSsd_properties.

Section CocoSsd_on_the_reference_library.
Import JS CocoSsd Reference Spec.

Lemma detect_formats_predictions_witness :
  exists formatted,
    returned (detect Qdiv (new_CocoSsd JUndefined).1 webcam JUndefined) = Fulfilled formatted
    /\ length formatted = length two_objects
    /\ forall (i : nat) (p : DetectedObject), two_objects !! i = Some p ->
         exists d, formatted !! i = Some d
           /\ label d = class p
           /\ confidence d = score p
           /\ x d = Qdiv ((bbox p).1.1.1) (width webcam)
           /\ y d = Qdiv ((bbox p).1.1.2) (height webcam)
           /\ w d = Qdiv ((bbox p).1.2) (width webcam)
           /\ h d = Qdiv ((bbox p).2) (height webcam).
Proof.
  apply (@detect_formats_predictions Q Qdiv reference_cocoSsd
           (new_CocoSsd JUndefined).1 webcam JUndefined tt two_objects);
    reflexivity.
Defined.

End CocoSsd_on_the_reference_library.

(** ** BodyPix *)

Section BodyPix_properties.
Import JS BodyPix Spec.
Context {lib : BodyPixLibrary}.

(** C6, amended: for every options object the constructor is given, each
    field of the configuration is the option of that name when the options
    hold a truthy value there, and the default (multiplier 0.75,
    outputStride 16, segmentationThreshold 0.5, the default palette) when
    the option is absent or falsy. *)
Theorem constructor_merges_truthy_options
    (video callback : jsval) (cls : js_class) (props : gmap string jsval) :
  exists this cs,
    new_BodyPix video (JObject cls props) callback = Normal (this, cs)
    /\ config this =
       {| multiplier := truthy_or props "multiplier" (JNumber 0.75);
          outputStride := truthy_or props "outputStride" (JNumber 16);
          segmentationThreshold := truthy_or props "segmentationThreshold" (JNumber 0.5);
          palette := truthy_or props "palette" BODYPIX_PALETTE |}.
Proof.
  unfold new_BodyPix. cbn.
  destruct (loadModel _) as [[m isReady] loaded].
  destruct (callCallback loaded callback) as [ready cs]. cbn.
  eexists _, _. split; [reflexivity|]. cbn.
  unfold js_or, truthy_or.
  f_equal; by destruct (props !! _).
Qed.

(** The chain of tests of [segment], for every first argument but [null]. *)
Lemma image_to_segment_cases (this : BodyPix) (o : jsval) :
  o <> JNull ->
  image_to_segment this o =
    if String.eqb (typeof o) "function" then Normal (video this, o)
    else if is_image_source o then Normal (o, JUndefined)
    else match wrapped_element o with
         | Some e => Normal (e, JUndefined)
         | None =>
             if instanceof (video this) HTMLVideoElement
             then Normal (video this, JUndefined)
             else Throw (Error no_input_image_message)
         end.
Proof.
  intros Hnull. unfold image_to_segment, is_image_source.
  destruct o as [| | b | q | s | f | items | cls props]; try done; cbn;
    try (by destruct (instanceof (video this) HTMLVideoElement)).
  destruct (js_class_eqb cls HTMLImageElement || js_class_eqb cls HTMLCanvasElement
            || js_class_eqb cls HTMLVideoElement || js_class_eqb cls ImageData); [done|].
  unfold has_p5_image, has_p5_canvas, has_p5_video. cbn.
  destruct (instanceof (default JUndefined (props !! "elt")) HTMLImageElement); [done|].
  destruct (instanceof (default JUndefined (props !! "elt")) HTMLCanvasElement); [done|].
  cbn.
  destruct (instanceof (default JUndefined (props !! "elt")) ImageData); [done|].
  cbn.
  destruct (instanceof (default JUndefined (props !! "canvas")) HTMLCanvasElement); [done|].
  cbn.
  destruct (instanceof (default JUndefined (props !! "elt")) HTMLVideoElement); [done|].
  by destruct (instanceof (video this) HTMLVideoElement).
Qed.

(** For every first argument but [null], [segment] throws the error about
    the missing input image exactly when the argument is no function, no
    image source and no p5.js wrapper of one, and the constructor was given
    no video element. *)
Lemma no_input_image_iff (this : BodyPix) (o : jsval) :
  o <> JNull ->
  image_to_segment this o = Throw (Error no_input_image_message)
  <-> String.eqb (typeof o) "function" = false
      /\ is_image_source o = false
      /\ wrapped_element o = None
      /\ instanceof (video this) HTMLVideoElement = false.
Proof.
  intros Hnull. rewrite image_to_segment_cases by done.
  destruct (String.eqb (typeof o) "function"); [intuition discriminate|].
  destruct (is_image_source o); [intuition discriminate|].
  destruct (wrapped_element o); [intuition discriminate|].
  destruct (instanceof (video this) HTMLVideoElement); intuition discriminate.
Qed.

(** C4, at the input [null]: [typeof null] is 'object', so the test for a
    p5.js wrapper reads [null.elt] and [segment] rejects with a TypeError,
    whatever the constructor was given; the error about the missing input
    image is not the one thrown. *)
Theorem segment_null_throws_TypeError (this : BodyPix) (configOrCallback cb : jsval) :
  is_image_source JNull = false
  /\ wrapped_element JNull = None
  /\ returned (segment this JNull configOrCallback cb)
     = Rejected (TypeError "Cannot read properties of null (reading 'elt')")
  /\ returned (segment this JNull configOrCallback cb)
     <> Rejected (Error no_input_image_message).
Proof. split_and!; [reflexivity | reflexivity | reflexivity | discriminate]. Qed.

Lemma image_to_segment_callback (this : BodyPix) (o img callback : jsval) :
  image_to_segment this o = Normal (img, callback) ->
  callback = if String.eqb (typeof o) "function" then o else JUndefined.
Proof.
  assert (o = JNull \/ o <> JNull) as [->|Hnull]
    by (destruct o; try (by right); by left); [done|].
  rewrite image_to_segment_cases by done.
  destruct (String.eqb (typeof o) "function"); [by intros [= _ <-]|].
  destruct (is_image_source o); [by intros [= _ <-]|].
  destruct (wrapped_element o); [by intros [= _ <-]|].
  destruct (instanceof (video this) HTMLVideoElement); [by intros [= _ <-]|done].
Qed.

Lemma segment_unfold (this : BodyPix) (optionsOrCallback configOrCallback cb : jsval)
    (img callback : jsval) :
  image_to_segment this optionsOrCallback = Normal (img, callback) ->
  let run := segmentInternal img (segment_options this configOrCallback) this in
  segment this optionsOrCallback configOrCallback cb
  = Outcome run.1
      (notify (segment_callback optionsOrCallback configOrCallback cb) run.1)
      run.2.
Proof.
  intros Himg. pose proof (image_to_segment_callback _ _ _ _ Himg) as ->.
  unfold segment, segment_callback, segment_options. rewrite Himg.
  destruct (String.eqb (typeof configOrCallback) "object") eqn:Hobj.
  - assert (String.eqb (typeof configOrCallback) "function" = false) as ->
      by (by destruct configOrCallback).
    destruct (segmentInternal img configOrCallback this) as [p this'].
    rewrite callCallback_notify. cbn [fst snd].
    by destruct (String.eqb (typeof cb) "function").
  - destruct (String.eqb (typeof configOrCallback) "function");
      destruct (segmentInternal img _ this) as [p this'];
      rewrite callCallback_notify; cbn [fst snd];
      by destruct (String.eqb (typeof cb) "function").
Qed.

(** Case analysis on an awaited promise: only the fulfilled case goes on. *)
Ltac fulfilled p x := destruct p as [x|?|]; cbn; [|done|done].

Lemma video_not_loaded_completes (this : BodyPix) :
  exists b, video_not_loaded this = Normal b.
Proof.
  unfold video_not_loaded.
  destruct (video this); cbn; repeat case_match; eauto.
Qed.

(** [segmentInternal] up to the call of the model, when nothing it waits
    for fails. *)
Lemma segmentInternal_run (this : BodyPix) (img options : jsval) (m : bp_model)
    (o_outputStride o_threshold : jsval) :
  ready this = Fulfilled tt ->
  model this = Some m ->
  nextFrame = Fulfilled tt ->
  (video_not_loaded this = Normal true -> loadeddata (video this) = Fulfilled tt) ->
  get_prop options "outputStride" = Normal o_outputStride ->
  get_prop options "segmentationThreshold" = Normal o_threshold ->
  let this' := with_options this o_outputStride o_threshold in
  segmentInternal img options this
  = (await (estimatePersonSegmentation m img (outputStride (config this'))
              (segmentationThreshold (config this'))) result_of,
     this').
Proof.
  intros Hready Hmodel Hframe Hvideo Hstride Hthreshold this'.
  unfold segmentInternal, async_bind, this_object, awaiting, evaluating, assign.
  rewrite Hready, Hframe.
  destruct (video_not_loaded_completes this) as [b Hb]. rewrite Hb. cbn.
  destruct b; cbn; [rewrite (Hvideo Hb); cbn|].
  all: rewrite Hstride, Hthreshold; cbn.
  all: unfold call_estimatePersonSegmentation; cbn; rewrite Hmodel.
  all: subst this'; unfold with_options; cbn.
  all: fulfilled (estimatePersonSegmentation m img
                     (js_or o_outputStride (outputStride (config this)))
                     (js_or o_threshold (segmentationThreshold (config this)))) seg.
  all: unfold result_of, async_return.
  all: destruct checkP5; [|done].
  all: fulfilled (rawToBlob (mask_data (toMaskImageData seg true))
                    (width seg) (height seg)) blob1.
  all: fulfilled (rawToBlob (mask_data (toMaskImageData seg false))
                    (width seg) (height seg)) blob2.
  all: fulfilled (blobToP5Image blob1) image1.
  all: by destruct (blobToP5Image blob2).
Qed.


End BodyPix_properties.

Section BodyPix_on_the_reference_library.
Import JS BodyPix Reference Spec.

Lemma new_bodyPix_without_video :
  new_BodyPix JUndefined (JObject PlainObject ∅) JUndefined
  = Normal (bodyPix_without_video, []).
Proof. reflexivity. Qed.

(** C6 as stated fails on the options [{segmentationThreshold: 0}]: the
    value 0 is present and the configuration keeps the default 0.5. *)
Lemma falsy_option_keeps_default :
  exists this cs,
    new_BodyPix JUndefined
      (JObject PlainObject {["segmentationThreshold" := JNumber 0]}) JUndefined
    = Normal (this, cs)
    /\ segmentationThreshold (config this) = JNumber 0.5
    /\ config this <> overridden_defaults {["segmentationThreshold" := JNumber 0]}.
Proof.
  eexists _, _. split; [reflexivity|]. split; [reflexivity|].
  intros H. apply (f_equal segmentationThreshold) in H. vm_compute in H. discriminate.
Qed.


End BodyPix_on_the_reference_library.

(** ** Callbacks and promises of the three asynchronous operations *)

Section Callbacks_and_promises.
Import JS Spec.


End Callbacks_and_promises.

Section Callbacks_on_the_reference_library.
Import JS BodyPix Reference Spec.


End Callbacks_on_the_reference_library.

(** ** NeuralNetworkData and NeuralNetwork *)

Section Normalization.
Import JS.
Local Open Scope Q_scope.

(** C10: for every value and every min and max that differ, un-normalising
    the normalised value gives the value back, and normalising the
    un-normalised value gives it back, in exact rational arithmetic; so it is
    for the [unNormalizeValue] of NeuralNetworkData and for the one of
    NeuralNetwork. *)
Theorem normalize_unNormalize_inverse (value min max : Q) :
  ~ min == max ->
  NeuralNetworkData.unNormalizeValue (NeuralNetworkData.normalizeValue value min max) min max
    == value
  /\ NeuralNetworkData.normalizeValue (NeuralNetworkData.unNormalizeValue value min max) min max
     == value
  /\ NeuralNetwork.unNormalizeValue (NeuralNetworkData.normalizeValue value min max) min max
     == value
  /\ NeuralNetworkData.normalizeValue (NeuralNetwork.unNormalizeValue value min max) min max
     == value.
Proof.
  intros Hne.
  assert (~ max - min == 0) as Hd.
  { intros H. apply Hne. symmetry. apply Qplus_inj_r with (z := - min).
    rewrite Qplus_opp_r. exact H. }
  unfold NeuralNetworkData.unNormalizeValue, NeuralNetworkData.normalizeValue,
    NeuralNetwork.unNormalizeValue.
  repeat split; field; exact Hd.
Qed.

Lemma normalize_unNormalize_inverse_witness :
  NeuralNetworkData.unNormalizeValue (NeuralNetworkData.normalizeValue 5 0 10) 0 10 == 5
  /\ NeuralNetworkData.normalizeValue (NeuralNetworkData.unNormalizeValue 5 0 10) 0 10 == 5
  /\ NeuralNetwork.unNormalizeValue (NeuralNetworkData.normalizeValue 5 0 10) 0 10 == 5
  /\ NeuralNetworkData.normalizeValue (NeuralNetwork.unNormalizeValue 5 0 10) 0 10 == 5.
Proof.
  apply (normalize_unNormalize_inverse 5 0 10). vm_compute. discriminate.
Defined.

End Normalization.

Section Numeric_work.
Import JS TensorFlow NeuralNetworkData Spec.
Context {tf : TensorLibrary} {engine : Engine}.
Local Open Scope Q_scope.

Lemma normalizeArray_calls (input : list jsval) (options : NormalizeOptions) :
  tf_calls (normalizeArray input options) = [].
Proof.
  unfold normalizeArray.
  destruct (negb (forallb is_number input)); [|done].
  by destruct (legend options).
Qed.

Lemma normalizeArray_numbers (numbers : list Q) (options : NormalizeOptions) :
  value (normalizeArray (map JNumber numbers) options)
  = map (fun n => JNumber (normalizeValue n (min options) (max options))) numbers.
Proof.
  unfold normalizeArray.
  assert (forallb is_number (map JNumber numbers) = true) as ->.
  { induction numbers as [|n ns IH]; [done | exact IH]. }
  cbn. by rewrite map_map.
Qed.

(** [Math.min] of finitely many numbers is one of them and below all. *)
Lemma getMin_from (numbers : list Q) (least : Q) :
  exists m,
    fold_left (fun acc v => smaller acc (ToNumber v)) (map JNumber numbers) (Finite least)
    = Finite m
    /\ m ∈ least :: numbers
    /\ Forall (Qle m) (least :: numbers).
Proof.
  revert least. induction numbers as [|n ns IH]; intros least; cbn [map fold_left].
  - exists least. split; [done|]. split; [apply list_elem_of_here|].
    apply Forall_cons. split; [apply Qle_refl | apply Forall_nil_2].
  - cbn [ToNumber smaller]. destruct (Qle_bool least n) eqn:Hle.
    + apply Qle_bool_iff in Hle.
      destruct (IH least) as (m & Hm & Hin & Hall). exists m. split; [done|].
      apply Forall_cons in Hall as [Hml Hall].
      split.
      * apply elem_of_cons in Hin as [->|Hin]; [apply list_elem_of_here|].
        by do 2 apply list_elem_of_further.
      * repeat (apply Forall_cons; split); [done | by eapply Qle_trans | done].
    + assert (n <= least) as Hnl.
      { apply Qlt_le_weak, Qnot_le_lt. intros H. apply Qle_bool_iff in H. congruence. }
      destruct (IH n) as (m & Hm & Hin & Hall). exists m. split; [done|].
      apply Forall_cons in Hall as [Hmn Hall].
      split; [by apply list_elem_of_further|].
      repeat (apply Forall_cons; split); [by eapply Qle_trans | done | done].
Qed.

Lemma getMin_numbers (n : Q) (numbers : list Q) :
  exists m, getMin (map JNumber (n :: numbers)) = Finite m
            /\ m ∈ n :: numbers /\ Forall (Qle m) (n :: numbers).
Proof. unfold getMin. cbn [map fold_left ToNumber smaller]. apply getMin_from. Qed.

Lemma getMax_from (numbers : list Q) (greatest : Q) :
  exists m,
    fold_left (fun acc v => larger acc (ToNumber v)) (map JNumber numbers) (Finite greatest)
    = Finite m
    /\ m ∈ greatest :: numbers
    /\ Forall (fun n => n <= m) (greatest :: numbers).
Proof.
  revert greatest. induction numbers as [|n ns IH]; intros greatest; cbn [map fold_left].
  - exists greatest. split; [done|]. split; [apply list_elem_of_here|].
    apply Forall_cons. split; [apply Qle_refl | apply Forall_nil_2].
  - cbn [ToNumber larger]. destruct (Qle_bool greatest n) eqn:Hle.
    + apply Qle_bool_iff in Hle.
      destruct (IH n) as (m & Hm & Hin & Hall). exists m. split; [done|].
      apply Forall_cons in Hall as [Hmn Hall].
      split; [by apply list_elem_of_further|].
      repeat (apply Forall_cons; split); [by eapply Qle_trans | done | done].
    + assert (n <= greatest) as Hnl.
      { apply Qlt_le_weak, Qnot_le_lt. intros H. apply Qle_bool_iff in H. congruence. }
      destruct (IH greatest) as (m & Hm & Hin & Hall). exists m. split; [done|].
      apply Forall_cons in Hall as [Hml Hall].
      split.
      * apply elem_of_cons in Hin as [->|Hin]; [apply list_elem_of_here|].
        by do 2 apply list_elem_of_further.
      * repeat (apply Forall_cons; split); [done | by eapply Qle_trans | done].
Qed.

Lemma getMax_numbers (n : Q) (numbers : list Q) :
  exists m, getMax (map JNumber (n :: numbers)) = Finite m
            /\ m ∈ n :: numbers /\ Forall (fun k => k <= m) (n :: numbers).
Proof. unfold getMax. cbn [map fold_left ToNumber larger]. apply getMax_from. Qed.

Lemma getRawStats_number (dataRaw : list Row) (meta : gmap string Meta)
    (xsOrYs : XsOrYs) (k : string) (m : Meta) :
  meta !! k = Some m ->
  dtype m = "number"%string ->
  value (getRawStats dataRaw meta xsOrYs) !! k
  = Some (set_min_max m (getMin (arrayFromLabel dataRaw xsOrYs k))
                        (getMax (arrayFromLabel dataRaw xsOrYs k))).
Proof.
  intros Hk Hd. unfold getRawStats. cbn.
  rewrite map_lookup_imap, Hk. cbn. by rewrite Hd.
Qed.


Lemma createOneHotEncodings_calls (uniqueVals : list jsval) :
  tf_calls (createOneHotEncodings uniqueVals)
  = [call_tidy;
     call_tensor1d (imap (fun idx _ => Z.of_nat idx) uniqueVals) "int32";
     call_oneHot (length uniqueVals);
     call_arraySync].
Proof. reflexivity. Qed.

Lemma legend_fold_lookup (rows : list jsval) (entries : list (nat * jsval))
    (lg : gmap string jsval) (key : string) (v : jsval) :
  fold_left (fun lg '(uIdx, uVal) =>
               <[property_key uVal := default JUndefined (rows !! uIdx)]> lg)
            entries lg !! key = Some v ->
  lg !! key = Some v
  \/ exists i u, (i, u) ∈ entries /\ property_key u = key
                 /\ v = default JUndefined (rows !! i).
Proof.
  revert lg. induction entries as [|[i u] es IH]; intros lg; cbn [fold_left].
  - by left.
  - intros H. apply IH in H as [H|(j & w & Hin & Hk & Hv)].
    + destruct (decide (property_key u = key)) as [<-|Hne].
      * rewrite lookup_insert_eq in H. injection H as <-.
        right. exists i, u. split; [apply list_elem_of_here | done].
      * rewrite lookup_insert_ne in H by done. by left.
    + right. exists j, w. split; [by apply list_elem_of_further | done].
Qed.

Lemma createOneHotEncodings_legend (uniqueVals : list jsval) (key : string) (v : jsval) :
  encoded_legend (value (createOneHotEncodings uniqueVals)) !! key = Some v ->
  exists i u, uniqueVals !! i = Some u /\ property_key u = key
              /\ v = default JUndefined (one_hot_rows uniqueVals !! i).
Proof.
  intros H. cbn in H. apply legend_fold_lookup in H as [H|(i & u & Hin & Hk & Hv)].
  - by rewrite lookup_empty in H.
  - apply elem_of_lookup_imap in Hin as (j & w & [= -> ->] & Hj).
    by exists j, w.
Qed.

Lemma trainInternal_calls (this : NeuralNetwork.NeuralNetwork)
    (options : NeuralNetwork.TrainingOptions) :
  exists rest,
    tf_calls (NeuralNetwork.trainInternal this options) = call_fit :: rest.
Proof.
  unfold NeuralNetwork.trainInternal. cbn.
  destruct (fit _ _ _ _); cbn; eauto.
Qed.


End Numeric_work.

Section Numeric_work_on_the_reference_library.
Import JS TensorFlow NeuralNetworkData Reference Spec.
Local Open Scope Q_scope.


End Numeric_work_on_the_reference_library.

(** ** KNNClassifier: clearing a label, counting by label *)

Section KNN_label_properties.
Import JS KNNClassifier KNNCounts Spec.
Context {lib : KnnLibrary}.


Context {counting : KnnCountLibrary lib}.

Lemma index_keys_elem_of (countByIndex : gmap Z nat) (k : Z) :
  k ∈ index_keys countByIndex <-> is_Some (countByIndex !! k).
Proof.
  unfold index_keys. rewrite merge_sort_Permutation, list_elem_of_fmap. split.
  - intros ([k' n] & -> & Hin). apply elem_of_map_to_list in Hin. by exists n.
  - intros [n Hn]. exists (k, n). split; [done|]. by apply elem_of_map_to_list.
Qed.

Lemma count_fold_absent (map : list string) (countByIndex : gmap Z nat)
    (keys : list Z) (acc : gmap string nat) (l : string) :
  (forall k, k ∈ keys -> counted_label map k <> Some l) ->
  fold_left (count_step map countByIndex) keys acc !! l = acc !! l.
Proof.
  revert acc. induction keys as [|x keys IH]; intros acc Hno; [done|].
  cbn [fold_left]. rewrite IH.
  - assert (counted_label map x <> Some l) as Hx by (apply Hno, list_elem_of_here).
    unfold count_step, counted_label, assign_number in *.
    destruct (array_get map x) as [label|]; [|done].
    destruct (negb (String.eqb label "")); [|done].
    destruct (String.eqb label "__proto__"); [done|]. cbn [negb andb] in Hx.
    rewrite lookup_insert_ne; [done | congruence].
  - intros k Hk. apply Hno. by apply list_elem_of_further.
Qed.

Lemma count_fold_present (map : list string) (countByIndex : gmap Z nat)
    (keys : list Z) (acc : gmap string nat) (l : string) (k : Z) :
  k ∈ keys ->
  counted_label map k = Some l ->
  (forall k', k' ∈ keys -> counted_label map k' = Some l -> k' = k) ->
  fold_left (count_step map countByIndex) keys acc !! l
  = Some (default 0%nat (countByIndex !! k)).
Proof.
  revert acc. induction keys as [|x keys IH]; intros acc Hin Hk Huniq.
  - by apply elem_of_nil in Hin.
  - cbn [fold_left]. destruct (decide (k ∈ keys)) as [Hk'|Hk'].
    + apply IH; [done | done |]. intros k' Hin'. apply Huniq. by apply list_elem_of_further.
    + apply elem_of_cons in Hin as [->|Hin]; [|done].
      rewrite count_fold_absent.
      * unfold count_step, counted_label, assign_number in *.
        destruct (array_get map x) as [label|]; [|done].
        destruct (negb (String.eqb label "")); [|done].
        destruct (String.eqb label "__proto__"); [done|]. cbn [negb andb] in Hk.
        injection Hk as ->. apply lookup_insert_eq.
      * intros k' Hin' Hl'. apply Hk'.
        by rewrite <- (Huniq k' (list_elem_of_further _ _ _ Hin') Hl').
Qed.

Lemma getCountByLabel_lookup (this : KNN) :
  NoDup (mapStringToIndex this) ->
  mapStringToIndex this <> [] ->
  exists countByLabel,
    getCountByLabel this = inr countByLabel
    /\ (forall (i : nat) (l : string),
          mapStringToIndex this !! i = Some l ->
          l <> ""%string -> l <> "__proto__"%string ->
          countByLabel !! l = getCount this !! Z.of_nat i)
    /\ countByLabel !! "__proto__"%string = None
    /\ (forall l : string, l ∉ mapStringToIndex this -> countByLabel !! l = None).
Proof.
  intros Hnd Hne. unfold getCountByLabel, getCount.
  set (countByIndex := knn_getClassExampleCount (knnClassifier this)).
  set (map := mapStringToIndex this) in *.
  destruct map as [|l0 map'] eqn:Hmap; [done|]. cbn [length Nat.ltb Nat.leb].
  rewrite <- Hmap in *. clear Hne.
  eexists. split; [reflexivity|].
  change (fold_left _ (index_keys countByIndex) ∅)
    with (fold_left (count_step map countByIndex) (index_keys countByIndex) ∅).
  assert (forall k l, counted_label map k = Some l ->
            (0 <= k)%Z /\ map !! Z.to_nat k = Some l
            /\ l <> ""%string /\ l <> "__proto__"%string) as Hcl.
  { intros k l. unfold counted_label, array_get.
    destruct (0 <=? k)%Z eqn:Hk; [|done]. apply Z.leb_le in Hk.
    destruct (map !! Z.to_nat k) as [label|]; [|done].
    destruct (String.eqb label "") eqn:He; [done|]. apply String.eqb_neq in He.
    destruct (String.eqb label "__proto__") eqn:Hp; [done|]. apply String.eqb_neq in Hp.
    intros [= ->]. done. }
  split_and!.
  - intros i l Hi Hl Hp.
    assert (counted_label map (Z.of_nat i) = Some l) as Hcounted.
    { unfold counted_label, array_get.
      assert ((0 <=? Z.of_nat i)%Z = true) as -> by (apply Z.leb_le; lia).
      rewrite Nat2Z.id, Hi. apply String.eqb_neq in Hl, Hp. by rewrite Hl, Hp. }
    destruct (countByIndex !! Z.of_nat i) as [n|] eqn:Hn.
    + rewrite (count_fold_present _ _ _ _ l (Z.of_nat i)).
      * by rewrite Hn.
      * apply index_keys_elem_of. by exists n.
      * done.
      * intros k' _ Hk'. apply Hcl in Hk' as (Hpos & Hk' & _).
        pose proof (NoDup_lookup _ _ _ _ Hnd Hk' Hi). lia.
    + rewrite count_fold_absent; [apply lookup_empty|].
      intros k Hk Hcounted'. apply index_keys_elem_of in Hk as [n Hk].
      apply Hcl in Hcounted' as (Hpos & Hk' & _).
      pose proof (NoDup_lookup _ _ _ _ Hnd Hk' Hi).
      assert (k = Z.of_nat i) as -> by lia. congruence.
  - rewrite count_fold_absent; [apply lookup_empty|].
    intros k _ Hcounted. by apply Hcl in Hcounted as (_ & _ & _ & Hp).
  - intros l Hl. rewrite count_fold_absent; [apply lookup_empty|].
    intros k _ Hcounted. apply Hcl in Hcounted as (_ & Hk & _).
    apply Hl. by eapply list_elem_of_lookup_2.
Qed.

(** X2: after any non-empty run of [addExample] calls with string labels,
    [getCountByLabel] answers with counts keyed by label: every label but
    the empty string and [__proto__] is counted with the library's count of
    the class index the label was given (and is missing when the library
    holds no example of that index); [__proto__] is no key of the answer,
    the assignment of a number under that name making no property; and
    nothing that was never added as a label is a key. *)
Theorem getCountByLabel_counts_each_label
    (examples : list (knn_input * string)) :
  examples <> [] ->
  let this := addExamples new_KNN examples in
  exists countByLabel,
    getCountByLabel this = inr countByLabel
    /\ (forall (i : nat) (l : string),
          mapStringToIndex this !! i = Some l ->
          l <> ""%string -> l <> "__proto__"%string ->
          countByLabel !! l = getCount this !! Z.of_nat i)
    /\ countByLabel !! "__proto__"%string = None
    /\ (forall l : string, l ∉ map snd examples -> countByLabel !! l = None).
Proof.
  intros Hne this.
  destruct (getCountByLabel_lookup this) as (c & Hc & Hlabels & Hproto & Hother).
  - subst this. rewrite mapStringToIndex_addExamples. apply labels_after_NoDup, NoDup_nil_2.
  - subst this. rewrite mapStringToIndex_addExamples.
    cbn [new_KNN mapStringToIndex].
    destruct examples as [|e es]; [done|]. cbn [map].
    rewrite labels_after_cons, decide_False by apply not_elem_of_nil.
    destruct (labels_after_extends ([] ++ [e.2]) (map snd es)) as [ext ->]. done.
  - exists c. split; [done|]. split; [done|]. split; [done|].
    intros l Hl. apply Hother. subst this.
    rewrite mapStringToIndex_addExamples, labels_after_elem_of, elem_of_nil. tauto.
Qed.

End KNN_label_properties.

(** ** CocoSsd: an object made by the constructor; relative boxes *)

Section CocoSsd_more_properties.
Import JS CocoSsd Spec.

(** X3: on an object made by the constructor, [detect] resolves to the
    formatted predictions of the loaded model, rejects with the error of the
    load when the model could not be loaded and with the model's error when
    the detection fails; it leaves the object as it was. *)
Theorem detect_after_construction
    {number : Type} (divide : number -> number -> number)
    {lib : @CocoSsdLibrary number}
    (constructorCallback : jsval) (subject : Subject) (callback : jsval) :
  let this := (new_CocoSsd constructorCallback).1 in
  returned (detect divide this subject callback)
  = await cocoSsd_load (fun m =>
      await (model_detect m subject) (fun predictions =>
        Fulfilled (map (format divide subject) predictions)))
  /\ this_after (detect divide this subject callback) = this.
Proof.
  intros this. subst this. rewrite detect_unfold. cbn [returned this_after].
  split; [|done].
  unfold new_CocoSsd, loadModel, call_detect.
  destruct cocoSsd_load as [m|e|]; rewrite callCallback_notify; done.
Qed.

Local Open Scope Q_scope.

(** X4: when the box of a prediction lies within the subject (its corner is
    not negative, its size is not negative and corner plus size stays within
    the subject's width and height, both positive), the formatted box is
    relative to the subject: x, y, w, h are not negative and x + w and y + h
    are at most 1. *)
Theorem formatted_box_is_relative (subject : @Subject Q) (p : @DetectedObject Q) :
  0 < width subject ->
  0 < height subject ->
  0 <= bbox0 p -> 0 <= bbox2 p -> bbox0 p + bbox2 p <= width subject ->
  0 <= bbox1 p -> 0 <= bbox3 p -> bbox1 p + bbox3 p <= height subject ->
  let d := format Qdiv subject p in
  (0 <= x d /\ 0 <= w d /\ x d + w d <= 1)
  /\ (0 <= y d /\ 0 <= h d /\ y d + h d <= 1).
Proof.
  intros Hw Hh Hx0 Hw0 Hxw Hy0 Hh0 Hyh d. subst d. cbn [format x y w h].
  assert (forall a b c : Q, 0 < c -> 0 <= a -> 0 <= b -> a + b <= c ->
            0 <= a / c /\ 0 <= b / c /\ a / c + b / c <= 1) as Hrel.
  { intros a b c Hc Ha Hb Hab. split_and!.
    - apply Qle_shift_div_l; [done|]. by rewrite Qmult_0_l.
    - apply Qle_shift_div_l; [done|]. by rewrite Qmult_0_l.
    - assert (a / c + b / c == (a + b) / c) as -> by (field; lra).
      apply Qle_shift_div_r; [done|]. by rewrite Qmult_1_l. }
  split; apply Hrel; done.
Qed.

End CocoSsd_more_properties.

(** ** BodyPix: what [segment] leaves of the object; the function [bodyPix] *)

Section BodyPix_more_properties.
Import JS BodyPix BodyPixFactory Spec.
Context {lib : BodyPixLibrary}.

(** The states [segmentInternal] can leave the object in. *)
Lemma segmentInternal_this_after (img options : jsval) (this : BodyPix) :
  let this' := (segmentInternal img options this).2 in
  this' = this
  \/ exists o_stride,
       get_prop options "outputStride" = Normal o_stride
       /\ (this' = set_outputStride this (js_or o_stride (outputStride (config this)))
           \/ exists o_threshold,
                get_prop options "segmentationThreshold" = Normal o_threshold
                /\ this' = with_options this o_stride o_threshold).
Proof.
  unfold segmentInternal, async_bind, this_object, awaiting, evaluating, assign,
    async_return, with_options.
  destruct (ready this); cbn; [|by left|by left].
  destruct nextFrame; cbn; [|by left|by left].
  destruct (video_not_loaded this) as [b|]; cbn; [|by left].
  destruct b; cbn.
  1: destruct (loadeddata (video this)); cbn; [|by left|by left].
  all: destruct (get_prop options "outputStride") as [o_stride|]; cbn; [|by left].
  all: right; exists o_stride; split; [done|].
  all: destruct (get_prop options "segmentationThreshold") as [o_threshold|]; cbn;
         [|by left].
  all: right; exists o_threshold; split; [done|].
  all: destruct (call_estimatePersonSegmentation _ _ _ _) as [seg| |]; cbn; [|done|done].
  all: destruct checkP5; [|done].
  all: destruct (rawToBlob _ _ _) as [blob1| |]; cbn; [|done|done].
  all: destruct (rawToBlob _ _ _) as [blob2| |]; cbn; [|done|done].
  all: destruct (blobToP5Image blob1); cbn; [|done|done].
  all: by destruct (blobToP5Image blob2).
Qed.

(** X5: whatever its arguments and however the call ends, [segment] leaves
    the model, whether it is ready, the model path, the ready promise, the
    multiplier and the palette of the object as they were; the output stride
    and the segmentation threshold of the configuration are either unchanged
    or a truthy value read from the options object passed as second
    argument, where they stay for the calls that follow.  Nothing is stated
    of the video element: while [segmentInternal] waits for a video that has
    not loaded it sets the element's [onloadeddata] handler, a write to the
    element and not to a field of the object. *)
Theorem segment_updates_stride_and_threshold
    (this : BodyPix) (optionsOrCallback configOrCallback cb : jsval) :
  let this' := this_after (segment this optionsOrCallback configOrCallback cb) in
  (model this' = model this
   /\ modelReady this' = modelReady this /\ modelPath this' = modelPath this
   /\ ready this' = ready this
   /\ multiplier (config this') = multiplier (config this)
   /\ palette (config this') = palette (config this))
  /\ (outputStride (config this') = outputStride (config this)
      \/ (truthy (outputStride (config this')) = true
          /\ get_prop configOrCallback "outputStride"
             = Normal (outputStride (config this'))))
  /\ (segmentationThreshold (config this') = segmentationThreshold (config this)
      \/ (truthy (segmentationThreshold (config this')) = true
          /\ get_prop configOrCallback "segmentationThreshold"
             = Normal (segmentationThreshold (config this')))).
Proof.
  intros this'. subst this'.
  destruct (image_to_segment this optionsOrCallback) as [[img callback]|e] eqn:Himg.
  2: { unfold segment. rewrite Himg. cbn. tauto. }
  rewrite (segment_unfold _ _ _ _ _ _ Himg). cbn [this_after].
  assert (forall name current v,
             get_prop (segment_options this configOrCallback) name = Normal v ->
             get_prop (config_object (config this)) name = Normal current ->
             js_or v current = current
             \/ (truthy (js_or v current) = true
                 /\ get_prop configOrCallback name = Normal (js_or v current))) as Hor.
  { intros name current v Hv Hcurrent. unfold js_or.
    destruct (truthy v) eqn:Ht; [|by left].
    unfold segment_options in Hv.
    destruct (String.eqb (typeof configOrCallback) "object"); [by right|].
    left. congruence. }
  destruct (segmentInternal_this_after img (segment_options this configOrCallback) this)
    as [->|(o_stride & Hstride & [->|(o_threshold & Hthreshold & ->)])].
  - tauto.
  - cbn. split_and!; try done; [|by left].
    by apply (Hor "outputStride"%string).
  - cbn. split_and!; try done.
    + by apply (Hor "outputStride"%string).
    + by apply (Hor "segmentationThreshold"%string).
Qed.

Lemma decide_null (v : jsval) : v = JNull \/ v <> JNull.
Proof. destruct v; try (by right); by left. Qed.

Lemma first_argument_cases (v cb : jsval) :
  first_argument v cb =
    match v with
    | JNull => Throw (TypeError "Cannot read properties of null (reading 'elt')")
    | _ => Normal (video_of v,
                   if String.eqb (typeof v) "object" && negb (truthy (video_of v))
                   then v else JObject PlainObject ∅,
                   if String.eqb (typeof v) "function" then v else cb)
    end.
Proof.
  unfold first_argument, video_of.
  destruct v as [| | b | q | s | f | items | cls props]; try done.
  destruct cls; cbn; try done;
    destruct (default JUndefined (props !! "elt")) as [| | | | | | |cls' props'];
    try done; by destruct cls'.
Qed.

Lemma new_BodyPix_cases (video options callback : jsval) :
  match new_BodyPix video options callback with
  | Normal (this, _) => BodyPix.video this = video /\ options <> JNull
  | Throw _ => options = JNull \/ options = JUndefined
  end.
Proof.
  unfold new_BodyPix.
  destruct options; cbn; try tauto;
    destruct (loadModel _) as [[m isReady] loaded];
    destruct (callCallback loaded callback); done.
Qed.

(** X6: the function [bodyPix] throws, a TypeError, exactly when its first
    or its second argument is [null]; otherwise it makes an instance whose
    video is the video element the first argument stands for, whose
    configuration is built from the options object it settles on (the
    second argument before the first), and it hands back the instance
    instead of the promise exactly when the callback it settles on is
    truthy. *)
Theorem bodyPix_sorts_its_arguments
    (videoOrOptionsOrCallback optionsOrCallback cb : jsval) :
  ((exists e, bodyPix videoOrOptionsOrCallback optionsOrCallback cb = Throw e)
   <-> videoOrOptionsOrCallback = JNull \/ optionsOrCallback = JNull)
  /\ forall made,
       bodyPix videoOrOptionsOrCallback optionsOrCallback cb = Normal made ->
       new_BodyPix (video_of videoOrOptionsOrCallback)
         (options_of videoOrOptionsOrCallback optionsOrCallback)
         (callback_of videoOrOptionsOrCallback optionsOrCallback cb)
       = Normal (instance made, constructor_calls made)
       /\ video (instance made) = video_of videoOrOptionsOrCallback
       /\ returns_instance made
          = truthy (callback_of videoOrOptionsOrCallback optionsOrCallback cb).
Proof.
  unfold bodyPix. rewrite first_argument_cases.
  assert (options_of videoOrOptionsOrCallback optionsOrCallback <> JUndefined) as Hdefined.
  { unfold options_of. destruct optionsOrCallback; cbn; try done;
      by destruct videoOrOptionsOrCallback; cbn; try done; destruct (negb _). }
  destruct (decide_null videoOrOptionsOrCallback) as [->|Hv].
  { cbn. split; [split; eauto|]. done. }
  assert (match videoOrOptionsOrCallback with
          | JNull => Throw (TypeError "Cannot read properties of null (reading 'elt')")
          | _ => Normal (video_of videoOrOptionsOrCallback,
                         if String.eqb (typeof videoOrOptionsOrCallback) "object"
                            && negb (truthy (video_of videoOrOptionsOrCallback))
                         then videoOrOptionsOrCallback else JObject PlainObject ∅,
                         if String.eqb (typeof videoOrOptionsOrCallback) "function"
                         then videoOrOptionsOrCallback else cb)
          end
          = Normal (video_of videoOrOptionsOrCallback,
                    if String.eqb (typeof videoOrOptionsOrCallback) "object"
                       && negb (truthy (video_of videoOrOptionsOrCallback))
                    then videoOrOptionsOrCallback else JObject PlainObject ∅,
                    if String.eqb (typeof videoOrOptionsOrCallback) "function"
                    then videoOrOptionsOrCallback else cb)) as ->
    by (by destruct videoOrOptionsOrCallback).
  cbn [mbind completion_bind].
  assert ((if String.eqb (typeof optionsOrCallback) "object"
           then (optionsOrCallback,
                 if String.eqb (typeof videoOrOptionsOrCallback) "function"
                 then videoOrOptionsOrCallback else cb)
           else if String.eqb (typeof optionsOrCallback) "function"
                then (if String.eqb (typeof videoOrOptionsOrCallback) "object"
                         && negb (truthy (video_of videoOrOptionsOrCallback))
                      then videoOrOptionsOrCallback else JObject PlainObject ∅,
                      optionsOrCallback)
                else (if String.eqb (typeof videoOrOptionsOrCallback) "object"
                         && negb (truthy (video_of videoOrOptionsOrCallback))
                      then videoOrOptionsOrCallback else JObject PlainObject ∅,
                      if String.eqb (typeof videoOrOptionsOrCallback) "function"
                      then videoOrOptionsOrCallback else cb))
          = (options_of videoOrOptionsOrCallback optionsOrCallback,
             callback_of videoOrOptionsOrCallback optionsOrCallback cb)) as ->.
  { unfold options_of, callback_of. by destruct optionsOrCallback. }
  pose proof (new_BodyPix_cases (video_of videoOrOptionsOrCallback)
                (options_of videoOrOptionsOrCallback optionsOrCallback)
                (callback_of videoOrOptionsOrCallback optionsOrCallback cb)) as Hnew.
  destruct (new_BodyPix _ _ _) as [[this cs]|e]; cbn.
  - destruct Hnew as [Hvideo Hnull]. split.
    + split; [by intros [e He]|]. intros [->| ->]; [done|]. exfalso. by apply Hnull.
    + by intros made [= <-].
  - split; [|done]. split; [|eauto]. intros _. right.
    destruct Hnew as [Hnull|Hundef]; [|done].
    unfold options_of in Hnull.
    destruct (String.eqb (typeof optionsOrCallback) "object"); [done|].
    destruct (_ && _); [done | discriminate].
Qed.

End BodyPix_more_properties.

(** ** NeuralNetworkData: statistics and normalisation of a column *)

Section Column_properties.
Import JS TensorFlow NeuralNetworkData Spec.
Context {tf : TensorLibrary} {engine : Engine}.
Local Open Scope Q_scope.

Lemma normalizeValue_within_unit (v lo hi : Q) :
  lo < hi -> lo <= v -> v <= hi -> 0 <= normalizeValue v lo hi <= 1.
Proof.
  intros Hlt Hlo Hhi. unfold normalizeValue.
  assert (0 < hi - lo) as Hd by lra.
  split.
  - apply Qle_shift_div_l; [done|]. lra.
  - apply Qle_shift_div_r; [done|]. lra.
Qed.


Lemma smaller_NaN_fold (l : list jsval) :
  fold_left (fun acc v => smaller acc (ToNumber v)) l NaN = NaN.
Proof. induction l as [|v l IH]; [done|]. cbn [fold_left]. exact IH. Qed.

Lemma larger_NaN_fold (l : list jsval) :
  fold_left (fun acc v => larger acc (ToNumber v)) l NaN = NaN.
Proof. induction l as [|v l IH]; [done|]. cbn [fold_left]. exact IH. Qed.

Lemma smaller_NaN_r (a : extended) : smaller a NaN = NaN.
Proof. by destruct a. Qed.

Lemma larger_NaN_r (a : extended) : larger a NaN = NaN.
Proof. by destruct a. Qed.

Lemma getMin_undefined (l : list jsval) : JUndefined ∈ l -> getMin l = NaN.
Proof.
  unfold getMin. generalize PositiveInfinity.
  induction l as [|v l IH]; intros acc Hin; [by apply elem_of_nil in Hin|].
  cbn [fold_left]. apply elem_of_cons in Hin as [<-|Hin].
  - cbn [ToNumber]. rewrite smaller_NaN_r. apply smaller_NaN_fold.
  - by apply IH.
Qed.

Lemma getMax_undefined (l : list jsval) : JUndefined ∈ l -> getMax l = NaN.
Proof.
  unfold getMax. generalize NegativeInfinity.
  induction l as [|v l IH]; intros acc Hin; [by apply elem_of_nil in Hin|].
  cbn [fold_left]. apply elem_of_cons in Hin as [<-|Hin].
  - cbn [ToNumber]. rewrite larger_NaN_r. apply larger_NaN_fold.
  - by apply IH.
Qed.


End Column_properties.

(** ** NeuralNetworkData: comma-separated text *)

Section Csv_properties.
Import JS TensorFlow NeuralNetworkData NeuralNetworkDataFormats.

Lemma split_nonempty (sep : ascii) (s : string) : split sep s <> [].
Proof.
  destruct s as [|c rest]; cbn [split]; [done|].
  destruct (Ascii.eqb c sep); [done|]. by destruct (split sep rest).
Qed.

Lemma split_without (sep : ascii) (s : string) :
  occurs sep s = false -> split sep s = [s].
Proof.
  induction s as [|c rest IH]; cbn [split occurs]; [done|].
  intros [Hc Hrest]%orb_false_elim. rewrite Hc, (IH Hrest). done.
Qed.

Lemma split_app (sep : ascii) (s rest : string) :
  occurs sep s = false ->
  split sep (s ++ String sep rest) = s :: split sep rest.
Proof.
  induction s as [|c s IH]; simpl.
  - intros _. by rewrite Ascii.eqb_refl.
  - intros [Hc Hs]%orb_false_elim. by rewrite Hc, (IH Hs).
Qed.

Lemma split_concat (sep : ascii) (cells : list string) :
  cells <> [] ->
  Forall (fun s => occurs sep s = false) cells ->
  split sep (String.concat (String sep EmptyString) cells) = cells.
Proof.
  induction cells as [|s cells IH]; [done|]. intros _ Hall.
  apply Forall_cons in Hall as [Hs Hall].
  destruct cells as [|s' cells].
  - cbn. by apply split_without.
  - change (String.concat (String sep "") (s :: s' :: cells))
      with (s ++ String sep (String.concat (String sep "") (s' :: cells)))%string.
    rewrite split_app by done. by rewrite IH.
Qed.

Lemma occurs_app (c : ascii) (s t : string) :
  occurs c (s ++ t) = occurs c s || occurs c t.
Proof. induction s as [|d s IH]; simpl; [done|]. by rewrite IH, orb_assoc. Qed.

Lemma occurs_concat (c sep : ascii) (cells : list string) :
  Ascii.eqb sep c = false ->
  Forall (fun s => occurs c s = false) cells ->
  occurs c (String.concat (String sep EmptyString) cells) = false.
Proof.
  intros Hsep. induction cells as [|s cells IH]; [done|]. intros Hall.
  apply Forall_cons in Hall as [Hs Hall].
  destruct cells as [|s' cells]; [done|].
  change (String.concat (String sep "") (s :: s' :: cells))
    with (s ++ String sep (String.concat (String sep "") (s' :: cells)))%string.
  rewrite occurs_app, Hs. cbn [occurs orb]. rewrite Hsep. cbn [orb]. by apply IH.
Qed.

Lemma assign_property_own (key : string) (value : jsval) (object : gmap string jsval) :
  key <> "__proto__"%string -> assign_property key value object = <[key := value]> object.
Proof. unfold assign_property. by destruct (String.eqb_spec key "__proto__"). Qed.

Lemma row_fold (currentline cells : list string) (hs : list string) (n : nat)
    (acc : gmap string jsval) :
  length cells = length hs ->
  "__proto__" ∉ hs ->
  NoDup hs ->
  (forall i, (i < length hs)%nat -> currentline !! (n + i)%nat = cells !! i) ->
  fold_left (fun row '(idx, k) =>
               assign_property k (default JUndefined (JString <$> currentline !! idx)) row)
            (imap (fun idx k => ((n + idx)%nat, k)) hs) acc
  = list_to_map (zip hs (JString <$> cells)) ∪ acc.
Proof.
  revert cells n acc. induction hs as [|h hs IH]; intros cells n acc Hlen Hproto Hnodup Hcells.
  - destruct cells; [|done]. cbn. by rewrite (left_id_L ∅ (∪)).
  - destruct cells as [|c cells]; [done|].
    apply not_elem_of_cons in Hproto as [Hh Hproto].
    apply NoDup_cons in Hnodup as [Hnotin Hnodup].
    cbn [imap fold_left]. rewrite (assign_property_own h) by done.
    rewrite (Hcells 0%nat) by (cbn; lia). cbn [lookup list_lookup fmap option_fmap option_map default].
    rewrite (imap_ext _ (fun idx k => ((S n + idx)%nat, k))) by (intros; cbn; f_equal; lia).
    rewrite (IH cells (S n)); [|by injection Hlen|done|done|].
    + cbn [fmap list_fmap zip zip_with list_to_map foldr]. cbn.
      rewrite <- insert_union_l, <- insert_union_r; [done|].
      apply not_elem_of_list_to_map_1. rewrite fst_zip; [done|].
      rewrite length_fmap. injection Hlen as Hlen. lia.
    + intros i Hi. replace (S n + i)%nat with (n + S i)%nat by lia.
      rewrite Hcells by (cbn; lia). done.
Qed.

Lemma row_fold_values (currentline : list string) (headers : list (nat * string))
    (row : gmap string jsval) (key : string) (v : jsval) :
  fold_left (fun row '(idx, k) =>
               assign_property k (default JUndefined (JString <$> currentline !! idx)) row)
            headers row !! key = Some v ->
  row !! key = Some v \/ v = JUndefined \/ exists c, c ∈ currentline /\ v = JString c.
Proof.
  revert row. induction headers as [|[i k] hs IH]; intros row; cbn [fold_left]; [by left|].
  intros H. apply IH in H as [H|H]; [|by right].
  unfold assign_property in H. destruct (String.eqb k "__proto__"); [by left|].
  destruct (decide (k = key)) as [->|Hne].
  - rewrite lookup_insert_eq in H. injection H as <-. right.
    destruct (currentline !! i) as [c|] eqn:Hc; cbn; [right|by left].
    exists c. split; [by eapply list_elem_of_lookup_2 | done].
  - rewrite lookup_insert_ne in H by done. by left.
Qed.

Lemma split_line_feed_end (sep : ascii) (s : string) :
  split sep (s ++ String sep EmptyString) = split sep s ++ [EmptyString].
Proof.
  induction s as [|c s IH]; simpl.
  - by rewrite Ascii.eqb_refl.
  - destruct (Ascii.eqb c sep); rewrite IH; [done|].
    destruct (split sep s) eqn:Hs; [by apply split_nonempty in Hs | done].
Qed.

(** X9: [csvToJSON] reads a table back from its comma-separated text. When
    the header row is not empty, names no column twice and none __proto__,
    no cell holds a comma or a line feed, and every row has as many cells as
    the header, the result is [{entries: rows}] with one object per row after
    the header, which maps each header to the row's cell in that column, as
    a string. *)
Theorem csvToJSON_reads_the_table (header : list string) (rows : list (list string)) :
  header <> [] ->
  NoDup header ->
  "__proto__"%string ∉ header ->
  Forall (Forall plain_cell) (header :: rows) ->
  Forall (fun r => length r = length header) rows ->
  csvToJSON (csv_text (header :: rows))
  = Normal (JObject PlainObject
              {["entries"%string :=
                  JArray (map (fun r => JObject PlainObject
                                          (list_to_map (zip header (JString <$> r))))
                              rows)]}).
Proof.
  intros Hne Hnodup Hproto Hcells Hlen.
  assert (forall r, r ∈ header :: rows -> r <> [] /\ Forall plain_cell r) as Hrow.
  { intros r Hr. split; [|by eapply (proj1 (Forall_forall _ _) Hcells)].
    apply elem_of_cons in Hr as [->|Hr]; [done|].
    rewrite Forall_forall in Hlen. specialize (Hlen r Hr).
    intros ->. destruct header; done. }
  unfold csvToJSON, csv_text.
  rewrite split_concat; first last.
  - apply Forall_fmap, Forall_forall. intros r Hr. cbn.
    apply occurs_concat; [done|]. destruct (Hrow r Hr) as [_ Hp].
    eapply Forall_impl; [exact Hp|]. by intros s [_ ?].
  - done.
  - cbn [map]. rewrite split_concat; [|done|]; first last.
    { destruct (Hrow header) as [_ Hp]; [apply list_elem_of_here|].
      eapply Forall_impl; [exact Hp|]. by intros s [? _]. }
    do 4 f_equal. rewrite map_map. apply map_ext_in. intros r Hr%list_elem_of_In.
    destruct (Hrow r) as [Hr_ne Hp]; [by apply list_elem_of_further|].
    rewrite split_concat; [|done|eapply Forall_impl; [exact Hp|]; by intros s [? _]].
    f_equal.
    rewrite (row_fold r r header 0%nat ∅); [by rewrite (right_id_L ∅ (∪))| |done|done|done].
    rewrite Forall_forall in Hlen. by apply Hlen.
Qed.

(** X10: [csvToJSON] never throws, and a text that ends in a line feed gives,
    after the rows of the text without it, one more row that holds no data:
    every value of it is the empty string or undefined. *)
Theorem csvToJSON_trailing_line_feed (csv : string) :
  exists (rows : list jsval) (last_row : gmap string jsval),
    entries_of (csvToJSON csv) = Some rows
    /\ entries_of (csvToJSON (csv ++ String line_feed EmptyString))
       = Some (rows ++ [JObject PlainObject last_row])
    /\ (forall k v, last_row !! k = Some v -> v = JString "" \/ v = JUndefined).
Proof.
  unfold csvToJSON. rewrite split_line_feed_end.
  destruct (split line_feed csv) as [|line0 following] eqn:Hs;
    [by apply split_nonempty in Hs|].
  cbn [app]. eexists _, _. split_and!.
  - cbn. rewrite lookup_singleton_eq. done.
  - cbn -[split]. rewrite lookup_singleton_eq. rewrite map_app. done.
  - intros k v H. apply row_fold_values in H as [H|[H|(c & Hc & ->)]].
    + by rewrite lookup_empty in H.
    + by right.
    + left. cbn in Hc. apply list_elem_of_singleton in Hc as ->. done.
Qed.

End Csv_properties.

(** ** NeuralNetworkData: labelling incoming data *)

Section Labels_properties.
Import JS TensorFlow NeuralNetworkData NeuralNetworkDataFormats.
Context {engine : Engine}.

Lemma formatIncomingData_fold (labels : list string) (items : list jsval) (n : nat)
    (all_labels : list jsval) (acc : gmap string jsval) :
  length labels = length items ->
  "__proto__"%string ∉ labels ->
  NoDup labels ->
  (forall i, (i < length items)%nat ->
             all_labels !! (n + i)%nat = JString <$> labels !! i) ->
  fold_left (fun result '(idx, item) =>
               result ← result;
               label ← get_index (JArray all_labels) idx;
               mret (assign_property (property_key label) item result))
            (imap (fun idx item => ((n + idx)%nat, item)) items) (Normal acc)
  = Normal (list_to_map (zip labels items) ∪ acc).
Proof.
  revert labels n acc.
  induction items as [|item items IH]; intros labels n acc Hlen Hproto Hnodup Hlabels.
  - destruct labels; [|done]. cbn. by rewrite (left_id_L ∅ (∪)).
  - destruct labels as [|l labels]; [done|].
    apply not_elem_of_cons in Hproto as [Hl Hproto].
    apply NoDup_cons in Hnodup as [Hnotin Hnodup].
    cbn [imap fold_left]. cbn [mbind completion_bind get_index].
    rewrite (Hlabels 0%nat) by (cbn; lia).
    cbn [lookup list_lookup fmap option_fmap option_map default property_key mret completion_ret].
    rewrite (assign_property_own l) by done.
    rewrite (imap_ext _ (fun idx item => ((S n + idx)%nat, item)))
      by (intros; cbn; f_equal; lia).
    rewrite (IH labels (S n)); [|by injection Hlen|done|done|].
    + cbn [zip zip_with list_to_map foldr]. cbn.
      rewrite <- insert_union_l, <- insert_union_r; [done|].
      apply not_elem_of_list_to_map_1. rewrite fst_zip; [done|].
      injection Hlen as Hlen. lia.
    + intros i Hi. replace (S n + i)%nat with (n + S i)%nat by lia.
      rewrite Hlabels by (cbn; lia). done.
Qed.

Lemma formatIncomingData_zip (labels : list string) (items : list jsval) :
  length labels = length items ->
  "__proto__"%string ∉ labels ->
  NoDup labels ->
  formatIncomingData (JArray items) (JArray (JString <$> labels))
  = Normal (JObject PlainObject (list_to_map (zip labels items))).
Proof.
  intros Hlen Hproto Hnodup. unfold formatIncomingData.
  rewrite (formatIncomingData_fold labels items 0%nat (JString <$> labels) ∅);
    [|done|done|done|].
  - cbn. by rewrite (right_id_L ∅ (∪)).
  - intros i _. cbn. by rewrite list_lookup_fmap.
Qed.

Lemma zip_lookup_by_label (labels : list string) (items : list jsval) (i : nat) (l : string) :
  length labels = length items ->
  NoDup labels ->
  labels !! i = Some l ->
  (list_to_map (zip labels items) : gmap string jsval) !! l = items !! i.
Proof.
  intros Hlen Hnodup Hl.
  destruct (items !! i) as [item|] eqn:Hitem.
  - apply elem_of_list_to_map_1.
    + rewrite fst_zip by lia. done.
    + apply list_elem_of_lookup. exists i. by rewrite lookup_zip_with, Hl, Hitem.
  - apply lookup_ge_None in Hitem. apply lookup_lt_Some in Hl. lia.
Qed.

(** X11: given as many labels as values, all different and none __proto__,
    [formatIncomingData] returns an object with one property per label and
    nothing else, which holds under each label the value at the label's
    position. *)
Theorem formatIncomingData_pairs_by_position (labels : list string) (items : list jsval) :
  length labels = length items ->
  "__proto__"%string ∉ labels ->
  NoDup labels ->
  exists result : gmap string jsval,
    formatIncomingData (JArray items) (JArray (JString <$> labels))
    = Normal (JObject PlainObject result)
    /\ (forall i l, labels !! i = Some l -> result !! l = items !! i)
    /\ (forall l, l ∉ labels -> result !! l = None).
Proof.
  intros Hlen Hproto Hnodup. eexists. split; [by apply formatIncomingData_zip|]. split.
  - intros i l Hl. by apply zip_lookup_by_label.
  - intros l Hl. apply not_elem_of_list_to_map_1. rewrite fst_zip by lia. done.
Qed.

Lemma created_labels (prefix : string) (items : list jsval) :
  createLabelsFromArrayValues (JArray items) prefix
  = JArray (JString <$> ((fun idx => prefix ++ "_" ++ pretty idx)%string <$> seq 0 (length items))).
Proof.
  unfold createLabelsFromArrayValues. f_equal.
  rewrite <- list_fmap_compose. apply list_eq. intros i.
  rewrite list_lookup_imap, list_lookup_fmap.
  destruct (items !! i) as [item|] eqn:Hi; cbn.
  - rewrite lookup_seq_lt by (by eapply lookup_lt_Some). done.
  - rewrite lookup_seq_ge by (by apply lookup_ge_None). done.
Qed.

Lemma created_labels_NoDup (prefix : string) (n : nat) :
  NoDup ((fun idx => prefix ++ "_" ++ pretty idx)%string <$> seq 0 n).
Proof.
  apply NoDup_fmap_2; [|apply NoDup_seq].
  intros i j Hij. apply String.app_inj in Hij.
  apply (String.app_inj "_") in Hij. by apply pretty_nat_inj in Hij.
Qed.

Lemma formatIncomingData_created (prefix : string) (items : list jsval) :
  (forall i : nat, ("__proto__" <> prefix ++ "_" ++ pretty i)%string) ->
  exists result : gmap string jsval,
    formatIncomingData (JArray items) (createLabelsFromArrayValues (JArray items) prefix)
    = Normal (JObject PlainObject result)
    /\ (forall i : nat, result !! (prefix ++ "_" ++ pretty i)%string = items !! i)
    /\ size result = length items.
Proof.
  intros Hproto. rewrite created_labels.
  set (labels := (fun idx => prefix ++ "_" ++ pretty idx)%string <$> seq 0 (length items)).
  assert (length labels = length items) as Hlen
    by (unfold labels; by rewrite length_fmap, length_seq).
  assert (NoDup labels) as Hnodup by apply created_labels_NoDup.
  assert ("__proto__"%string ∉ labels) as Hnot.
  { intros (i & Hi & _)%list_elem_of_fmap. by apply (Hproto i). }
  eexists. split; [by apply formatIncomingData_zip|]. split.
  - intros i. destruct (decide (i < length items)%nat) as [Hi|Hi].
    + apply zip_lookup_by_label; [done|done|].
      unfold labels. rewrite list_lookup_fmap, lookup_seq_lt by done. done.
    + rewrite (proj2 (lookup_ge_None items i)) by lia.
      apply not_elem_of_list_to_map_1. rewrite fst_zip by lia.
      intros (j & Hj & Hin)%list_elem_of_fmap.
      apply String.app_inj, (String.app_inj "_"), pretty_nat_inj in Hj as ->.
      apply elem_of_seq in Hin. lia.
  - rewrite <- size_dom, dom_list_to_map_L, fst_zip by lia.
    rewrite size_list_to_set by done. done.
Qed.

(** X12: [addData] called with two arrays and no options (or falsy ones)
    appends one row to [data.raw] and changes no earlier row. The row's xs
    hold the i-th input value under the key input_i, its ys the j-th output
    value under output_j, and neither holds anything else. *)
Theorem addData_without_options (data_raw : list RawRow) (xInputs yInputs : list jsval)
    (options : jsval) :
  truthy options = false ->
  exists inputs outputs : gmap string jsval,
    addData data_raw (JArray xInputs) (JArray yInputs) options
    = Normal (data_raw ++ [{| row_xs := JObject PlainObject inputs;
                              row_ys := JObject PlainObject outputs |}])
    /\ (forall i : nat, inputs !! ("input_" ++ pretty i)%string = xInputs !! i)
    /\ size inputs = length xInputs
    /\ (forall j : nat, outputs !! ("output_" ++ pretty j)%string = yInputs !! j)
    /\ size outputs = length yInputs.
Proof.
  intros Hfalsy.
  destruct (formatIncomingData_created "input" xInputs) as (inputs & Hin & Hin_l & Hin_s);
    [done|].
  destruct (formatIncomingData_created "output" yInputs) as (outputs & Hout & Hout_l & Hout_s);
    [done|].
  exists inputs, outputs. split_and!; try done.
  unfold addData. rewrite Hfalsy. cbn [andb mbind completion_bind mret completion_ret].
  rewrite Hin. cbn [mbind completion_bind]. rewrite Hout. done.
Qed.

End Labels_properties.

(** ** NeuralNetworkData: undoing the normalisation *)

Section Decoding_properties.
Import JS TensorFlow NeuralNetworkData NeuralNetworkDataFormats.
Context {tf : TensorLibrary} {engine : Engine} {order : PropertyOrder} {identity : Identity}.
Local Open Scope Q_scope.

Lemma forallb_is_number (numbers : list Q) : forallb is_number (map JNumber numbers) = true.
Proof. by induction numbers. Qed.

Lemma unNormalizeArray_numbers (numbers : list Q) (options : NormalizeOptions) :
  unNormalizeArray (map JNumber numbers) options
  = Normal (map (fun n => JNumber (unNormalizeValue n (min options) (max options))) numbers).
Proof.
  unfold unNormalizeArray. rewrite forallb_is_number. cbn [negb].
  f_equal. by rewrite map_map.
Qed.

(** X13: on an array of numbers [unNormalizeArray] undoes [normalizeArray]:
    with the same min and max, different from each other, normalising the
    array and un-normalising the result gives back, position by position,
    the numbers of the array. *)
Theorem unNormalizeArray_undoes_normalizeArray (numbers : list Q) (options : NormalizeOptions) :
  ~ max options == min options ->
  exists normalized restored : list Q,
    value (normalizeArray (map JNumber numbers) options) = map JNumber normalized
    /\ unNormalizeArray (map JNumber normalized) options = Normal (map JNumber restored)
    /\ Forall2 Qeq restored numbers.
Proof.
  intros Hne.
  exists (map (fun n => normalizeValue n (min options) (max options)) numbers).
  exists (map (fun n => unNormalizeValue (normalizeValue n (min options) (max options))
                          (min options) (max options)) numbers).
  split_and!.
  - rewrite normalizeArray_numbers. by rewrite map_map.
  - rewrite unNormalizeArray_numbers. by rewrite !map_map.
  - induction numbers as [|n numbers IH]; cbn [map]; constructor; [|exact IH].
    unfold unNormalizeValue, normalizeValue. field.
    intros H. apply Hne. lra.
Qed.

Lemma compare_rows (r1 r2 : list Q) (n : nat) (val : list jsval) :
  length r1 = length r2 ->
  (forall i, (i < length r1)%nat -> val !! (n + i)%nat = JNumber <$> r2 !! i) ->
  exists compared,
    mapM (fun '(idx, num) =>
            at_idx ← get_index (JArray val) idx;
            mret (strict_equals num at_idx))
         (imap (fun idx num => ((n + idx)%nat, num)) (map JNumber r1))
    = Normal compared
    /\ (forallb (fun truthy => Bool.eqb truthy true) compared = true <-> Forall2 Qeq r1 r2).
Proof.
  revert r2 n. induction r1 as [|q r1 IH]; intros r2 n Hlen Hval.
  - destruct r2; [|done]. exists []. split; [done|]. split; [constructor|done].
  - destruct r2 as [|q' r2]; [done|].
    destruct (IH r2 (S n)) as (compared & Hmap & Hall); [by injection Hlen|..].
    { intros i Hi. replace (S n + i)%nat with (n + S i)%nat by lia.
      rewrite Hval by (cbn; lia). done. }
    exists (Qeq_bool q q' :: compared). split.
    + cbn [map imap mapM]. cbn [mbind completion_bind get_index].
      rewrite (Hval 0%nat) by (cbn; lia).
      cbn [lookup list_lookup fmap option_fmap option_map default mret completion_ret
           strict_equals].
      rewrite (imap_ext _ (fun idx num => ((S n + idx)%nat, num)))
        by (intros; cbn; f_equal; lia).
      cbn [mbind completion_bind get_index mret completion_ret] in Hmap.
      rewrite Hmap. done.
    + cbn [forallb]. rewrite andb_true_iff, Hall. split.
      * intros [Hq HF]. constructor; [|done].
        apply Qeq_bool_iff. by destruct (Qeq_bool q q').
      * intros HF. apply Forall2_cons in HF as [Hq HF]. split; [|done].
        apply Qeq_bool_iff in Hq. by rewrite Hq.
Qed.

Lemma matches_rows (r1 r2 : list Q) :
  length r1 = length r2 ->
  exists b, matches (JArray (map JNumber r1)) (JArray (map JNumber r2)) = Normal b
            /\ (b = true <-> Forall2 Qeq r1 r2).
Proof.
  intros Hlen.
  destruct (compare_rows r1 r2 0%nat (map JNumber r2) Hlen) as (compared & Hmap & Hall).
  { intros i _. cbn. apply list_lookup_fmap. }
  eexists. split; [|exact Hall].
  unfold matches. cbn [plus] in Hmap. rewrite Hmap. done.
Qed.

Lemma bind_Normal {A B} (a : A) (k : A -> completion B) : (Normal a ≫= k) = k a.
Proof. reflexivity. Qed.

Lemma map_JNumber_inj (r r' : list Q) : map JNumber r = map JNumber r' -> r = r'.
Proof.
  revert r'. induction r as [|q r IH]; intros [|q' r'] H; try done.
  injection H as -> H. f_equal. by apply IH.
Qed.

Lemma decode_fold (lg : gmap string jsval) (l : string) (r : list Q) (keys : list string)
    (res : jsval) :
  distinct_rows lg ->
  lg !! l = Some (JArray (map JNumber r)) ->
  Forall (fun k => is_Some (lg !! k)) keys ->
  fold_left (fun res key =>
               res ← res;
               let val := default JUndefined (lg !! key) in
               matching ← matches (JArray (map JNumber r)) val;
               mret (if matching : bool then JString key else res))
            keys (Normal res)
  = Normal (if decide (l ∈ keys) then JString l else res).
Proof.
  intros Hrows Hl. revert res. induction keys as [|k keys IH]; intros res Hkeys.
  - cbn. by rewrite decide_False by apply not_elem_of_nil.
  - apply Forall_cons in Hkeys as [[v Hv] Hkeys]. cbn [fold_left].
    cbn [mbind completion_bind]. rewrite Hv. cbn [default id].
    destruct (Hrows l k _ _ Hl Hv) as (r1 & r2 & Hr1 & -> & Hlen & Hsame).
    assert (r = r1) as <- by (apply map_JNumber_inj; by injection Hr1).
    destruct (matches_rows r r2 Hlen) as (b & -> & Hb).
    cbn [mret completion_ret].
    specialize (IH (if b then JString k else res) Hkeys). cbv zeta in IH |- *.
    etrans; [exact IH|]. f_equal. destruct b.
    + assert (l = k) as <- by (by apply Hsame, Hb).
      rewrite (decide_True (P := l ∈ l :: keys)) by apply list_elem_of_here.
      by destruct (decide (l ∈ keys)).
    + assert (l <> k) as Hne.
      { intros <-. rewrite Hl in Hv. injection Hv as Hv%map_JNumber_inj. subst r2.
        assert (false = true) as Habs; [|done].
        apply Hb. apply Forall_Forall2_diag, Forall_forall. intros; reflexivity. }
      destruct (decide (l ∈ keys)) as [Hin|Hnot].
      * by rewrite decide_True by (by apply list_elem_of_further).
      * rewrite decide_False; [done|]. by intros [?|?]%elem_of_cons.
Qed.

(** X14: a column of labels survives encoding and decoding. When the values
    of the legend are rows of numbers of one length, no two of them equal,
    [normalizeArray] replaces each label of the legend by its row, and
    [unNormalizeArray] turns the rows back into the labels, whatever the
    order in which the engine lists the legend. *)
Theorem unNormalizeArray_decodes_the_legend (lg : gmap string jsval) (labels : list string)
    (options : NormalizeOptions) :
  legend options = Some lg ->
  distinct_rows lg ->
  Forall (fun l => is_Some (lg !! l)) labels ->
  exists rows : list jsval,
    value (normalizeArray (map JString labels) options) = rows
    /\ Forall2 (fun l row => lg !! l = Some row) labels rows
    /\ unNormalizeArray rows options = Normal (map JString labels).
Proof.
  intros Hlg Hrows Hlabels.
  assert (forall l, is_Some (lg !! l) ->
                    exists r, lg !! l = Some (JArray (map JNumber r))) as Hrow.
  { intros l [v Hv]. destruct (Hrows l l _ _ Hv Hv) as (r & _ & -> & _). by exists r. }
  exists (map (fun l => default JUndefined (lg !! l)) labels). split_and!.
  - destruct labels as [|l labels]; [done|].
    unfold normalizeArray. cbn [map forallb is_number andb negb]. rewrite Hlg.
    cbn [mret TF_ret value]. f_equal.
    + cbn [property_key]. apply Forall_cons in Hlabels as [Hl _].
      destruct (Hrow l Hl) as (r & ->). done.
    + rewrite map_map. apply map_ext_in. intros k Hk%list_elem_of_In.
      cbn [property_key].
      apply Forall_cons in Hlabels as [_ Hlabels]. rewrite Forall_forall in Hlabels.
      destruct (Hrow k (Hlabels k Hk)) as (r & ->). done.
  - induction Hlabels as [|l labels [v Hv] _ IH]; cbn [map]; constructor; [|done].
    by rewrite Hv.
  - unfold unNormalizeArray. rewrite Hlg.
    assert (mapM (fun v =>
              fold_left (fun res key =>
                           res ← res;
                           matching ← matches v (default JUndefined (lg !! key));
                           mret (if matching : bool then JString key else res))
                        (own_keys lg) (Normal JUndefined))
              (map (fun l => default JUndefined (lg !! l)) labels)
            = Normal (map JString labels)) as Hdecoded.
    { induction Hlabels as [|l labels Hl _ IH]; [done|].
      cbn [map mapM]. destruct (Hrow l Hl) as (r & Hr). rewrite Hr. cbn [default].
      cbv zeta. rewrite (decode_fold lg l r); [|done|done|].
      - rewrite decide_True by (apply own_keys_elem_of; by rewrite Hr).
        rewrite bind_Normal, IH. done.
      - apply Forall_forall. intros k Hk. by apply own_keys_elem_of. }
    destruct labels as [|l labels]; [done|].
    apply Forall_cons in Hlabels as [Hl _]. destruct (Hrow l Hl) as (r & Hr).
    cbn [map forallb] in *. rewrite Hr in *. cbn [default is_number andb negb] in *.
    exact Hdecoded.
Qed.

End Decoding_properties.

(** ** NeuralNetwork: predicting and classifying *)

Section Prediction_properties.
Import JS TensorFlow NeuralNetworkData NeuralNetworkDataFormats NeuralNetwork
       NeuralNetworkPrediction.
Context {tf : TensorLibrary} {library : PredictLibrary tf}
        {order : PropertyOrder} {arithmetic : Arithmetic}.

(** X15: how [predict] and [classify] take a second argument that holds no
    meta data, once the model has predicted and the output's array has
    arrived. Given a function there, both fulfil with that array as it is.
    Given nothing, null or a primitive, [classify] fulfils with the array and
    disposes of both tensors, but [predict] rejects with a TypeError and
    disposes of nothing: it hands undefined to [predictInternal], which only
    takes null for missing meta data. In this second case a callback given as
    third argument is never called. *)
Theorem predict_needs_meta_or_callback (this : NeuralNetwork) (_inputs : Tensor)
    (_metaOrCb _cb : jsval) (output : Tensor) (result : jsval) :
  model_predict (model this) _inputs = Normal output ->
  tensor_array output = Fulfilled result ->
  (typeof _metaOrCb = "function"%string ->
   (value (predict this _inputs _metaOrCb _cb)).1 = Fulfilled (Raw result)
   /\ (value (classify this _inputs _metaOrCb _cb)).1 = Fulfilled (Raw result))
  /\ (instanceof_Object _metaOrCb = false ->
      (exists message,
          value (predict this _inputs _metaOrCb _cb) = (Rejected (TypeError message), []))
      /\ tf_calls (predict this _inputs _metaOrCb _cb) = [call_tidy]
      /\ value (classify this _inputs _metaOrCb _cb) = (Fulfilled (Raw result), [])
      /\ tf_calls (classify this _inputs _metaOrCb _cb)
         = [call_tidy; call_dispose; call_dispose]).
Proof.
  intros Hpredict Harray. split.
  - intros Hfunction.
    destruct _metaOrCb; try discriminate Hfunction.
    unfold predict, classify, predictInternal, classifyInternal.
    cbn. rewrite Hpredict. cbn. rewrite Harray. cbn. done.
  - intros Hnot.
    unfold predict, classify, predictInternal, classifyInternal.
    destruct _metaOrCb; try discriminate Hnot;
      cbn; rewrite Hpredict; cbn; rewrite Harray; cbn; eauto.
Qed.

Lemma own_keys_length {A : Type} (props : gmap string A) :
  length (own_keys props) = size props.
Proof.
  rewrite <- size_dom, <- (size_list_to_set (C := gset string)) by apply own_keys_NoDup.
  f_equal. apply set_eq. intros k.
  rewrite elem_of_list_to_set, own_keys_elem_of, elem_of_dom. done.
Qed.

Lemma format_unnormalized (meta_class : js_class) (props : gmap string jsval)
    (values : list jsval) (labels : list string) (n : nat) :
  truthy (default JUndefined (props !! "isNormalized")) = false ->
  mapM (fun '(idx, item) =>
          isNormalized ← get_prop (JObject meta_class props) "isNormalized";
          val ← (if truthy isNormalized then
                   outputs ← get_prop (JObject meta_class props) "outputs";
                   let of_item := own_property outputs item in
                   min ← destructure of_item "min" "_meta.outputs[item]";
                   max ← destructure of_item "max" "_meta.outputs[item]";
                   row ← get_index (JArray [JArray values]) 0;
                   value ← get_index row idx;
                   mret (unNormalizeValue_of value min max)
                 else
                   row ← get_index (JArray [JArray values]) 0;
                   value ← get_index row idx;
                   mret (Plain value));
          mret (<["value" := val]> (<["label" := Plain (JString item)]> {[item := val]})
                : gmap string predicted))
       (imap (fun idx item => ((n + idx)%nat, item)) labels)
  = Normal (imap (fun idx item =>
                    let val := Plain (default JUndefined (values !! (n + idx)%nat)) in
                    (<["value" := val]> (<["label" := Plain (JString item)]> {[item := val]})
                     : gmap string predicted))
                 labels).
Proof.
  intros Hfalsy. revert n. induction labels as [|label labels IH]; intros n; [done|].
  rewrite !imap_cons.
  rewrite (imap_ext _ (fun idx item => ((S n + idx)%nat, item)))
    by (intros; cbn; f_equal; lia).
  change (mapM ?f (?x :: ?l)) with (y ← f x; k ← mapM f l; mret (y :: k)).
  rewrite IH. cbn [get_prop mbind completion_bind]. rewrite Hfalsy.
  cbn [get_index mbind completion_bind lookup list_lookup default id mret completion_ret].
  f_equal. f_equal.
  apply imap_ext. intros i item _. cbn. by replace (n + S i)%nat with (S (n + i)) by lia.
Qed.

(** X16: [predict] with meta data that are not marked as normalised, on a
    model whose output's array is [[values]]: the promise holds one result
    per output of the meta data, in the order the engine lists them; the
    result at a position holds the output's name as label and the value at
    that position as value, and the value under the output's name too unless
    the output is called label or value. Both tensors are disposed of. *)
Theorem predict_formats_each_output (this : NeuralNetwork) (_inputs : Tensor)
    (meta_class outputs_class : js_class) (props outs : gmap string jsval)
    (_cb : jsval) (output : Tensor) (values : list jsval) :
  model_predict (model this) _inputs = Normal output ->
  tensor_array output = Fulfilled (JArray [JArray values]) ->
  props !! "outputs"%string = Some (JObject outputs_class outs) ->
  truthy (default JUndefined (props !! "isNormalized"%string)) = false ->
  exists formatted : list (gmap string predicted),
    (value (predict this _inputs (JObject meta_class props) _cb)).1
    = Fulfilled (Formatted formatted)
    /\ tf_calls (predict this _inputs (JObject meta_class props) _cb)
       = [call_tidy; call_dispose; call_dispose]
    /\ length formatted = size outs
    /\ (forall idx label,
          own_keys outs !! idx = Some label ->
          exists r : gmap string predicted,
            formatted !! idx = Some r
            /\ r !! "label"%string = Some (Plain (JString label))
            /\ r !! "value"%string = Some (Plain (default JUndefined (values !! idx)))
            /\ (label <> "label"%string -> label <> "value"%string ->
                r !! label = Some (Plain (default JUndefined (values !! idx))))).
Proof.
  intros Hpredict Harray Houtputs Hfalsy.
  pose proof (format_unnormalized meta_class props values (own_keys outs) 0 Hfalsy) as Hformat.
  eexists. split_and!.
  - unfold predict, predictInternal. cbn [is_undefined typeof String.eqb instanceof_Object].
    cbn -[mapM]. rewrite Hpredict. cbn -[mapM]. rewrite Harray. cbn -[mapM].
    rewrite Houtputs. cbn -[mapM].
    cbn -[mapM] in Hformat. rewrite Houtputs in Hformat. cbn -[mapM] in Hformat.
    rewrite Hformat.
    cbn. by destruct _cb.
  - unfold predict, predictInternal. cbn [is_undefined typeof String.eqb instanceof_Object].
    cbn -[mapM]. rewrite Hpredict. cbn -[mapM]. rewrite Harray. cbn -[mapM].
    rewrite Houtputs. cbn -[mapM].
    cbn -[mapM] in Hformat. rewrite Houtputs in Hformat. cbn -[mapM] in Hformat.
    rewrite Hformat.
    cbn. done.
  - by rewrite length_imap, own_keys_length.
  - intros idx label Hlabel. eexists. split; [by rewrite list_lookup_imap, Hlabel|].
    cbn. split_and!.
    + rewrite lookup_insert_ne by done. by rewrite lookup_insert_eq.
    + by rewrite lookup_insert_eq.
    + intros H1 H2. rewrite !lookup_insert_ne by done. by rewrite lookup_singleton_eq.
Qed.

End Prediction_properties.

(** ** DiyNeuralNetwork: adding data *)

Section Diy_properties.
Import JS NeuralNetworkData NeuralNetworkDataFormats.
Context {engine : Engine} {lengths : DiyNeuralNetwork.Lengths}.

Lemma truthy_labels (labels : list string) : truthy (JArray (JString <$> labels)) = true.
Proof. done. Qed.

(** X17: which labels [DiyNeuralNetwork.addData] files a pair of arrays
    under. Called without options, on a network whose constructor was given
    input and output names (none of them twice, none __proto__, as many as
    there are values), it appends one row to the raw data that holds each
    value under the name at its position. Called with an options object that
    has no inputLabels, it does not fall back on those names: the row is the
    one [NeuralNetworkData.addData] makes without options, with the keys
    input_0, input_1, ... and output_0, output_1, ... *)
Theorem diy_addData_labels (this : DiyNeuralNetwork.DiyNeuralNetwork)
    (input_names output_names : list string) (xInputs yInputs : list jsval) :
  DiyNeuralNetwork.inputs (DiyNeuralNetwork.options this) = JArray (JString <$> input_names) ->
  DiyNeuralNetwork.outputs (DiyNeuralNetwork.options this) = JArray (JString <$> output_names) ->
  input_names <> [] -> output_names <> [] ->
  length input_names = length xInputs -> length output_names = length yInputs ->
  NoDup input_names -> NoDup output_names ->
  "__proto__"%string ∉ input_names -> "__proto__"%string ∉ output_names ->
  (forall options, is_undefined options || is_null options = true ->
     DiyNeuralNetwork.addData this (JArray xInputs) (JArray yInputs) options
     = Normal {| DiyNeuralNetwork.options := DiyNeuralNetwork.options this;
                 DiyNeuralNetwork.data_raw :=
                   DiyNeuralNetwork.data_raw this
                   ++ [{| row_xs := JObject PlainObject (list_to_map (zip input_names xInputs));
                          row_ys := JObject PlainObject (list_to_map (zip output_names yInputs))
                       |}] |})
  /\ (forall cls props, props !! "inputLabels"%string = None ->
        DiyNeuralNetwork.addData this (JArray xInputs) (JArray yInputs) (JObject cls props)
        = raw ← addData (DiyNeuralNetwork.data_raw this) (JArray xInputs) (JArray yInputs)
                  JUndefined;
          mret {| DiyNeuralNetwork.options := DiyNeuralNetwork.options this;
                  DiyNeuralNetwork.data_raw := raw |}).
Proof.
  intros Hin Hout Hin_ne Hout_ne Hlen_in Hlen_out Hnodup_in Hnodup_out Hproto_in Hproto_out.
  split.
  - intros options Hnone.
    assert ((if is_undefined options then JNull else options) = JNull) as Hnull
      by (destruct options; done).
    unfold DiyNeuralNetwork.addData. rewrite Hnull, Hin, Hout.
    cbn [is_null negb DiyNeuralNetwork.length_above_zero mbind completion_bind].
    rewrite !length_fmap.
    destruct input_names as [|i input_names]; [done|].
    destruct output_names as [|o output_names]; [done|].
    cbn [length Nat.ltb Nat.leb mret completion_ret].
    cbn [mbind completion_bind mret completion_ret truthy andb].
    unfold addData. cbn [truthy is_null andb negb get_prop mbind completion_bind].
    rewrite lookup_insert_eq. rewrite lookup_insert_ne by done. rewrite lookup_singleton_eq.
    cbn [default mret completion_ret mbind completion_bind].
    rewrite (formatIncomingData_zip (i :: input_names)) by done.
    rewrite (formatIncomingData_zip (o :: output_names)) by done.
    done.
  - intros cls props Hnone.
    unfold DiyNeuralNetwork.addData.
    cbn [is_undefined is_null negb get_prop mbind completion_bind]. rewrite Hnone.
    cbn [default truthy andb mret completion_ret].
    unfold addData. cbn [truthy is_null andb negb]. done.
Qed.

End Diy_properties.

(** ** NeuralNetworkData: from the raw data to the tensors *)

Section Meta_properties.
Import JS TensorFlow NeuralNetworkData NeuralNetworkDataFormats NeuralNetworkDataMeta.
Context {tf : TensorLibrary} {constructor : TensorConstructor tf}
        {engine : Engine} {order : PropertyOrder} {identity : Identity}.

Lemma TF_value_bind {A B} (t : TF A) (f : A -> TF B) : value (t ≫= f) = value (f (value t)).
Proof. reflexivity. Qed.

Lemma TF_value_fold {A K} (step : A -> K -> TF A) (keys : list K) (t : TF A) :
  value (fold_left (fun t key => a ← t; step a key) keys t)
  = fold_left (fun a key => value (step a key)) keys (value t).
Proof.
  revert t. induction keys as [|k keys IH]; intros t; [done|].
  cbn [fold_left]. by rewrite IH.
Qed.

Lemma encode_entry_other (dataRaw : list Row) (xsOrYs : XsOrYs)
    (inputsMeta : gmap string Meta) (k key : string) (entry : Meta) :
  key <> k ->
  value (encode_entry dataRaw xsOrYs inputsMeta k entry) !! key = inputsMeta !! key.
Proof.
  intros Hne. unfold encode_entry.
  destruct (String.eqb (dtype entry) "string"); [|done].
  cbn. by rewrite lookup_insert_ne.
Qed.

Lemma encode_entry_same (dataRaw : list Row) (xsOrYs : XsOrYs)
    (inputsMeta : gmap string Meta) (k : string) (entry : Meta) :
  inputsMeta !! k = Some entry ->
  value (encode_entry dataRaw xsOrYs inputsMeta k entry) !! k
  = Some (if String.eqb (dtype entry) "string" then
            with_encodings entry
              (value (createOneHotEncodings
                        (unique_values (map (fun obj => row_get obj xsOrYs k) dataRaw))))
          else entry).
Proof.
  intros Hk. unfold encode_entry.
  destruct (String.eqb (dtype entry) "string"); [|done].
  cbn. by rewrite lookup_insert_eq, Hk.
Qed.

(** The entry [getOneHotMeta] leaves for an entry of the meta data. *)
Lemma getOneHotMeta_fold (entries : gmap string Meta) (dataRaw : list Row) (xsOrYs : XsOrYs)
    (keys : list string) (acc : gmap string Meta) (key : string) :
  NoDup keys ->
  (forall k, k ∈ keys -> acc !! k = entries !! k) ->
  fold_left (fun inputsMeta key =>
               value (match entries !! key with
                      | Some entry => encode_entry dataRaw xsOrYs inputsMeta key entry
                      | None => mret inputsMeta
                      end))
            keys acc !! key
  = if decide (key ∈ keys) then
      match entries !! key with
      | Some entry =>
          Some (if String.eqb (dtype entry) "string" then
                  with_encodings entry
                    (value (createOneHotEncodings
                              (unique_values (map (fun obj => row_get obj xsOrYs key) dataRaw))))
                else entry)
      | None => acc !! key
      end
    else acc !! key.
Proof.
  revert acc. induction keys as [|k keys IH]; intros acc Hnodup Hacc.
  - cbn. by rewrite decide_False by apply not_elem_of_nil.
  - apply NoDup_cons in Hnodup as [Hk Hnodup]. cbn [fold_left].
    rewrite IH; [|done|].
    + destruct (decide (key = k)) as [->|Hne].
      * rewrite (decide_False (P := k ∈ keys)) by done.
        rewrite (decide_True (P := k ∈ k :: keys)) by apply list_elem_of_here.
        destruct (entries !! k) as [entry|] eqn:He; [|done].
        apply encode_entry_same. rewrite <- He. apply Hacc, list_elem_of_here.
      * assert (value (match entries !! k with
                       | Some entry => encode_entry dataRaw xsOrYs acc k entry
                       | None => mret acc
                       end) !! key = acc !! key) as Hother.
        { destruct (entries !! k); [by apply encode_entry_other | done]. }
        rewrite Hother.
        destruct (decide (key ∈ keys)) as [Hin|Hnot].
        -- rewrite decide_True by (by apply list_elem_of_further). done.
        -- rewrite decide_False; [done|]. by intros [?|?]%elem_of_cons.
    + intros k' Hk'.
      assert (k' <> k) as Hne by (by intros ->).
      destruct (entries !! k); [|by apply Hacc, list_elem_of_further].
      rewrite encode_entry_other by done. by apply Hacc, list_elem_of_further.
Qed.

Lemma getOneHotMeta_lookup (inputsMeta : gmap string Meta) (dataRaw : list Row)
    (xsOrYs : XsOrYs) (key : string) :
  value (getOneHotMeta inputsMeta dataRaw xsOrYs) !! key
  = match own_copy inputsMeta !! key with
    | Some entry =>
        Some (if String.eqb (dtype entry) "string" then
                with_encodings entry
                  (value (createOneHotEncodings
                            (unique_values (map (fun obj => row_get obj xsOrYs key) dataRaw))))
              else entry)
    | None => None
    end.
Proof.
  unfold getOneHotMeta. cbv zeta. rewrite TF_value_fold.
  rewrite (getOneHotMeta_fold (own_copy inputsMeta)); [|apply own_keys_NoDup|done].
  cbn [mret TF_ret value].
  destruct (own_copy inputsMeta !! key) as [entry|] eqn:He.
  - rewrite decide_True by (apply own_keys_elem_of; by rewrite He). done.
  - by destruct (decide _).
Qed.

Lemma count_fold (side : gmap string Meta) (keys : list string) (n : nat) :
  (forall k, k ∈ keys ->
     exists m, side !! k = Some m
               /\ (dtype m = "number"%string
                   \/ (dtype m = "string"%string /\ is_Some (uniqueValues m)))) ->
  fold_left (fun units key =>
               units ← units;
               match side !! key with
               | Some entry => count_entry units entry
               | None => mret units
               end)
            keys (Normal (Count n))
  = Normal (Count (n + sum_list (units_of side <$> keys))).
Proof.
  revert n. induction keys as [|k keys IH]; intros n Hkeys.
  - cbn. f_equal. f_equal. lia.
  - destruct (Hkeys k) as (m & Hm & Hd); [apply list_elem_of_here|].
    cbn [fold_left fmap list_fmap sum_list sum_list_with].
    cbn [mbind completion_bind]. rewrite Hm. unfold units_of at 1. rewrite Hm.
    unfold count_entry.
    assert (forall k', k' ∈ keys ->
              exists m, side !! k' = Some m
                        /\ (dtype m = "number"%string
                            \/ (dtype m = "string"%string /\ is_Some (uniqueValues m))))
      as Hrest by (intros k' Hk'; by apply Hkeys, list_elem_of_further).
    destruct Hd as [->|[-> [values ->]]]; cbn [String.eqb Ascii.eqb Bool.eqb default];
      cbn [mret completion_ret add_units]; rewrite IH by done; do 2 f_equal; unfold id; lia.
Qed.

Lemma count_fold_returns (side : gmap string Meta) (keys : list string) (units : Units) :
  (forall k m, side !! k = Some m -> dtype m = "string"%string -> is_Some (uniqueValues m)) ->
  exists units',
    fold_left (fun units key =>
                 units ← units;
                 match side !! key with
                 | Some entry => count_entry units entry
                 | None => mret units
                 end)
              keys (Normal units)
    = Normal units'.
Proof.
  intros Hside. revert units. induction keys as [|k keys IH]; intros units; [by eexists|].
  cbn [fold_left]. cbn [mbind completion_bind].
  destruct (side !! k) as [m|] eqn:Hm; [|apply IH].
  unfold count_entry.
  destruct (String.eqb (dtype m) "number"); [apply IH|].
  destruct (String.eqb_spec (dtype m) "string") as [Hs|_].
  - destruct (Hside k m Hm Hs) as [values ->]. apply IH.
  - destruct (String.eqb (dtype m) "object"); apply IH.
Qed.

(** The values [new Set] keeps of a column of strings. *)
Lemma unique_values_fold (ss acc : list string) :
  NoDup acc ->
  exists us,
    fold_left (fun seen v => if existsb (strict_equals v) seen then seen else seen ++ [v])
              (JString <$> ss) (JString <$> acc)
    = JString <$> us
    /\ NoDup us /\ (forall s, s ∈ us <-> s ∈ acc \/ s ∈ ss).
Proof.
  revert acc. induction ss as [|s ss IH]; intros acc Hacc.
  - exists acc. split; [done|]. split; [done|]. intros s. rewrite elem_of_nil. tauto.
  - cbn [fmap list_fmap fold_left].
    assert (existsb (strict_equals (JString s)) (JString <$> acc) = bool_decide (s ∈ acc))
      as ->.
    { clear. induction acc as [|a acc IH]; [done|].
      cbn [fmap list_fmap existsb strict_equals]. rewrite IH.
      destruct (String.eqb_spec s a) as [->|Hne].
      - cbn. symmetry. apply bool_decide_eq_true. apply list_elem_of_here.
      - cbn. apply bool_decide_ext. rewrite elem_of_cons.
        split; [by right | by intros [?|?]]. }
    destruct (decide (s ∈ acc)) as [Hin|Hnot].
    + rewrite bool_decide_eq_true_2 by done.
      destruct (IH acc Hacc) as (us & Hus & Hnd & Hall).
      exists us. split; [done|]. split; [done|].
      intros s'. rewrite Hall, elem_of_cons.
      split; [tauto | intros [?|[->|?]]; tauto].
    + rewrite bool_decide_eq_false_2 by done.
      destruct (IH (acc ++ [s])) as (us & Hus & Hnd & Hall).
      { apply NoDup_app. split; [done|]. split; [|apply NoDup_singleton].
        intros x Hx ->%list_elem_of_singleton. done. }
      exists us. split; [by rewrite fmap_app in Hus|]. split; [done|].
      intros s'. rewrite Hall, elem_of_app, list_elem_of_singleton, elem_of_cons. tauto.
Qed.

Lemma unique_values_strings (ss : list string) :
  exists us, unique_values (JString <$> ss) = JString <$> us
             /\ NoDup us /\ (forall s, s ∈ us <-> s ∈ ss).
Proof.
  destruct (unique_values_fold ss []) as (us & Hus & Hnd & Hall); [apply NoDup_nil_2|].
  exists us. split; [exact Hus|]. split; [done|].
  intros s. rewrite Hall, elem_of_nil. tauto.
Qed.

Lemma legend_fold_present (rows : list jsval) (us : list string) (n : nat)
    (lg : gmap string jsval) (i : nat) (s : string) :
  NoDup us ->
  us !! i = Some s ->
  fold_left (fun lg '(uIdx, uVal) =>
               <[property_key uVal := default JUndefined (rows !! uIdx)]> lg)
            (imap (fun idx v => ((n + idx)%nat, v)) (JString <$> us)) lg !! s
  = Some (default JUndefined (rows !! (n + i)%nat)).
Proof.
  revert n lg i. induction us as [|u us IH]; intros n lg i Hnd Hi; [done|].
  apply NoDup_cons in Hnd as [Hu Hnd].
  cbn [fmap list_fmap imap fold_left].
  rewrite (imap_ext _ (fun idx v => ((S n + idx)%nat, v))) by (intros; cbn; f_equal; lia).
  destruct i as [|i].
  - injection Hi as ->. cbn [property_key].
    assert (forall (entries : list (nat * jsval)) (lg : gmap string jsval) v,
              (forall e, e ∈ entries -> property_key e.2 <> s) ->
              lg !! s = Some v ->
              fold_left (fun lg '(uIdx, uVal) =>
                           <[property_key uVal := default JUndefined (rows !! uIdx)]> lg)
                        entries lg !! s = Some v) as Hkeep.
    { clear. induction entries as [|[j w] entries IH]; intros lg v Hne Hlg; [done|].
      cbn [fold_left]. apply IH.
      - intros e He. by apply Hne, list_elem_of_further.
      - rewrite lookup_insert_ne; [done|]. apply (Hne (j, w)), list_elem_of_here. }
    apply Hkeep; [|by rewrite lookup_insert_eq, Nat.add_0_r].
    intros [j w] (k & v & [= -> ->] & Hk)%elem_of_lookup_imap. cbn [snd].
    apply list_lookup_fmap_Some in Hk as (u' & -> & Hu'). cbn [property_key].
    intros ->. apply Hu. by eapply list_elem_of_lookup_2.
  - cbn in Hi. rewrite (IH (S n) _ i) by done. do 3 f_equal. lia.
Qed.

Lemma one_hot_legend (us : list string) (i : nat) (s : string) :
  square_one_hot ->
  (2 <= length us)%nat ->
  NoDup us ->
  us !! i = Some s ->
  exists items,
    encoded_legend (value (createOneHotEncodings (JString <$> us))) !! s = Some (JArray items)
    /\ length items = length us.
Proof.
  intros Hsquare Htwo Hnd Hi.
  destruct (Hsquare (imap (fun idx _ => Z.of_nat idx) (JString <$> us)))
    as (rows & Hrows & Hlen & Hall); [by rewrite length_imap, length_fmap|].
  rewrite length_imap, length_fmap in *.
  assert (exists items, rows !! i = Some items) as [items Hitems].
  { apply lookup_lt_is_Some. rewrite Hlen. by eapply lookup_lt_Some. }
  exists items. split.
  - cbn [createOneHotEncodings tf_tidy value mbind TF_bind tf_tensor1d tf_oneHot
         tensor_arraySync mret TF_ret encoded_legend].
    rewrite (legend_fold_present _ us 0 ∅ i s) by done.
    rewrite length_fmap, Hrows. cbn [plus]. rewrite list_lookup_fmap, Hitems. done.
  - rewrite Forall_forall in Hall. apply Hall. by eapply list_elem_of_lookup_2.
Qed.

Lemma encoded_fold (side : gmap string Meta) (row : Row) (xsOrYs : XsOrYs)
    (keys : list string) (copy : gmap string jsval) (k : string) :
  k <> "__proto__"%string ->
  fold_left (fun copy k =>
               match side !! k with
               | Some m =>
                   match meta_legend m with
                   | Some legend =>
                       assign_property k
                         (default JUndefined (legend !! property_key (row_get row xsOrYs k)))
                         copy
                   | None => copy
                   end
               | None => copy
               end)
            keys copy !! k
  = if decide (k ∈ keys) then
      match side !! k with
      | Some m =>
          match meta_legend m with
          | Some legend =>
              Some (default JUndefined (legend !! property_key (row_get row xsOrYs k)))
          | None => copy !! k
          end
      | None => copy !! k
      end
    else copy !! k.
Proof.
  intros Hproto. revert copy. induction keys as [|k' keys IH] using rev_ind; intros copy.
  - cbn. by rewrite decide_False by apply not_elem_of_nil.
  - rewrite fold_left_app. cbn [fold_left].
    destruct (decide (k = k')) as [<-|Hne].
    + rewrite (decide_True (P := k ∈ keys ++ [k]))
        by (apply elem_of_app; right; apply list_elem_of_here).
      destruct (side !! k) as [m|] eqn:Hm.
      * destruct (meta_legend m) as [legend|] eqn:Hlg.
        -- rewrite assign_property_own by done. by rewrite lookup_insert_eq.
        -- rewrite IH, ?Hm, ?Hlg. by destruct (decide _).
      * rewrite IH, ?Hm. by destruct (decide _).
    + assert (forall t : gmap string jsval,
                match side !! k' with
                | Some m =>
                    match meta_legend m with
                    | Some legend =>
                        assign_property k'
                          (default JUndefined (legend !! property_key (row_get row xsOrYs k')))
                          t
                    | None => t
                    end
                | None => t
                end !! k = t !! k) as Hother.
      { intros t. destruct (side !! k') as [m|]; [|done].
        destruct (meta_legend m); [|done]. unfold assign_property.
        destruct (String.eqb k' "__proto__"); [done|]. by rewrite lookup_insert_ne. }
      rewrite Hother, IH.
      destruct (decide (k ∈ keys)) as [Hin|Hnot].
      * rewrite decide_True by (apply elem_of_app; by left). done.
      * rewrite decide_False; [done|].
        intros [?|?%list_elem_of_singleton]%elem_of_app; done.
Qed.

Lemma encoded_lookup (side : gmap string Meta) (row : Row) (k : string) (m : Meta) :
  k <> "__proto__"%string ->
  side !! k = Some m ->
  encoded side row Xs !! k
  = match meta_legend m with
    | Some legend => Some (default JUndefined (legend !! property_key (row_get row Xs k)))
    | None => xs row !! k
    end.
Proof.
  intros Hproto Hm. unfold encoded. rewrite encoded_fold by done.
  rewrite decide_True by (apply own_keys_elem_of; by rewrite Hm). by rewrite Hm.
Qed.

Lemma flat_length (values : list jsval) (units : list nat) :
  Forall2 (fun v n => length (flat [v]) = n) values units ->
  length (flat values) = sum_list units.
Proof.
  induction 1 as [|v n values units Hv _ IH]; [done|].
  unfold flat in *. cbn [flat_map] in *. rewrite length_app, IH.
  rewrite app_nil_r in Hv. by rewrite Hv.
Qed.

(** What [getOneHotMeta] makes of the dtypes of a first row whose columns
    hold numbers throughout or strings throughout. *)
Lemma uniform_columns_meta (first : Row) (rest : list Row) (key : string) (v : jsval) :
  square_one_hot ->
  xs first !! "__proto__"%string = None ->
  xs first !! key = Some v ->
  (forall s, v = JString s -> (2 <= length (distinct_values (first :: rest) Xs key))%nat) ->
  column_of_numbers (first :: rest) key \/ column_of_strings (first :: rest) key ->
  exists m,
    value (getOneHotMeta (own_copy (of_dtype <$> xs first)) (first :: rest) Xs) !! key = Some m
    /\ key <> "__proto__"%string
    /\ ((dtype m = "number"%string /\ meta_legend m = None
         /\ column_of_numbers (first :: rest) key)
        \/ (dtype m = "string"%string
            /\ exists us legend,
                 uniqueValues m = Some (JString <$> us) /\ meta_legend m = Some legend
                 /\ Forall (fun row =>
                              exists s items,
                                xs row !! key = Some (JString s)
                                /\ legend !! s = Some (JArray items)
                                /\ length items = length us) (first :: rest))).
Proof.
  intros Hsquare Hproto Hv Htwo Hcol.
  assert (key <> "__proto__"%string) as Hkey by (intros ->; congruence).
  rewrite getOneHotMeta_lookup. unfold own_copy.
  rewrite !lookup_delete_ne, lookup_fmap, Hv by done. cbn [fmap option_fmap option_map].
  eexists. split; [reflexivity|]. split; [done|].
  destruct Hcol as [Hnumbers|Hstrings].
  - left. pose proof Hnumbers as Hall. apply Forall_cons in Hall as [[q Hq] _].
    rewrite Hv in Hq. injection Hq as ->. cbn. done.
  - right. pose proof Hstrings as Hall. apply Forall_cons in Hall as [[s0 Hs0] _].
    rewrite Hv in Hs0. injection Hs0 as ->. cbn [of_dtype dtype typeof String.eqb Ascii.eqb
                                                 Bool.eqb].
    split; [done|]. specialize (Htwo s0 eq_refl). unfold distinct_values in Htwo.
    assert (exists ss, map (fun obj => row_get obj Xs key) (first :: rest) = JString <$> ss
                       /\ Forall (fun row => exists s, xs row !! key = Some (JString s)
                                                       /\ s ∈ ss) (first :: rest))
      as (ss & Hss & Hrows).
    { clear -Hstrings. induction Hstrings as [|row rows [s Hs] _ (ss & Hss & Hrows)].
      - by exists [].
      - exists (s :: ss). split.
        + cbn [map fmap list_fmap]. rewrite <- Hss. f_equal. unfold row_get. by rewrite Hs.
        + constructor; [exists s; split; [done | apply list_elem_of_here]|].
          eapply Forall_impl; [exact Hrows|]. intros r (s' & ? & ?). exists s'.
          split; [done | by apply list_elem_of_further]. }
    rewrite Hss in Htwo |- *. destruct (unique_values_strings ss) as (us & Hunique & Hnd & Hus).
    rewrite Hunique in Htwo |- *. rewrite length_fmap in Htwo.
    eexists us, _. split_and!; [reflexivity | reflexivity |].
    eapply Forall_impl; [exact Hrows|]. intros row (s & Hs & Hin).
    apply Hus, list_elem_of_lookup in Hin as [i Hi].
    destruct (one_hot_legend us i s Hsquare Htwo Hnd Hi) as (items & Hitems & Hlen).
    by exists s, items.
Qed.

Lemma getOneHotMeta_strings_have_values (inputsMeta : gmap string Meta)
    (dataRaw : list Row) (xsOrYs : XsOrYs) (k : string) (m : Meta) :
  own_copy (value (getOneHotMeta inputsMeta dataRaw xsOrYs)) !! k = Some m ->
  dtype m = "string"%string ->
  is_Some (uniqueValues m).
Proof.
  intros Hm Hd. unfold own_copy in Hm at 1. apply lookup_delete_Some in Hm as [_ Hm].
  rewrite getOneHotMeta_lookup in Hm.
  destruct (own_copy inputsMeta !! k) as [entry|]; [|done]. injection Hm as <-.
  destruct (String.eqb_spec (dtype entry) "string") as [_|Hne]; [by eexists | done].
Qed.

(** X18: the tensor of the inputs gets the values its shape asks for. For
    raw data whose first row has no key __proto__, whose input columns each
    hold numbers throughout or strings throughout, and whose columns that
    start with a string, input or output, hold at least two distinct values
    ([tf.oneHot] refuses a depth below 2, and with it
    [createMetaDataFromData] fails on a column of a single string), and a
    tensor library whose one-hot encoding of n indices, n at least 2, is n
    rows of n entries: [createMetaDataFromData] returns meta data whose
    inputUnits is a count; every row that [applyOneHotEncodingsToDataRaw]
    makes with them brings exactly that many values; and
    [convertRawToTensors] asks [tf.tensor] for the shape
    [[dataLength, inputUnits]] with dataLength times inputUnits values. *)
Theorem tensors_fit_their_shape (this_meta : MetaData) (first : Row) (rest : list Row) :
  square_one_hot ->
  xs first !! "__proto__"%string = None ->
  (forall key, is_Some (xs first !! key) ->
     column_of_numbers (first :: rest) key \/ column_of_strings (first :: rest) key) ->
  (forall key s, xs first !! key = Some (JString s) ->
     (2 <= length (distinct_values (first :: rest) Xs key))%nat) ->
  (forall key s, ys first !! key = Some (JString s) ->
     (2 <= length (distinct_values (first :: rest) Ys key))%nat) ->
  exists (meta : MetaData) (units : nat) (units_out : Units) (inputArr outputArr : list jsval),
    value (createMetaDataFromData this_meta (first :: rest)) = Normal meta
    /\ inputUnits meta = Some (Count units)
    /\ Forall (fun row =>
                 length (flat (map (fun k => row_get row Xs k) (own_keys (meta_inputs meta))))
                 = units)
              (applyOneHotEncodingsToDataRaw (first :: rest) meta)
    /\ value (convertRawToTensors (applyOneHotEncodingsToDataRaw (first :: rest) meta) meta)
       = (inputs ← tensor inputArr (length (first :: rest)) (Some (Count units));
          outputs ← tensor outputArr (length (first :: rest)) (Some units_out);
          mret (inputs, outputs))
    /\ length inputArr = (length (first :: rest) * units)%nat.
Proof.
  intros Hsquare Hproto Hcols Htwo_in _.
  set (dataRaw := first :: rest) in *.
  set (inputs := value (getOneHotMeta (own_copy (of_dtype <$> xs first)) dataRaw Xs)).
  set (outputs := value (getOneHotMeta (own_copy (of_dtype <$> ys first)) dataRaw Ys)).
  assert (forall k, k ∈ own_keys inputs ->
            exists v, xs first !! k = Some v) as Hkeys.
  { intros k [m Hm]%own_keys_elem_of. subst inputs. rewrite getOneHotMeta_lookup in Hm.
    unfold own_copy in Hm.
    destruct (decide (k = "__proto__"%string)) as [->|Hk].
    - by rewrite lookup_delete_eq in Hm.
    - rewrite !lookup_delete_ne, lookup_fmap in Hm by done.
      destruct (xs first !! k) as [v|]; [by exists v | done]. }
  assert (forall k, k ∈ own_keys inputs ->
            exists m, inputs !! k = Some m
              /\ k <> "__proto__"%string
              /\ ((dtype m = "number"%string /\ meta_legend m = None
                   /\ column_of_numbers dataRaw k)
                  \/ (dtype m = "string"%string
                      /\ exists us legend,
                           uniqueValues m = Some (JString <$> us)
                           /\ meta_legend m = Some legend
                           /\ Forall (fun row =>
                                        exists s items,
                                          xs row !! k = Some (JString s)
                                          /\ legend !! s = Some (JArray items)
                                          /\ length items = length us) dataRaw))) as Hentry.
  { intros k Hk. destruct (Hkeys k Hk) as [v Hv].
    apply (uniform_columns_meta first rest k v); [done | done | done | |].
    - intros s ->. by eapply Htwo_in.
    - apply Hcols. by rewrite Hv. }
  assert (own_copy inputs = inputs) as Hcopy.
  { unfold own_copy. apply delete_id.
    destruct (inputs !! "__proto__"%string) as [m|] eqn:Hm; [|done].
    assert ("__proto__"%string ∈ own_keys inputs) as Hin
      by (apply own_keys_elem_of; by rewrite Hm).
    by destruct (Hentry _ Hin) as (_ & _ & ? & _). }
  set (units := sum_list (units_of inputs <$> own_keys inputs)).
  assert (calculateInputUnitsFromData inputs = Normal (Count units)) as Hunits.
  { unfold calculateInputUnitsFromData. cbv zeta. rewrite Hcopy.
    rewrite (count_fold inputs (own_keys inputs) 0); [done|].
    intros k Hk. destruct (Hentry k Hk) as (m & Hm & _ & [(Hd & _)|(Hd & us & lg & Hu & _)]).
    - exists m. split; [done|]. by left.
    - exists m. split; [done|]. right. split; [done|]. by rewrite Hu. }
  destruct (count_fold_returns (own_copy outputs) (own_keys (own_copy outputs)) (Count 0))
    as [units_out Hunits_out].
  { intros k m Hm Hd. subst outputs.
    by eapply getOneHotMeta_strings_have_values. }
  set (meta := {| inputUnits := Some (Count units);
                  outputUnits := Some units_out;
                  meta_inputs := inputs;
                  meta_outputs := outputs;
                  isNormalized := isNormalized this_meta |}).
  assert (Forall (fun row =>
                    length (flat (map (fun k => row_get row Xs k) (own_keys inputs))) = units)
                 (applyOneHotEncodingsToDataRaw dataRaw meta)) as Hrows.
  { unfold applyOneHotEncodingsToDataRaw. apply Forall_fmap, Forall_forall.
    intros row Hrow. cbn [meta_inputs meta]. unfold units.
    apply flat_length. apply Forall2_fmap, Forall_Forall2_diag, Forall_forall.
    intros k Hk. unfold row_get. cbn [xs].
    destruct (Hentry k Hk)
      as (m & Hm & Hproto_k & [(Hd & Hlg & Hcol)|(Hd & us & lg & Hu & Hlg & Hcol)]).
    - rewrite (encoded_lookup inputs row k m) by done. rewrite Hlg.
      unfold column_of_numbers in Hcol. rewrite Forall_forall in Hcol.
      destruct (Hcol row Hrow) as [q ->]. unfold units_of. rewrite Hm, Hd. done.
    - rewrite (encoded_lookup inputs row k m) by done. rewrite Hlg.
      rewrite Forall_forall in Hcol.
      destruct (Hcol row Hrow) as (s & items & Hs & Hitems & Hlen).
      unfold row_get. rewrite Hs. cbn [default property_key id]. rewrite Hitems.
      unfold units_of. rewrite Hm, Hd, Hu. cbn. rewrite app_nil_r, length_fmap. done. }
  exists meta, units, units_out.
  exists (flattened inputs (applyOneHotEncodingsToDataRaw dataRaw meta) Xs).
  exists (flattened outputs (applyOneHotEncodingsToDataRaw dataRaw meta) Ys).
  split_and!.
  - unfold createMetaDataFromData. cbn [getDTypesFromData dataRaw lookup list_lookup].
    subst dataRaw. cbn [lookup list_lookup].
    cbn [meta_inputs meta_outputs isNormalized].
    rewrite !TF_value_bind. cbn [mret TF_ret value]. fold inputs. fold outputs.
    rewrite Hunits.
    unfold calculateInputUnitsFromData. cbv zeta. rewrite Hunits_out. done.
  - done.
  - exact Hrows.
  - unfold convertRawToTensors. cbn. rewrite length_fmap. done.
  - unfold flattened.
    assert (forall rows : list Row,
              Forall (fun row =>
                        length (flat (map (fun k => row_get row Xs k) (own_keys inputs)))
                        = units) rows ->
              length (flat_map (fun row => flat (map (fun k => row_get row Xs k)
                                                     (own_keys inputs))) rows)
              = (length rows * units)%nat) as Hsum.
    { induction 1 as [|row rows Hrow _ IH]; [done|].
      cbn [flat_map length]. rewrite length_app, Hrow, IH. lia. }
    rewrite Hsum by done. unfold applyOneHotEncodingsToDataRaw. by rewrite length_fmap.
Qed.

End Meta_properties.

(** ** The further properties on the reference implementations *)

Section KNN_labels_on_the_reference_library.
Import JS KNNClassifier KNNCounts Spec Reference ReferenceEngine Samples.


Lemma getCountByLabel_counts_each_label_witness :
  exists countByLabel,
    getCountByLabel (addExamples new_KNN pets) = inr countByLabel
    /\ (forall (i : nat) (l : string),
          mapStringToIndex (addExamples new_KNN pets) !! i = Some l ->
          l <> ""%string -> l <> "__proto__"%string ->
          countByLabel !! l = getCount (addExamples new_KNN pets) !! Z.of_nat i)
    /\ countByLabel !! "__proto__"%string = None
    /\ (forall l : string, l ∉ map snd pets -> countByLabel !! l = None).
Proof.
  apply (@getCountByLabel_counts_each_label reference_knn reference_counts pets).
  unfold pets. discriminate.
Defined.

End KNN_labels_on_the_reference_library.

Section CocoSsd_on_a_sample.
Import JS CocoSsd Spec Samples.
Local Open Scope Q_scope.

Lemma formatted_box_is_relative_witness :
  (0 <= x (format Qdiv webcam a_person) /\ 0 <= w (format Qdiv webcam a_person)
   /\ x (format Qdiv webcam a_person) + w (format Qdiv webcam a_person) <= 1)
  /\ (0 <= y (format Qdiv webcam a_person) /\ 0 <= h (format Qdiv webcam a_person)
      /\ y (format Qdiv webcam a_person) + h (format Qdiv webcam a_person) <= 1).
Proof.
  apply (formatted_box_is_relative webcam a_person); vm_compute;
    first [reflexivity | discriminate].
Defined.

End CocoSsd_on_a_sample.

Section NeuralNetworkData_on_samples.
Import JS TensorFlow NeuralNetworkData NeuralNetworkDataFormats Spec Reference
       ReferenceEngine Samples.
Local Open Scope Q_scope.



Lemma csvToJSON_reads_the_table_witness :
  csvToJSON (csv_text colours)
  = Normal (JObject PlainObject
              {["entries"%string :=
                  JArray (map (fun r => JObject PlainObject
                                          (list_to_map (zip ["r"; "g"; "label"]%string
                                                            (JString <$> r))))
                              [ ["255"; "0"; "red"]; ["0"; "0"; "black"] ]%string)]}).
Proof.
  apply (csvToJSON_reads_the_table ["r"; "g"; "label"]%string
           [ ["255"; "0"; "red"]; ["0"; "0"; "black"] ]%string).
  - discriminate.
  - apply (bool_decide_unpack _). vm_compute. exact I.
  - apply (bool_decide_unpack _). vm_compute. exact I.
  - repeat constructor.
  - repeat constructor.
Defined.

Lemma formatIncomingData_pairs_by_position_witness :
  exists result : gmap string jsval,
    formatIncomingData (JArray [JNumber 255; JNumber 0; JString "red"])
                       (JArray (JString <$> ["r"; "g"; "label"]%string))
    = Normal (JObject PlainObject result)
    /\ (forall i l, ["r"; "g"; "label"]%string !! i = Some l ->
                    result !! l = [JNumber 255; JNumber 0; JString "red"] !! i)
    /\ (forall l, l ∉ ["r"; "g"; "label"]%string -> result !! l = None).
Proof.
  apply (formatIncomingData_pairs_by_position ["r"; "g"; "label"]%string
           [JNumber 255; JNumber 0; JString "red"]).
  - reflexivity.
  - apply (bool_decide_unpack _). vm_compute. exact I.
  - apply (bool_decide_unpack _). vm_compute. exact I.
Defined.

Lemma addData_without_options_witness :
  exists inputs outputs : gmap string jsval,
    addData [] (JArray [JNumber 255; JNumber 0]) (JArray [JString "red"]) JUndefined
    = Normal ([] ++ [{| row_xs := JObject PlainObject inputs;
                        row_ys := JObject PlainObject outputs |}])
    /\ (forall i : nat, inputs !! ("input_" ++ pretty i)%string
                        = [JNumber 255; JNumber 0] !! i)
    /\ size inputs = length [JNumber 255; JNumber 0]
    /\ (forall j : nat, outputs !! ("output_" ++ pretty j)%string = [JString "red"] !! j)
    /\ size outputs = length [JString "red"].
Proof.
  apply (addData_without_options [] [JNumber 255; JNumber 0] [JString "red"] JUndefined).
  reflexivity.
Defined.

Lemma unNormalizeArray_undoes_normalizeArray_witness :
  exists normalized restored : list Q,
    value (normalizeArray (map JNumber [150; 180; 165]) between_150_and_180)
    = map JNumber normalized
    /\ unNormalizeArray (map JNumber normalized) between_150_and_180
       = Normal (map JNumber restored)
    /\ Forall2 Qeq restored [150; 180; 165].
Proof.
  apply (unNormalizeArray_undoes_normalizeArray [150; 180; 165] between_150_and_180).
  vm_compute. discriminate.
Defined.

Lemma cat_or_dog_rows : distinct_rows cat_or_dog.
Proof.
  intros k1 k2 v1 v2 H1 H2. unfold cat_or_dog in *.
  apply lookup_insert_Some in H1 as [[<- <-]|[_ [<- <-]%lookup_singleton_Some]];
    apply lookup_insert_Some in H2 as [[<- <-]|[_ [<- <-]%lookup_singleton_Some]].
  - exists [1; 0], [1; 0]. by split_and!.
  - exists [1; 0], [0; 1]. split_and!; try done.
    intros H. apply Forall2_cons in H as [H _]. vm_compute in H. discriminate.
  - exists [0; 1], [1; 0]. split_and!; try done.
    intros H. apply Forall2_cons in H as [H _]. vm_compute in H. discriminate.
  - exists [0; 1], [0; 1]. by split_and!.
Defined.

Lemma unNormalizeArray_decodes_the_legend_witness :
  exists rows : list jsval,
    value (normalizeArray (map JString ["dog"; "cat"; "dog"]%string) with_cat_or_dog) = rows
    /\ Forall2 (fun l row => cat_or_dog !! l = Some row) ["dog"; "cat"; "dog"]%string rows
    /\ unNormalizeArray rows with_cat_or_dog = Normal (map JString ["dog"; "cat"; "dog"]%string).
Proof.
  apply (unNormalizeArray_decodes_the_legend cat_or_dog ["dog"; "cat"; "dog"]%string
           with_cat_or_dog).
  - reflexivity.
  - exact cat_or_dog_rows.
  - repeat constructor; vm_compute; eauto.
Defined.

End NeuralNetworkData_on_samples.

Section NeuralNetwork_on_samples.
Import JS TensorFlow NeuralNetworkData NeuralNetworkDataFormats NeuralNetwork
       NeuralNetworkPrediction Reference ReferenceEngine Samples.

Lemma predict_needs_meta_or_callback_witness :
  (typeof JUndefined = "function"%string ->
   (value (predict a_network [JNumber 1; JNumber 2] JUndefined (JFunction 7))).1
   = Fulfilled (Raw (JArray [JArray [JNumber 1; JNumber 2]]))
   /\ (value (classify a_network [JNumber 1; JNumber 2] JUndefined (JFunction 7))).1
      = Fulfilled (Raw (JArray [JArray [JNumber 1; JNumber 2]])))
  /\ (instanceof_Object JUndefined = false ->
      (exists message,
          value (predict a_network [JNumber 1; JNumber 2] JUndefined (JFunction 7))
          = (Rejected (TypeError message), []))
      /\ tf_calls (predict a_network [JNumber 1; JNumber 2] JUndefined (JFunction 7))
         = [call_tidy]
      /\ value (classify a_network [JNumber 1; JNumber 2] JUndefined (JFunction 7))
         = (Fulfilled (Raw (JArray [JArray [JNumber 1; JNumber 2]])), [])
      /\ tf_calls (classify a_network [JNumber 1; JNumber 2] JUndefined (JFunction 7))
         = [call_tidy; call_dispose; call_dispose]).
Proof.
  apply (predict_needs_meta_or_callback a_network [JNumber 1; JNumber 2] JUndefined
           (JFunction 7) [JNumber 1; JNumber 2] (JArray [JArray [JNumber 1; JNumber 2]]));
    reflexivity.
Defined.

Lemma predict_formats_each_output_witness :
  exists formatted : list (gmap string predicted),
    (value (predict a_network [JNumber 1; JNumber 2] (JObject PlainObject two_outputs)
              JUndefined)).1
    = Fulfilled (Formatted formatted)
    /\ tf_calls (predict a_network [JNumber 1; JNumber 2] (JObject PlainObject two_outputs)
                   JUndefined)
       = [call_tidy; call_dispose; call_dispose]
    /\ length formatted
       = size ({["x" := JObject PlainObject ∅; "y" := JObject PlainObject ∅]}
                 : gmap string jsval)
    /\ (forall idx label,
          own_keys ({["x" := JObject PlainObject ∅; "y" := JObject PlainObject ∅]}
                      : gmap string jsval) !! idx = Some label ->
          exists r : gmap string predicted,
            formatted !! idx = Some r
            /\ r !! "label"%string = Some (Plain (JString label))
            /\ r !! "value"%string
               = Some (Plain (default JUndefined ([JNumber 1; JNumber 2] !! idx)))
            /\ (label <> "label"%string -> label <> "value"%string ->
                r !! label
                = Some (Plain (default JUndefined ([JNumber 1; JNumber 2] !! idx))))).
Proof.
  apply (predict_formats_each_output a_network [JNumber 1; JNumber 2]
           PlainObject PlainObject two_outputs
           {["x" := JObject PlainObject ∅; "y" := JObject PlainObject ∅]}
           JUndefined [JNumber 1; JNumber 2] [JNumber 1; JNumber 2]);
    reflexivity.
Defined.

End NeuralNetwork_on_samples.

Section DiyNeuralNetwork_on_samples.
Import JS NeuralNetworkData NeuralNetworkDataFormats Reference ReferenceEngine Samples.

Lemma diy_addData_labels_witness :
  (forall options, is_undefined options || is_null options = true ->
     DiyNeuralNetwork.addData colour_network
       (JArray [JNumber 255; JNumber 0; JNumber 0]) (JArray [JString "red"]) options
     = Normal {| DiyNeuralNetwork.options := DiyNeuralNetwork.options colour_network;
                 DiyNeuralNetwork.data_raw :=
                   DiyNeuralNetwork.data_raw colour_network
                   ++ [{| row_xs :=
                            JObject PlainObject
                              (list_to_map (zip ["r"; "g"; "b"]%string
                                                [JNumber 255; JNumber 0; JNumber 0]));
                          row_ys :=
                            JObject PlainObject
                              (list_to_map (zip ["label"]%string [JString "red"]))
                       |}] |})
  /\ (forall cls props, props !! "inputLabels"%string = None ->
        DiyNeuralNetwork.addData colour_network
          (JArray [JNumber 255; JNumber 0; JNumber 0]) (JArray [JString "red"])
          (JObject cls props)
        = raw ← addData (DiyNeuralNetwork.data_raw colour_network)
                  (JArray [JNumber 255; JNumber 0; JNumber 0]) (JArray [JString "red"])
                  JUndefined;
          mret {| DiyNeuralNetwork.options := DiyNeuralNetwork.options colour_network;
                  DiyNeuralNetwork.data_raw := raw |}).
Proof.
  apply (diy_addData_labels colour_network ["r"; "g"; "b"]%string ["label"]%string
           [JNumber 255; JNumber 0; JNumber 0] [JString "red"]).
  - reflexivity.
  - reflexivity.
  - discriminate.
  - discriminate.
  - reflexivity.
  - reflexivity.
  - apply (bool_decide_unpack _). vm_compute. exact I.
  - apply (bool_decide_unpack _). vm_compute. exact I.
  - apply (bool_decide_unpack _). vm_compute. exact I.
  - apply (bool_decide_unpack _). vm_compute. exact I.
Defined.

End DiyNeuralNetwork_on_samples.

Section NeuralNetworkData_tensors_on_a_sample.
Import JS TensorFlow NeuralNetworkData NeuralNetworkDataFormats NeuralNetworkDataMeta
       Reference ReferenceEngine ReferenceTensors.

Lemma reference_square_one_hot : @square_one_hot reference_tf.
Proof.
  intros indices _.
  exists (map (fun i => map (fun j => JNumber (if (Z.of_nat j =? Qfloor (inject_Z i))%Z
                                               then 1 else 0)%Q)
                            (seq 0 (length indices))) indices).
  split_and!.
  - cbn. rewrite <- !list_fmap_compose. done.
  - by rewrite length_map.
  - apply Forall_forall. intros row (i & -> & _)%list_elem_of_fmap.
    by rewrite length_map, length_seq.
Defined.

Lemma people_columns (key : string) :
  is_Some (xs (somebody 150 "brown") !! key) ->
  column_of_numbers people key \/ column_of_strings people key.
Proof.
  intros [v Hv]. cbn in Hv.
  apply lookup_insert_Some in Hv as [[<- _]|[_ [<- _]%lookup_singleton_Some]].
  - left. repeat constructor; eexists; reflexivity.
  - right. repeat constructor; eexists; reflexivity.
Defined.

Lemma people_colours (key s : string) :
  xs (somebody 150 "brown") !! key = Some (JString s) ->
  (2 <= length (distinct_values people Xs key))%nat.
Proof.
  intros Hv. cbn in Hv.
  apply lookup_insert_Some in Hv as [[_ [=]]|[_ [<- _]%lookup_singleton_Some]].
  vm_compute. lia.
Defined.

Lemma people_sizes (key s : string) :
  ys (somebody 150 "brown") !! key = Some (JString s) ->
  (2 <= length (distinct_values people Ys key))%nat.
Proof.
  intros Hv. cbn in Hv. apply lookup_singleton_Some in Hv as [<- _].
  vm_compute. lia.
Defined.

Lemma tensors_fit_their_shape_witness :
  exists (meta : MetaData) (units : nat) (units_out : Units) (inputArr outputArr : list jsval),
    value (createMetaDataFromData no_meta
             (somebody 150 "brown" :: [somebody 180 "blue"; somebody 165 "brown"]))
    = Normal meta
    /\ inputUnits meta = Some (Count units)
    /\ Forall (fun row =>
                 length (flat (map (fun k => row_get row Xs k) (own_keys (meta_inputs meta))))
                 = units)
              (applyOneHotEncodingsToDataRaw
                 (somebody 150 "brown" :: [somebody 180 "blue"; somebody 165 "brown"]) meta)
    /\ value (convertRawToTensors
                (applyOneHotEncodingsToDataRaw
                   (somebody 150 "brown" :: [somebody 180 "blue"; somebody 165 "brown"]) meta)
                meta)
       = (inputs ← tensor inputArr
                    (length (somebody 150 "brown"
                             :: [somebody 180 "blue"; somebody 165 "brown"]))
                    (Some (Count units));
          outputs ← tensor outputArr
                     (length (somebody 150 "brown"
                              :: [somebody 180 "blue"; somebody 165 "brown"]))
                     (Some units_out);
          mret (inputs, outputs))
    /\ length inputArr
       = (length (somebody 150 "brown" :: [somebody 180 "blue"; somebody 165 "brown"])
          * units)%nat.
Proof.
  apply (tensors_fit_their_shape no_meta (somebody 150 "brown")
           [somebody 180 "blue"; somebody 165 "brown"]).
  - exact reference_square_one_hot.
  - reflexivity.
  - exact people_columns.
  - exact people_colours.
  - exact people_sizes.
Defined.

End NeuralNetworkData_tensors_on_a_sample.
